(** * dekun: a shallow embedding of the Python sources

    The development follows the layout of the repository:

    - [Py]         the fragments of Python's semantics the sources rely on
                   (exceptions, indexing, slicing, [str.split], [round], ...);
    - [Torch]      the shape contracts of the [torch] operations that are called;
    - [Utilities]  [src/python/utilities.py];
    - [Unet]       [src/python/marker/unet.py];
    - [Model]      [src/python/marker/model.py];
    - [Loader]     [src/python/marker/loader.py];
    - [Main]       [src/python/main.py].

    Conventions.  Python integers are [Z].  A tensor is represented by its
    shape (a [list Z]); the numbers it holds are not modelled.  The Python
    floats [fit_tensor] computes with are doubles: each is represented by
    the rational it is, and every operation rounds its exact result to the
    nearest double, ties to the even one ([Py.double]).  The exponent range
    of a double is not modelled: no operation of [fit_tensor] leaves it on
    sizes below [2 ^ 63], those a tensor can have.  Storage is not modelled
    either: no operation fails for lack of memory.  The two clock readings
    of [train] are rationals.  What the lifecycle code only passes along
    (learned weights, optimiser moments, the pixels of a batch, loss values
    and their sum and quotient) is the interface [Model.Runtime].  The
    messages of exceptions are shortened. *)

From Stdlib Require Import ZArith QArith Qround Qabs Qpower List Sorted Permutation String Ascii Bool Lia Lqa DecimalString.
From stdpp Require Import base option list gmap strings.
Import ListNotations.

Local Open Scope string_scope.
Local Open Scope list_scope.
Local Open Scope Z_scope.

(* ===================================================================== *)
(** * Python                                                              *)
(* ===================================================================== *)

Module Py.

(** The exceptions that the sources, the interpreter and torch raise on the
    paths modelled here. *)
Inductive exn : Type :=
| ValueError (msg : string)
| IndexError (msg : string)
| KeyError (key : string)
| AttributeError (msg : string)
| TypeError (msg : string)
| RuntimeError (msg : string)
| ZeroDivisionError (msg : string)
| FileNotFoundError (path : string)
| Exception (msg : string).

(** The outcome of evaluating an expression or a call. *)
Inductive result (A : Type) : Type :=
| Return (a : A)
| Raise (e : exn).
Arguments Return {A} a.
Arguments Raise {A} e.

Definition bind {A B : Type} (r : result A) (k : A -> result B) : result B :=
  match r with
  | Return a => k a
  | Raise e => Raise e
  end.

Definition raises {A : Type} (r : result A) : Prop :=
  exists e, r = Raise e.

Declare Scope py_scope.
Delimit Scope py_scope with py.
Notation "x <- r ;; k" := (bind r (fun x => k))
  (at level 63, r at next level, right associativity) : py_scope.

(** [len(l)] *)
Definition len {A : Type} (l : list A) : Z := Z.of_nat (length l).

(** [l[i]]: negative indices count from the end, anything outside raises. *)
Definition index {A : Type} (l : list A) (i : Z) : result A :=
  let j := if i <? 0 then i + len l else i in
  if j <? 0 then Raise (IndexError "index out of range")
  else match nth_error l (Z.to_nat j) with
       | Some a => Return a
       | None => Raise (IndexError "index out of range")
       end.

(** The bounds of [l[a:b]] on a sequence of [n] items, for a step of one:
    negative bounds count from the end and both are clamped to [0..n]. *)
Definition slice_bound (n i : Z) : Z :=
  let j := if i <? 0 then i + n else i in
  Z.max 0 (Z.min n j).

Definition slice_length (n a b : Z) : Z :=
  Z.max 0 (slice_bound n b - slice_bound n a).

(** [l[a:b]] *)
Definition slice {A : Type} (l : list A) (a b : Z) : list A :=
  let n := len l in
  firstn (Z.to_nat (slice_length n a b)) (skipn (Z.to_nat (slice_bound n a)) l).

(** [range(start, stop, step)] for a positive step. *)
Fixpoint range_from (fuel : nat) (start step : Z) : list Z :=
  match fuel with
  | O => []
  | S fuel' => start :: range_from fuel' (start + step) step
  end.

Definition range (start stop step : Z) : list Z :=
  if (step <=? 0) || (stop <=? start) then []
  else range_from (Z.to_nat ((stop - start + step - 1) / step)) start step.

(** [s.split(sep)] for a separator of one character. *)
Fixpoint split (sep : ascii) (s : string) : list string :=
  match s with
  | EmptyString => [EmptyString]
  | String c rest =>
      if Ascii.eqb c sep then EmptyString :: split sep rest
      else match split sep rest with
           | [] => [String c EmptyString]
           | part :: parts => String c part :: parts
           end
  end.

(** [sep.join(parts)] *)
Definition join (sep : string) (parts : list string) : string :=
  String.concat sep parts.

(** [sorted(l)] on strings: ascending in the order of [<=] on [str], which
    compares character codes from the left.  Insertion from the right keeps
    equal keys in their original order, as Python's stable sort does. *)
Fixpoint insert_sorted (x : string) (l : list string) : list string :=
  match l with
  | [] => [x]
  | y :: l' => if String.leb x y then x :: l else y :: insert_sorted x l'
  end.

Definition sorted (l : list string) : list string :=
  fold_right insert_sorted [] l.

(** A list of strings in ascending order. *)
Definition ascending : list string -> Prop :=
  Sorted (fun a b => String.leb a b = true).

(** [round(x)] with one argument: the nearest integer, ties to the even one. *)
Definition round (x : Q) : Z :=
  let f := Qfloor x in
  match (x - inject_Z f ?= 1 # 2)%Q with
  | Lt => f
  | Gt => f + 1
  | Eq => if Z.even f then f else f + 1
  end.

(** The exponent of a positive rational: [2 ^ ilog2 x <= x < 2 ^ (ilog2 x + 1)]. *)
Definition ilog2 (x : Q) : Z :=
  let e := Z.log2 (Qnum x) - Z.log2 (Z.pos (Qden x)) in
  if Qle_bool (2 ^ e) x then e else e - 1.

(** The double nearest to [x]: a significand of 53 bits, which is [x]
    divided by its unit in the last place and rounded to an integer, ties
    to the even one. *)
Definition double (x : Q) : Q :=
  if Qeq_bool x 0 then 0%Q
  else let ulp := (2 ^ (ilog2 (Qabs x) - 52))%Q in
       Qred (inject_Z (round (x / ulp)) * ulp).

(** [float(n)], which is also how an [int] operand meets a [float] one. *)
Definition float_of_int (n : Z) : Q := double (inject_Z n).

(** [a / b] on two [int]s: the double nearest to the quotient. *)
Definition int_truediv (a b : Z) : result Q :=
  if b =? 0 then Raise (ZeroDivisionError "division by zero")
  else Return (double (inject_Z a / inject_Z b)).

(** [a / b] and [a * b] on two [float]s. *)
Definition float_truediv (a b : Q) : result Q :=
  if Qeq_bool b 0 then Raise (ZeroDivisionError "float division by zero")
  else Return (double (a / b)).

Definition float_mul (a b : Q) : Q := double (a * b).

End Py.

Import Py.
Local Open Scope py_scope.

(* ===================================================================== *)
(** * torch: tensors as shapes                                            *)
(* ===================================================================== *)

Module Torch.

(** Each operation is modelled by the shape it returns and by the shapes it
    refuses.  The numbers a tensor holds, and what an operation does with
    them, are outside this model. *)

(** A tensor is its [shape]: the list of its dimension sizes. *)
Definition Tensor : Type := list Z.

(** [t.unsqueeze(0)] and [t.squeeze(0)] *)
Definition unsqueeze0 (t : Tensor) : Tensor := 1 :: t.

Definition squeeze0 (t : Tensor) : Tensor :=
  match t with
  | 1 :: rest => rest
  | _ => t
  end.

(** The integers torch takes for a size: those of 64 bits. *)
Definition int64 (n : Z) : bool := (- 2 ^ 63 <=? n) && (n <? 2 ^ 63).

(** [torch.nn.functional.interpolate(input, size=(h, w), ...)] on a batched
    image: the two spatial sizes are replaced.  A size that is not an
    integer of 64 bits is refused when the arguments are read; then an empty
    image or an empty output; then an input without channels. *)
Definition interpolate (input : Tensor) (size : Z * Z) : result Tensor :=
  match input with
  | [n; c; h; w] =>
      let '(out_h, out_w) := size in
      if negb (int64 out_h && int64 out_w)
      then Raise (TypeError "received an invalid combination of arguments")
      else if (0 <? h) && (0 <? w) && (0 <? out_h) && (0 <? out_w)
      then if c =? 0
           then Raise (RuntimeError "Non-empty 4D data tensor expected")
           else Return [n; c; out_h; out_w]
      else Raise (RuntimeError "Input and output sizes should be greater than 0")
  | _ => Raise (ValueError "Input and output must have the same number of spatial dimensions")
  end.

(** [torch.nn.functional.pad(input, (left, right, top, bottom))]: the last
    dimension grows by [left + right], the one before it by [top + bottom].
    The amounts and the sizes they give are integers of 64 bits. *)
Definition pad (input : Tensor) (padding : Z * Z * Z * Z) : result Tensor :=
  let '(pad_left, pad_right, pad_top, pad_bottom) := padding in
  match rev input with
  | w :: h :: outer =>
      let w' := w + pad_left + pad_right in
      let h' := h + pad_top + pad_bottom in
      if negb (int64 pad_left && int64 pad_right && int64 pad_top && int64 pad_bottom
               && int64 w' && int64 h')
      then Raise (RuntimeError "Overflow when unpacking long")
      else if (w' <? 0) || (h' <? 0)
      then Raise (RuntimeError "The input size, plus negative padding, resulted in a negative output size")
      else Return (rev outer ++ [h'; w'])
  | _ => Raise (RuntimeError "Padding length should be less than or equal to two times the input dimension")
  end.

(** [t[:, :, a:b, c:d]]: four indices need four dimensions. *)
Definition crop (t : Tensor) (rows cols : Z * Z) : result Tensor :=
  match t with
  | n :: c :: h :: w :: rest =>
      Return (n :: c :: slice_length h (fst rows) (snd rows)
                :: slice_length w (fst cols) (snd cols) :: rest)
  | _ => Raise (IndexError "too many indices for tensor")
  end.

(** [torch.sigmoid(t)], [t.float()], [t / 255] and [t.to(device)] keep the shape. *)
Definition sigmoid (t : Tensor) : Tensor := t.
Definition float (t : Tensor) : Tensor := t.
Definition div_scalar (t : Tensor) (d : Z) : Tensor := t.

(** [torch.cat((a, b), dim=1)]: every size but the second must agree. *)
Definition cat1 (a b : Tensor) : result Tensor :=
  match a, b with
  | n :: ca :: rest_a, m :: cb :: rest_b =>
      if (n =? m) && bool_decide (rest_a = rest_b)
      then Return (n :: ca + cb :: rest_a)
      else Raise (RuntimeError "Sizes of tensors must match except in dimension 1")
  | _, _ => Raise (IndexError "Dimension out of range")
  end.

(** The layers of [torch.nn] that the network is assembled from. *)
Inductive layer : Type :=
| Conv2d (in_channels out_channels kernel_size padding : Z)
| BatchNorm2d (num_features : Z)
| ReLU
| MaxPool2d (kernel_size stride : Z)
| ConvTranspose2d (in_channels out_channels kernel_size stride : Z).

(** The output size of a convolution or pooling window along one axis. *)
Definition window_out (size kernel stride padding : Z) : Z :=
  (size + 2 * padding - kernel) / stride + 1.

(** Calling a layer on a batched input [(N, C, H, W)]: the only inputs
    [UNet.forward] lets through, since it reads [input.shape[3]] first and
    [Conv2d] refuses more than four dimensions.  [training] is the mode of
    the module ([Module.training]): in training mode batch normalisation
    estimates a variance per channel, and refuses an input that holds a
    single value per channel. *)
Definition apply_layer (training : bool) (l : layer) (input : Tensor) : result Tensor :=
  match input with
  | [n; c; h; w] =>
      match l with
      | Conv2d cin cout k p =>
          if negb (c =? cin)
          then Raise (RuntimeError "Given weight expects a different number of input channels")
          else if (h + 2 * p <? k) || (w + 2 * p <? k)
          then Raise (RuntimeError "Kernel size can't be greater than actual input size")
          else Return [n; cout; window_out h k 1 p; window_out w k 1 p]
      | BatchNorm2d features =>
          if training && (n * h * w =? 1)
          then Raise (ValueError "Expected more than 1 value per channel when training")
          else if negb (c =? features)
          then Raise (RuntimeError "running_mean should contain as many elements as channels")
          else Return input
      | ReLU => Return input
      | MaxPool2d k s =>
          if (h <? k) || (w <? k)
          then Raise (RuntimeError "Output size is too small")
          else Return [n; c; window_out h k s 0; window_out w k s 0]
      | ConvTranspose2d cin cout k s =>
          if negb (c =? cin)
          then Raise (RuntimeError "Given transposed weight expects a different number of input channels")
          else if (h <=? 0) || (w <=? 0)
          then Raise (RuntimeError "Output size is too small")
          else Return [n; cout; (h - 1) * s + k; (w - 1) * s + k]
      end
  | _ => Raise (RuntimeError "Expected a batched 4D input")
  end.

(** The parameters and buffers a layer registers, by shape, in the order of
    its [state_dict]. *)
Definition layer_state (l : layer) : list Tensor :=
  match l with
  | Conv2d cin cout k _ => [[cout; cin; k; k]; [cout]]
  | BatchNorm2d c => [[c]; [c]; [c]; [c]; []]
  | ReLU => []
  | MaxPool2d _ _ => []
  | ConvTranspose2d cin cout k _ => [[cin; cout; k; k]; [cout]]
  end.

(** The learnable parameters among them ([Module.parameters()]). *)
Definition layer_parameters (l : layer) : list Tensor :=
  match l with
  | BatchNorm2d c => [[c]; [c]]
  | _ => layer_state l
  end.

(** An [nn.Sequential] of layers, and a single layer used as a module. *)
Inductive module : Type :=
| Single (l : layer)
| Sequential (block : list layer).

Definition module_layers (m : module) : list layer :=
  match m with
  | Single l => [l]
  | Sequential block => block
  end.

End Torch.

Import Torch.

(* ===================================================================== *)
(** * src/python/utilities.py                                             *)
(* ===================================================================== *)

Module Utilities.

(** What the three availability probes of the installed torch answer. *)
Record torch_backends : Type := {
  cpu_is_available : bool;
  xpu_is_available : bool;
  cuda_is_available : bool
}.

(** [check_device(device)] *)
Definition check_device (torch : torch_backends) (device : string) : bool :=
  if String.eqb device "cpu" && cpu_is_available torch then true
  else if String.eqb device "xpu" && xpu_is_available torch then true
  else if (String.eqb device "cuda" || String.eqb device "rocm") && cuda_is_available torch then true
  else false.

(** The part of the operating system [Dataset] reads: the names in the
    current working directory ([os.listdir()] is called without an argument)
    and which paths are regular files. *)
Record filesystem : Type := {
  listdir_cwd : list string;
  isfile : string -> bool
}.

(** [os.path.join(a, b)] on POSIX paths. *)
Definition os_path_join (a b : string) : string :=
  match b with
  | String "/" _ => b
  | _ =>
      match a with
      | EmptyString => b
      | _ => if String.eqb (substring (String.length a - 1) 1 a) "/"
             then a ++ b else a ++ "/" ++ b
      end
  end%string.

(** [class Entry] *)
Record Entry : Type := {
  image_path : option string;
  mask_path : option string
}.

(** Attribute lookup on an [Entry]: [__init__] sets two attributes and the
    class defines no method besides it. *)
Definition Entry_getattr (entry : Entry) (name : string) : result (option string) :=
  if String.eqb name "image_path" then Return (image_path entry)
  else if String.eqb name "mask_path" then Return (mask_path entry)
  else Raise (AttributeError ("'Entry' object has no attribute '" ++ name ++ "'")%string).

(** A [dict] keyed by strings, in insertion order. *)
Definition dict (V : Type) : Type := list (string * V).

Fixpoint dict_get {V : Type} (d : dict V) (key : string) : option V :=
  match d with
  | [] => None
  | (k, v) :: d' => if String.eqb k key then Some v else dict_get d' key
  end.

Definition dict_contains {V : Type} (d : dict V) (key : string) : bool :=
  match dict_get d key with Some _ => true | None => false end.

(** [d[key] = v]: a present key keeps its place, a new one goes last. *)
Fixpoint dict_set {V : Type} (d : dict V) (key : string) (v : V) : dict V :=
  match d with
  | [] => [(key, v)]
  | (k, v') :: d' =>
      if String.eqb k key then (k, v) :: d' else (k, v') :: dict_set d' key v
  end.

(** [d[key].attribute = ...] on the object stored under a present key. *)
Fixpoint dict_update {V : Type} (d : dict V) (key : string) (f : V -> V) : dict V :=
  match d with
  | [] => []
  | (k, v) :: d' =>
      if String.eqb k key then (k, f v) :: d' else (k, v) :: dict_update d' key f
  end.

(** [class Dataset] *)
Record Dataset : Type := {
  directory : string;
  sort : string;
  entry_map : dict Entry;
  entry_list : list string
}.

(** The body of the first loop of [Dataset.__init__], for one [filename]. *)
Definition scan_file (fs : filesystem) (directory filename : string)
    (entry_map : dict Entry) : result (dict Entry) :=
  let path := os_path_join directory filename in
  if isfile fs path then
    let parts := split "-" filename in
    first <- match filename with
             | EmptyString => Raise (IndexError "string index out of range")
             | String c _ => Return c
             end;;
    if Ascii.eqb first "." || negb (len parts =? 5) then
      let id := join "-" (slice parts 0 4) in
      role <- index parts 4;;
      if String.eqb role "image" then
        if dict_contains entry_map id
        then Return (dict_update entry_map id
                       (fun e => {| image_path := Some path; mask_path := mask_path e |}))
        else Return (dict_set entry_map id {| image_path := Some path; mask_path := None |})
      else if String.eqb role "mask" then
        if dict_contains entry_map id
        then Return (dict_update entry_map id
                       (fun e => {| image_path := image_path e; mask_path := Some path |}))
        else Return (dict_set entry_map id {| image_path := None; mask_path := Some path |})
      else Return entry_map
    else Return entry_map
  else Return entry_map.

Fixpoint scan_files (fs : filesystem) (directory : string) (filenames : list string)
    (entry_map : dict Entry) : result (dict Entry) :=
  match filenames with
  | [] => Return entry_map
  | filename :: rest =>
      entry_map' <- scan_file fs directory filename entry_map;;
      scan_files fs directory rest entry_map'
  end.

Definition incomplete (entry : Entry) : bool :=
  match image_path entry, mask_path entry with
  | Some _, Some _ => false
  | _, _ => true
  end.

(** The second loop walks [self.entry_map.items()] and deletes from the very
    dictionary it walks.  The view's iterator compares the dictionary's size
    with the one it started from each time it is advanced, so the step that
    follows a deletion raises, also when the deleted item was the last. *)
Fixpoint collect_entries (items : dict Entry) (entry_list : list string)
    : result (list string) :=
  match items with
  | [] => Return entry_list
  | (id, entry) :: rest =>
      if incomplete entry
      then Raise (RuntimeError "dictionary changed size during iteration")
      else collect_entries rest (entry_list ++ [id])
  end.

(** The three orders.  The keys of ["date"] and ["size"] call [.stat()] on
    [image_path], which is a [str]; the key function runs once per item. *)
Definition sort_entries (sort : string) (entry_list : list string) : result (list string) :=
  if String.eqb sort "name" then Return (sorted entry_list)
  else if String.eqb sort "date" || String.eqb sort "size" then
    match entry_list with
    | [] => Return []
    | _ :: _ => Raise (AttributeError "'str' object has no attribute 'stat'")
    end
  else Return entry_list.

(** [Dataset.__init__(directory, sort)] *)
Definition Dataset_init (fs : filesystem) (directory sort : string) : result Dataset :=
  entry_map <- scan_files fs directory (listdir_cwd fs) [];;
  entry_list <- collect_entries entry_map [];;
  entry_list' <- sort_entries sort entry_list;;
  Return {| directory := directory; sort := sort;
            entry_map := entry_map; entry_list := entry_list' |}.

(** [Dataset.size], [Dataset.list], [Dataset.get] *)
Definition Dataset_size (self : Dataset) : Z := len (entry_list self).

Definition Dataset_list (self : Dataset) : list string := entry_list self.

Definition Dataset_get (self : Dataset) (name : string) : result Entry :=
  match dict_get (entry_map self) name with
  | Some entry => Return entry
  | None => Raise (KeyError name)
  end.

(** Lines 85 to 93 of [fit_tensor]: the size [(new_width, new_height)] the
    content is scaled to, for a tensor of three dimensions.  The two aspect
    ratios are quotients of [int]s; [width] and [height] are converted to
    [float] where they meet [tensor_aspect]. *)
Definition placed_size (tensor : Tensor) (width height : Z) : result (Z * Z) :=
  container_aspect <- int_truediv width height;;
  shape2 <- index tensor 2;;
  shape1 <- index tensor 1;;
  tensor_aspect <- int_truediv shape2 shape1;;
  if negb (Qle_bool tensor_aspect container_aspect) then
    scaled <- float_truediv (float_of_int width) tensor_aspect;;
    Return (width, round scaled)
  else
    Return (round (float_mul (float_of_int height) tensor_aspect), height).

(** [fit_tensor(tensor, width, height)] *)
Definition fit_tensor (tensor : Tensor) (width height : Z)
    : result (Tensor * (Z * Z * Z * Z)) :=
  if negb (len tensor =? 3) then Raise (ValueError "Unsupported tensor shape")
  else
    size <- placed_size tensor width height;;
    let '(new_width, new_height) := size in
    let offset_x := (width - new_width) / 2 in
    let offset_y := (height - new_height) / 2 in
    batched <- interpolate (unsqueeze0 tensor) (new_height, new_width);;
    let resized_tensor := squeeze0 batched in
    let pad_width := width - new_width in
    let pad_height := height - new_height in
    let pad_left := pad_width / 2 in
    let pad_right := pad_width - pad_left in
    let pad_top := pad_height / 2 in
    let pad_bottom := pad_height - pad_top in
    padded <- pad resized_tensor (pad_left, pad_right, pad_top, pad_bottom);;
    Return (padded, (offset_x, offset_y, new_width, new_height)).

End Utilities.

Import Utilities.

(* ===================================================================== *)
(** * src/python/marker/unet.py                                           *)
(* ===================================================================== *)

Module Unet.

(** [class DoubleConvolutionalBlock]: its [forward] calls [self.block]. *)
Definition DoubleConvolutionalBlock (in_channels out_channels : Z) : module :=
  Sequential [
    Conv2d in_channels out_channels 3 1;
    BatchNorm2d out_channels;
    ReLU;
    Conv2d out_channels out_channels 3 1;
    BatchNorm2d out_channels;
    ReLU
  ].

(** [class UNet]: the modules it registers, and the mode it is in
    ([self.training], which [nn.Module.__init__] sets to [True]). *)
Record UNet : Type := {
  downs : list module;
  ups : list module;
  pool : module;
  bottleneck : module;
  final_convolution : module;
  training : bool
}.

(** [self.train(mode)]; [self.eval()] is [self.train(False)]. *)
Definition UNet_train (self : UNet) (mode : bool) : UNet :=
  {| downs := downs self;
     ups := ups self;
     pool := pool self;
     bottleneck := bottleneck self;
     final_convolution := final_convolution self;
     training := mode |}.

(** [for _ in range(depth): features.append(...)], [n] rounds of it. *)
Fixpoint append_features (n : nat) (features : list Z) : result (list Z) :=
  match n with
  | O => Return features
  | S n' =>
      feature <- (if len features =? 0 then Return 64
                  else last <- index features (-1);; Return (last * 2));;
      append_features n' (features ++ [feature])
  end.

(** [for feature in features: self.downs.append(...); in_channels = feature] *)
Fixpoint append_downs (features : list Z) (in_channels : Z) (downs : list module)
    : list module :=
  match features with
  | [] => downs
  | feature :: rest =>
      append_downs rest feature (downs ++ [DoubleConvolutionalBlock in_channels feature])
  end.

(** [for feature in reversed(features): self.ups.append(...); self.ups.append(...)] *)
Fixpoint append_ups (reversed_features : list Z) (ups : list module) : list module :=
  match reversed_features with
  | [] => ups
  | feature :: rest =>
      append_ups rest
        ((ups ++ [Single (ConvTranspose2d (feature * 2) feature 2 2)])
              ++ [DoubleConvolutionalBlock (feature * 2) feature])
  end.

(** [UNet.__init__(in_channels, out_channels, depth)] *)
Definition UNet_init (in_channels out_channels depth : Z) : result UNet :=
  features <- append_features (Z.to_nat depth) [];;
  let downs := append_downs features in_channels [] in
  last <- index features (-1);;
  let bottleneck := DoubleConvolutionalBlock last (last * 2) in
  let ups := append_ups (rev features) [] in
  first <- index features 0;;
  Return {| downs := downs;
            ups := ups;
            pool := Single (MaxPool2d 2 2);
            bottleneck := bottleneck;
            final_convolution := Single (Conv2d first out_channels 1 0);
            training := true |}.

(** A forward pass is followed together with the list of the layers it has
    called so far, so that "no layer was reached" can be stated. *)
Definition traced (A : Type) : Type := list layer -> list layer * result A.

Definition ret {A : Type} (a : A) : traced A := fun log => (log, Return a).

Definition raise {A : Type} (e : exn) : traced A := fun log => (log, Raise e).

Definition lift {A : Type} (r : result A) : traced A := fun log => (log, r).

Definition then_ {A B : Type} (m : traced A) (k : A -> traced B) : traced B :=
  fun log =>
    match m log with
    | (log', Return a) => k a log'
    | (log', Raise e) => (log', Raise e)
    end.

(** [m] returns [a], whatever was logged before it. *)
Definition yields {A : Type} (m : traced A) (a : A) : Prop :=
  forall log, exists log', m log = (log', Return a).

Declare Scope traced_scope.
Delimit Scope traced_scope with traced.
Notation "x <~ m ;; k" := (then_ m (fun x => k))
  (at level 63, m at next level, right associativity) : traced_scope.
Local Open Scope traced_scope.

(** Calling the layers of a module in turn, in the mode of the network; a
    layer is logged when called. *)
Fixpoint call_layers (training : bool) (layers : list layer) (input : Tensor)
    : traced Tensor :=
  match layers with
  | [] => ret input
  | l :: rest =>
      output <~ (fun log => (log ++ [l], apply_layer training l input));;
      call_layers training rest output
  end.

Definition call (training : bool) (m : module) (input : Tensor) : traced Tensor :=
  call_layers training (module_layers m) input.

(** The message of the [ValueError] of [forward]. *)
Definition str (n : Z) : string := DecimalString.NilZero.string_of_int (Z.to_int n).

Definition invalid_input_size (shape3 shape2 factor : Z) : string :=
  ("Invalid input size: " ++ str shape3 ++ " x " ++ str shape2
     ++ " (not divisible by " ++ str factor ++ ")")%string.

(** [for down in self.downs: ...] *)
Fixpoint forward_downs (training : bool) (pool : module) (downs : list module)
    (input : Tensor) (skip_connections : list Tensor) : traced (Tensor * list Tensor) :=
  match downs with
  | [] => ret (input, skip_connections)
  | down :: rest =>
      input1 <~ call training down input;;
      let skip_connections' := skip_connections ++ [input1] in
      input2 <~ call training pool input1;;
      forward_downs training pool rest input2 skip_connections'
  end.

(** [for index in range(0, len(self.ups), 2): ...] *)
Fixpoint forward_ups (training : bool) (ups : list module)
    (skip_connections : list Tensor) (indices : list Z) (input : Tensor) : traced Tensor :=
  match indices with
  | [] => ret input
  | idx :: rest =>
      up <~ lift (index ups idx);;
      input1 <~ call training up input;;
      skip_connection <~ lift (index skip_connections (idx / 2));;
      concat_skip <~ lift (cat1 skip_connection input1);;
      conv <~ lift (index ups (idx + 1));;
      input2 <~ call training conv concat_skip;;
      forward_ups training ups skip_connections rest input2
  end.

(** [UNet.forward(input)] *)
Definition forward (self : UNet) (input : Tensor) : traced Tensor :=
  let factor := 2 ^ len (downs self) in
  shape3 <~ lift (index input 3);;
  indivisible <~ (if negb (shape3 mod factor =? 0) then ret true
                  else shape2 <~ lift (index input 2);;
                       ret (negb (shape2 mod factor =? 0)));;
  if (indivisible : bool) then
    shape3' <~ lift (index input 3);;
    shape2' <~ lift (index input 2);;
    raise (ValueError (invalid_input_size shape3' shape2' factor))
  else
    down <~ forward_downs (training self) (pool self) (downs self) input [];;
    let '(input1, skip_connections) := down in
    input2 <~ call (training self) (bottleneck self) input1;;
    let skip_connections' := rev skip_connections in
    input3 <~ forward_ups (training self) (ups self) skip_connections'
                (range 0 (len (ups self)) 2) input2;;
    call (training self) (final_convolution self) input3.

End Unet.

Import Unet.

(* ===================================================================== *)
(** * src/python/marker/model.py                                          *)
(* ===================================================================== *)

Module Model.

(** What torch computes and the lifecycle code only passes along: the values
    of a network's parameters and buffers, the moments Adam keeps, the pixels
    of a batch and the Python floats of the loss. *)
Class Runtime : Type := {
  Weights : Type;
  Moments : Type;
  Pixels : Type;
  Float : Type;
  (** the literal [1.0] *)
  float_one : Float;
  (** [sum(average)] and [total / count] for a count that is not zero *)
  py_sum : list Float -> Float;
  py_truediv : Float -> Z -> Float;
  (** whether [torch.device(device)] accepts the string, and whether modules
      and tensors can be moved to the device it names *)
  device_valid : string -> bool;
  device_available : string -> bool;
  (** the values a new network is initialised with, and a new Adam *)
  initial_weights : UNet -> Weights;
  initial_moments : Moments;
  (** the buffers after a forward pass in training mode has called the
      layers of a log *)
  track_statistics : Weights -> Pixels -> list layer -> Weights;
  (** [loss.backward(); optimizer.step(); loss.item()] *)
  backward_step : Weights -> Moments -> Pixels -> Weights * Moments * Float
}.

Section Lifecycle.

Context `{runtime : Runtime}.

(** The modules of a network in the order they are registered, which is the
    order of [state_dict()] and of [parameters()]. *)
Definition network_layers (net : UNet) : list layer :=
  flat_map module_layers
    (downs net ++ ups net ++ [pool net] ++ [bottleneck net] ++ [final_convolution net]).

(** [Module.state_dict()]: the shape of every entry, and the values. *)
Record state_dict : Type := {
  entries : list Tensor;
  values : Weights
}.

(** [Optimizer.state_dict()]: the size of the parameter group, and the state. *)
Record optimizer_state_dict : Type := {
  group_size : Z;
  state : Moments
}.

(** [class Marker] *)
Record Marker : Type := {
  device : string;
  model : UNet;
  weights : Weights;         (* the values held by self.model *)
  width : Z;
  height : Z;
  depth : Z;
  loss : Float;
  iterations : Z;
  optimizer : Moments        (* the state held by self.optimizer *)
}.

(** [self.model.train()] and [self.model.eval()] *)
Definition set_training (self : Marker) (mode : bool) : Marker :=
  {| device := device self; model := UNet_train (model self) mode;
     weights := weights self; width := width self; height := height self;
     depth := depth self; loss := loss self; iterations := iterations self;
     optimizer := optimizer self |}.

Definition set_weights (self : Marker) (w : Weights) : Marker :=
  {| device := device self; model := model self; weights := w;
     width := width self; height := height self;
     depth := depth self; loss := loss self; iterations := iterations self;
     optimizer := optimizer self |}.

Definition set_optimizer (self : Marker) (o : Moments) : Marker :=
  {| device := device self; model := model self; weights := weights self;
     width := width self; height := height self;
     depth := depth self; loss := loss self; iterations := iterations self;
     optimizer := o |}.

Definition set_loss (self : Marker) (l : Float) : Marker :=
  {| device := device self; model := model self; weights := weights self;
     width := width self; height := height self;
     depth := depth self; loss := l; iterations := iterations self;
     optimizer := optimizer self |}.

Definition set_iterations (self : Marker) (n : Z) : Marker :=
  {| device := device self; model := model self; weights := weights self;
     width := width self; height := height self;
     depth := depth self; loss := loss self; iterations := n;
     optimizer := optimizer self |}.

(** [self.model.state_dict()] and [self.optimizer.state_dict()] *)
Definition model_state_dict (self : Marker) : state_dict :=
  {| entries := flat_map layer_state (network_layers (model self));
     values := weights self |}.

Definition optimizer_state (self : Marker) : optimizer_state_dict :=
  {| group_size := len (flat_map layer_parameters (network_layers (model self)));
     state := optimizer self |}.

(** [self.model.load_state_dict(sd)]: the entries must be those of the
    network, then the values are taken over. *)
Definition model_load_state_dict (self : Marker) (sd : state_dict) : result Marker :=
  if bool_decide (entries sd = flat_map layer_state (network_layers (model self)))
  then Return (set_weights self (values sd))
  else Raise (RuntimeError "Error(s) in loading state_dict for UNet").

(** [self.optimizer.load_state_dict(sd)]: the group must have the size of
    the optimizer's own. *)
Definition optimizer_load_state_dict (self : Marker) (sd : optimizer_state_dict)
    : result Marker :=
  if group_size sd =? len (flat_map layer_parameters (network_layers (model self)))
  then Return (set_optimizer self (state sd))
  else Raise (ValueError "loaded state dict contains a parameter group that doesn't match the size of optimizer's group").

(** [Marker.__init__(device, width, height, depth)] *)
Definition Marker_init (device : string) (width height depth : Z) : result Marker :=
  if device_valid device then
    net <- UNet_init 3 1 depth;;
    if device_available device then
      Return {| device := device; model := net; weights := initial_weights net;
                width := width; height := height; depth := depth;
                loss := float_one; iterations := 0;
                optimizer := initial_moments |}
    else Raise (RuntimeError "The device is not available")
  else Raise (RuntimeError "Expected one of the device types at start of device string").

(** What [torch.save] writes for a marker: the dictionary built by [save]. *)
Record Snapshot : Type := {
  saved_width : Z;
  saved_height : Z;
  saved_depth : Z;
  saved_loss : Float;
  saved_iterations : Z;
  saved_model_state : state_dict;
  saved_optimizer_state : optimizer_state_dict
}.

(** The files [torch.save] writes and [torch.load] reads.  [locate] is what
    the operating system makes of a path: the file it names, the same one
    for two spellings of one file, or the error of opening it (an empty
    path, a directory that does not exist).  [stored] is what the files
    hold. *)
Record Files : Type := {
  locate : string -> result string;
  stored : gmap string Snapshot
}.

(** [files !! path]: what a reader finds at a path. *)
#[global] Instance Files_lookup : Lookup string Snapshot Files :=
  fun path files =>
    match locate files path with
    | Return file => stored files !! file
    | Raise _ => None
    end.

(** [Marker.save(path)]: the files after the call, and the outcome.
    [torch.save] raises when the path cannot be opened for writing, and
    nothing is written then. *)
Definition Marker_save (self : Marker) (files : Files) (path : string)
    : Files * result unit :=
  match locate files path with
  | Raise e => (files, Raise e)
  | Return file =>
      ({| locate := locate files;
          stored := <[ file := {| saved_width := width self;
                                  saved_height := height self;
                                  saved_depth := depth self;
                                  saved_loss := loss self;
                                  saved_iterations := iterations self;
                                  saved_model_state := model_state_dict self;
                                  saved_optimizer_state := optimizer_state self |} ]>
                      (stored files) |},
       Return tt)
  end.

(** [Marker.load(device, path)] *)
Definition Marker_load (files : Files) (device path : string) : result Marker :=
  match files !! path with
  | None => Raise (FileNotFoundError path)
  | Some data =>
      if negb (device_valid device && device_available device)
      then Raise (RuntimeError "Attempting to deserialize object on a device that is not available")
      else
      marker <- Marker_init device (saved_width data) (saved_height data) (saved_depth data);;
      marker <- model_load_state_dict marker (saved_model_state data);;
      marker <- optimizer_load_state_dict marker (saved_optimizer_state data);;
      let marker := set_loss marker (saved_loss data) in
      let marker := set_iterations marker (saved_iterations data) in
      Return marker
  end.

(** [Marker.mark(image)]: the marker after the call, and the outcome.
    [self.device] is the device [__init__] has moved the network to, so
    moving the fitted tensor there keeps its shape. *)
Definition Marker_mark (self : Marker) (image : Tensor) : Marker * result Tensor :=
  let self := set_training self false in
  (self,
   fitted <- fit_tensor image (width self) (height self);;
   let '(resized_tensor, transform) := fitted in
   let '(offset_x, offset_y, new_width, new_height) := transform in
   output <- snd (forward (model self) resized_tensor []);;
   output <- crop output (offset_y, offset_y + new_height) (offset_x, offset_x + new_width);;
   shape2 <- index image 2;;
   shape3 <- index image 3;;
   output <- interpolate output (shape2, shape3);;
   Return (sigmoid output)).

(** One [(images, masks)] pair of the loader. *)
Record Batch : Type := {
  images : Tensor;
  masks : Tensor;
  pixels : Pixels
}.

(** The body of the loop of [train], for one batch: the marker after it and
    [loss.item()].  The forward pass, in training mode, updates the buffers
    of the normalisation layers it calls, whether it returns or raises; then
    the criterion compares the shapes. *)
Definition train_on_batch (self : Marker) (batch : Batch) : Marker * result Float :=
  let '(log, outcome) := forward (model self) (images batch) [] in
  let tracked := track_statistics (weights self) (pixels batch) log in
  match outcome with
  | Raise e => (set_weights self tracked, Raise e)
  | Return predictions =>
      if bool_decide (masks batch = predictions) then
        let '(weights', moments', loss) :=
          backward_step tracked (optimizer self) (pixels batch) in
        (set_optimizer (set_weights self weights') moments', Return loss)
      else
        (set_weights self tracked,
         Raise (ValueError "Target size must be the same as input size"))
  end.

(** [for images, masks in loader: ...; average.append(loss.item())] *)
Fixpoint train_loop (self : Marker) (loader : list Batch) (average : list Float)
    : Marker * result (list Float) :=
  match loader with
  | [] => (self, Return average)
  | batch :: rest =>
      match train_on_batch self batch with
      | (self', Return loss) => train_loop self' rest (average ++ [loss])
      | (self', Raise e) => (self', Raise e)
      end
  end.

(** The dictionary returned by [train]. *)
Record Telemetry : Type := {
  telemetry_loss : Float;
  telemetry_iterations : Z;
  telemetry_duration : Z
}.

(** [Marker.train(loader)]; [start] and [stop] are what the two calls of
    [time()] return. *)
Definition Marker_train (self : Marker) (start stop : Q) (loader : list Batch)
    : Marker * result Telemetry :=
  let self := set_training self true in
  match train_loop self loader [] with
  | (self, Raise e) => (self, Raise e)
  | (self, Return average) =>
      if len average =? 0 then (self, Raise (ZeroDivisionError "division by zero"))
      else
        let self := set_loss self (py_truediv (py_sum average) (len average)) in
        let self := set_iterations self (iterations self + 1) in
        (self, Return {| telemetry_loss := loss self;
                         telemetry_iterations := iterations self;
                         telemetry_duration := round (stop - start)%Q |})
  end.

(** The per-batch losses of an epoch in which every batch goes through,
    defined on their own: each batch is trained on the marker left by the
    batches before it. *)
Fixpoint batch_losses (self : Marker) (loader : list Batch) : option (list Float) :=
  match loader with
  | [] => Some []
  | batch :: rest =>
      match train_on_batch self batch with
      | (self', Return loss) =>
          match batch_losses self' rest with
          | Some losses => Some (loss :: losses)
          | None => None
          end
      | (_, Raise _) => None
      end
  end.

(** The state [Ready] of a marker: built by [__init__] on its device and
    for its own [depth], whatever mode its network is in and whatever has
    happened to its values since. *)
Definition Ready (self : Marker) : Prop :=
  device_valid (device self) = true
  /\ device_available (device self) = true
  /\ UNet_init 3 1 (depth self) = Return (UNet_train (model self) true).

End Lifecycle.

End Model.

Import Model.

(* ===================================================================== *)
(** * src/python/marker/loader.py                                         *)
(* ===================================================================== *)

Module Loader.

(** [class MarkerLoader] *)
Record MarkerLoader : Type := {
  loader_entries : list Entry;
  loader_width : Z;
  loader_height : Z
}.

(** [entry.exists()]: the attribute is looked up, then called.  What
    [Entry_getattr] can return is a [str] or [None]. *)
Definition Entry_exists (entry : Entry) : result bool :=
  attribute <- Entry_getattr entry "exists";;
  Raise (TypeError "object is not callable").

(** [for name in dataset.list(): ...] *)
Fixpoint append_entries (dataset : Dataset) (names : list string) (entries : list Entry)
    : result (list Entry) :=
  match names with
  | [] => Return entries
  | name :: rest =>
      entry <- Dataset_get dataset name;;
      exists_ <- Entry_exists entry;;
      append_entries dataset rest (if (exists_ : bool) then entries ++ [entry] else entries)
  end.

(** [MarkerLoader.__init__(dataset, width, height)] *)
Definition MarkerLoader_init (dataset : Dataset) (width height : Z) : result MarkerLoader :=
  entries <- append_entries dataset (Dataset_list dataset) [];;
  Return {| loader_entries := entries; loader_width := width; loader_height := height |}.

(** [MarkerLoader.__len__()] *)
Definition MarkerLoader_len (self : MarkerLoader) : Z := len (loader_entries self).

(** [str(path)] for a path that may be [None]. *)
Definition str_path (path : option string) : string :=
  match path with
  | Some p => p
  | None => "None"
  end.

(** [torchvision.io.decode_image(path, mode)]: [pictures] gives the height
    and the width of the picture stored at a path; the mode fixes the number
    of channels ([RGB]: 3, [GRAY]: 1). *)
Definition decode_image (pictures : string -> result (Z * Z)) (path : string)
    (channels : Z) : result Tensor :=
  size <- pictures path;;
  Return [channels; fst size; snd size].

(** [MarkerLoader.__getitem__(index)] *)
Definition MarkerLoader_getitem (pictures : string -> result (Z * Z))
    (self : MarkerLoader) (idx : Z) : result (Tensor * Tensor) :=
  entry <- index (loader_entries self) idx;;
  image <- decode_image pictures (str_path (image_path entry)) 3;;
  fitted_image <- fit_tensor image (loader_width self) (loader_height self);;
  let image_tensor := div_scalar (float (fst fitted_image)) 255 in
  mask <- decode_image pictures (str_path (mask_path entry)) 1;;
  fitted_mask <- fit_tensor mask (loader_width self) (loader_height self);;
  let mask_tensor := div_scalar (float (fst fitted_mask)) 255 in
  Return (image_tensor, mask_tensor).

End Loader.

Import Loader.

(* ===================================================================== *)
(** * src/python/main.py                                                  *)
(* ===================================================================== *)

Module Main.

Section Host.

Context `{runtime : Runtime}.

(** The global [marker]: [None] until a marker is initialised or loaded. *)
Definition Host : Type := option Marker.

(** [init_marker(device, width, height, depth)] *)
Definition init_marker (marker : Host) (device : string) (width height depth : Z)
    : Host * result unit :=
  match Marker_init device width height depth with
  | Return m => (Some m, Return tt)
  | Raise e => (marker, Raise e)
  end.

(** [load_marker(device, path)] *)
Definition load_marker (marker : Host) (files : Files) (device path : string)
    : Host * result unit :=
  match Marker_load files device path with
  | Return m => (Some m, Return tt)
  | Raise e => (marker, Raise e)
  end.

(** [save_marker(path)] *)
Definition save_marker (marker : Host) (files : Files) (path : string)
    : Files * result unit :=
  match marker with
  | None => (files, Raise (Exception "No marker model loaded."))
  | Some m => Marker_save m files path
  end.

End Host.

End Main.

(* ===================================================================== *)
(** * Inputs the properties below are evaluated on                        *)
(* ===================================================================== *)

Module Examples.

(** A working directory that holds one pair named after the documented
    layout, and nothing else. *)
Definition paired_files : filesystem :=
  {| listdir_cwd := ["a-b-c-d-image.png"; "a-b-c-d-mask.png"];
     isfile := fun _ => true |}.

(** A working directory whose two names have six segments. *)
Definition six_segment_files : filesystem :=
  {| listdir_cwd := ["a-b-c-d-image-x"; "a-b-c-d-mask-x"];
     isfile := fun _ => true |}.

(** The dataset [Dataset_init] builds from [six_segment_files]. *)
Definition six_segment_dataset : Dataset :=
  {| directory := ".";
     sort := "name";
     entry_map := [("a-b-c-d", {| image_path := Some "./a-b-c-d-image-x";
                                  mask_path := Some "./a-b-c-d-mask-x" |})];
     entry_list := ["a-b-c-d"] |}.

(** A runtime to evaluate the lifecycle on: loss values are rationals, the
    weights and the moments count the optimisation steps taken, the loss of
    a batch is the number it carries; "cpu" and "cuda" are device names, and "cpu"
    is the one that is available. *)
Definition counting_runtime : Runtime :=
  {| Weights := Z;
     Moments := Z;
     Pixels := Q;
     Float := Q;
     float_one := 1%Q;
     py_sum := fun average => fold_left Qplus average 0%Q;
     py_truediv := fun total count => (total / inject_Z count)%Q;
     device_valid := fun device => String.eqb device "cpu" || String.eqb device "cuda";
     device_available := fun device => String.eqb device "cpu";
     initial_weights := fun _ => 0;
     initial_moments := 0;
     track_statistics := fun weights _ _ => weights;
     backward_step := fun weights moments pixels => (weights + 1, moments + 1, pixels) |}.

(** [Marker("cpu", 64, 64, 1)] on that runtime, after three epochs. *)
Definition trained_marker : @Marker counting_runtime :=
  @Build_Marker counting_runtime
    "cpu"
    {| downs := [DoubleConvolutionalBlock 3 64];
       ups := [Single (ConvTranspose2d 128 64 2 2); DoubleConvolutionalBlock 128 64];
       pool := Single (MaxPool2d 2 2);
       bottleneck := DoubleConvolutionalBlock 64 128;
       final_convolution := Single (Conv2d 64 1 1 0);
       training := true |}
    6 (* weights *)
    64 (* width *)
    64 (* height *)
    1 (* depth *)
    (1 # 4)%Q (* loss *)
    3 (* iterations *)
    6 (* optimizer *).

(** Two batches of four images of 64 by 64 with their masks. *)
Definition two_batches : list (@Batch counting_runtime) :=
  [ @Build_Batch counting_runtime [4; 3; 64; 64] [4; 1; 64; 64] (1 # 2)%Q;
    @Build_Batch counting_runtime [4; 3; 64; 64] [4; 1; 64; 64] (1 # 4)%Q ].

(** A batch whose masks are half the size of its images. *)
Definition mismatched_batch : @Batch counting_runtime :=
  @Build_Batch counting_runtime [4; 3; 64; 64] [4; 1; 32; 32] (1 # 2)%Q.

(** A disk with nothing stored on it: the empty path cannot be opened, and
    a leading ["./"] does not change the file a path names. *)
Definition empty_disk : @Files counting_runtime :=
  {| locate := fun path =>
                 match path with
                 | EmptyString => Raise (FileNotFoundError "")
                 | String "." (String "/" file) => Return file
                 | _ => Return path
                 end;
     stored := ∅ |}.

(** What [trained_marker] saves, relabelled with a depth of two. *)
Definition relabelled_snapshot : @Snapshot counting_runtime :=
  @Build_Snapshot counting_runtime 64 64 2 (1 # 4)%Q 3
    (model_state_dict trained_marker) (optimizer_state trained_marker).

(** The disk that holds it under ["marker.pt"]. *)
Definition relabelled_disk : @Files counting_runtime :=
  {| locate := locate empty_disk;
     stored := {[ "marker.pt" := relabelled_snapshot ]} |}.

(** A loader that holds one entry, for a container of 64 by 64, and a disk
    on which every picture is 100 high and 200 wide. *)
Definition filled_loader : MarkerLoader :=
  {| loader_entries := [{| image_path := Some "a-image.png";
                           mask_path := Some "a-mask.png" |}];
     loader_width := 64;
     loader_height := 64 |}.

Definition wide_pictures (path : string) : result (Z * Z) := Return (100, 200).

End Examples.

(* ===================================================================== *)
(** * The network of a given depth, in closed form                        *)
(* ===================================================================== *)

Module Closed_form.

(** The width of level [i]: 64, doubled [i] times. *)
Definition feature (i : nat) : Z := 64 * 2 ^ Z.of_nat i.

Definition features (depth : nat) : list Z := map feature (seq 0 depth).

(** The [k] encoder blocks from level [i] on, the first one fed with
    [in_channels] channels. *)
Fixpoint downs_from (i k : nat) (in_channels : Z) : list module :=
  match k with
  | O => []
  | S k' => DoubleConvolutionalBlock in_channels (feature i) :: downs_from (S i) k' (feature i)
  end.

(** The decoder modules for the levels [k - 1] down to [0]. *)
Fixpoint ups_of (k : nat) : list module :=
  match k with
  | O => []
  | S k' =>
      Single (ConvTranspose2d (feature k' * 2) (feature k') 2 2)
        :: DoubleConvolutionalBlock (feature k' * 2) (feature k')
        :: ups_of k'
  end.

(** The channels that leave [k] encoder blocks from level [i] on. *)
Definition channels_after (i k : nat) (in_channels : Z) : Z :=
  match k with
  | O => in_channels
  | S k' => feature (i + k')
  end.

(** The outputs the [k] encoder blocks from level [i] on keep for the
    decoder, when the input of the deepest of them is [h * 2] by [w * 2]. *)
Fixpoint skips_from (batch : Z) (i k : nat) (h w : Z) : list Tensor :=
  match k with
  | O => []
  | S k' =>
      [batch; feature i; h * 2 ^ Z.of_nat k; w * 2 ^ Z.of_nat k]
        :: skips_from batch (S i) k' h w
  end.

(** What a normalisation layer accepts of an input of [n] images of [h] by
    [w]: more than one value per channel, unless it has no statistics to
    estimate. *)
Definition normalisable (mode : bool) (n h w : Z) : Prop :=
  mode = false \/ n * h * w <> 1.

(** The network [UNet(in_channels, out_channels, depth)] for [depth >= 1],
    in a given mode. *)
Definition network (in_channels out_channels : Z) (depth : nat) (mode : bool) : UNet :=
  {| downs := downs_from 0 depth in_channels;
     ups := ups_of depth;
     pool := Single (MaxPool2d 2 2);
     bottleneck := DoubleConvolutionalBlock (feature (depth - 1)) (feature (depth - 1) * 2);
     final_convolution := Single (Conv2d 64 out_channels 1 0);
     training := mode |}.

End Closed_form.

(* ===================================================================== *)
(** * Properties of [utilities.py]                                        *)
(* ===================================================================== *)

Section Check_device.

Variable torch : torch_backends.

Lemma check_device_cases (device : string) :
  check_device torch device =
    if String.eqb device "cpu" then cpu_is_available torch
    else if String.eqb device "xpu" then xpu_is_available torch
    else if String.eqb device "cuda" || String.eqb device "rocm" then cuda_is_available torch
    else false.
Proof.
  unfold check_device.
  destruct (String.eqb_spec device "cpu") as [-> | _]; simpl.
  { destruct (cpu_is_available torch); reflexivity. }
  destruct (String.eqb_spec device "xpu") as [-> | _]; simpl.
  { destruct (xpu_is_available torch); reflexivity. }
  destruct (String.eqb device "cuda" || String.eqb device "rocm"); simpl;
    [ destruct (cuda_is_available torch) | ]; reflexivity.
Qed.

(** C10. [check_device] answers [True] exactly for "cpu", "xpu", "cuda" and
    "rocm" when the backend of that name reports to be available, "rocm"
    being answered by the CUDA backend; it answers [False] for every other
    string. *)
Theorem check_device_spec (device : string) :
  (check_device torch device = true <->
     (device = "cpu" /\ cpu_is_available torch = true)
     \/ (device = "xpu" /\ xpu_is_available torch = true)
     \/ ((device = "cuda" \/ device = "rocm") /\ cuda_is_available torch = true))
  /\ check_device torch "rocm" = cuda_is_available torch
  /\ (device <> "cpu" -> device <> "xpu" -> device <> "cuda" -> device <> "rocm" ->
      check_device torch device = false).
Proof.
  rewrite check_device_cases. repeat split.
  - destruct (String.eqb_spec device "cpu") as [-> | Hcpu]; [ tauto | ].
    destruct (String.eqb_spec device "xpu") as [-> | Hxpu]; [ tauto | ].
    destruct (String.eqb_spec device "cuda") as [-> | Hcuda]; simpl; [ tauto | ].
    destruct (String.eqb_spec device "rocm") as [-> | Hrocm]; simpl; [ tauto | ].
    discriminate.
  - intros [[-> H] | [[-> H] | [[-> | ->] H]]]; simpl; exact H.
  - rewrite check_device_cases. reflexivity.
  - intros Hcpu Hxpu Hcuda Hrocm.
    apply String.eqb_neq in Hcpu, Hxpu, Hcuda, Hrocm.
    rewrite Hcpu, Hxpu, Hcuda, Hrocm. reflexivity.
Qed.

End Check_device.

(** ** [Dataset] *)

(** A name of exactly five segments that does not start with a dot fails the
    test of line 33 and is passed over, whatever its last segment is. *)
Lemma scan_file_five_segments (fs : filesystem) (directory : string) (c : ascii)
    (rest : string) (entry_map : dict Entry) :
  c <> "."%char ->
  len (split "-" (String c rest)) = 5 ->
  scan_file fs directory (String c rest) entry_map = Return entry_map.
Proof.
  intros Hdot Hlen. unfold scan_file.
  destruct (isfile fs _); [ | reflexivity ].
  cbn [bind]. rewrite Hlen.
  apply Ascii.eqb_neq in Hdot. rewrite Hdot. reflexivity.
Qed.

(** The second loop either raises or lists every key, in insertion order. *)
Lemma collect_entries_returns (items : dict Entry) (acc entry_list : list string) :
  collect_entries items acc = Return entry_list ->
  entry_list = acc ++ map fst items /\ Forall (fun kv => incomplete (snd kv) = false) items.
Proof.
  revert acc. induction items as [ | [id entry] items IH ]; intros acc H; simpl in H.
  - injection H as <-. rewrite app_nil_r. split; [ reflexivity | constructor ].
  - destruct (incomplete entry) eqn:Hentry; [ discriminate | ].
    apply IH in H as [-> Hall]. rewrite <- app_assoc. split; [ reflexivity | ].
    constructor; [ exact Hentry | exact Hall ].
Qed.

Lemma collect_entries_raises (items : dict Entry) (acc : list string) :
  Exists (fun kv => incomplete (snd kv) = true) items ->
  collect_entries items acc = Raise (RuntimeError "dictionary changed size during iteration").
Proof.
  intros H. revert acc. induction H as [ [id entry] items H | [id entry] items H IH ];
    intros acc; simpl in *.
  - rewrite H. reflexivity.
  - destruct (incomplete entry); [ reflexivity | apply IH ].
Qed.

(** [sorted] returns an ascending list with the same items. *)
Lemma insert_sorted_ascending (x : string) (l : list string) :
  ascending l -> ascending (insert_sorted x l).
Proof.
  unfold ascending. induction 1 as [ | y l Hl IH Hhd ]; simpl.
  - repeat constructor.
  - destruct (String.leb x y) eqn:Hxy.
    + constructor; [ constructor; assumption | constructor; exact Hxy ].
    + constructor; [ exact IH | ].
      assert (Hyx : String.leb y x = true).
      { destruct (String.leb_total x y) as [H | H]; [ congruence | exact H ]. }
      destruct Hhd as [ | z l' Hyz ]; simpl.
      * constructor. exact Hyx.
      * destruct (String.leb x z); constructor; assumption.
Qed.

Lemma sorted_ascending (l : list string) : ascending (sorted l).
Proof.
  induction l as [ | x l IH ]; simpl.
  - constructor.
  - apply insert_sorted_ascending, IH.
Qed.

Lemma insert_sorted_Permutation (x : string) (l : list string) :
  Permutation (x :: l) (insert_sorted x l).
Proof.
  induction l as [ | y l IH ]; simpl; [ reflexivity | ].
  destruct (String.leb x y); [ reflexivity | ].
  rewrite perm_swap. constructor. exact IH.
Qed.

Lemma sorted_Permutation (l : list string) : Permutation l (sorted l).
Proof.
  induction l as [ | x l IH ]; simpl; [ reflexivity | ].
  rewrite <- insert_sorted_Permutation. constructor. exact IH.
Qed.

(** Under the order ["name"] a dataset that is constructed lists its ids in
    ascending order. *)
Lemma Dataset_init_name_ascending (fs : filesystem) (directory : string) (self : Dataset) :
  Dataset_init fs directory "name" = Return self -> ascending (entry_list self).
Proof.
  unfold Dataset_init. intros H.
  destruct (scan_files fs directory (listdir_cwd fs) []) as [ entry_map | ]; [ | discriminate ].
  cbn [bind] in H.
  destruct (collect_entries entry_map []) as [ entry_list | ]; [ | discriminate ].
  cbn in H. injection H as <-. apply sorted_ascending.
Qed.

(** C7. The documented pair [a-b-c-d-image.png], [a-b-c-d-mask.png] is
    evaluated: both names have five segments, so both are passed over and
    the dataset is constructed with no entry at all, where one entry
    ["a-b-c-d"] holding both paths is expected. *)
Theorem Dataset_init_documented_pair :
  Dataset_init Examples.paired_files "." "name"
  = Return {| directory := "."; sort := "name"; entry_map := []; entry_list := [] |}.
Proof. reflexivity. Qed.

(** ** [round] *)

Lemma round_comp (x y : Q) : (x == y)%Q -> round x = round y.
Proof.
  intros Hxy. unfold round.
  assert (Hfloor : Qfloor x = Qfloor y) by (rewrite Hxy; reflexivity).
  rewrite Hfloor.
  assert (Hcompare : (x - inject_Z (Qfloor y) ?= 1 # 2)%Q = (y - inject_Z (Qfloor y) ?= 1 # 2)%Q)
    by (rewrite Hxy; reflexivity).
  rewrite Hcompare. reflexivity.
Qed.

Lemma inject_Z_succ (z : Z) : (inject_Z (z + 1) == inject_Z z + 1)%Q.
Proof. rewrite inject_Z_plus. reflexivity. Qed.

Lemma round_error (x : Q) :
  (x - (1 # 2) <= inject_Z (round x) <= x + (1 # 2))%Q.
Proof.
  unfold round. pose proof (Qfloor_le x) as Hle. pose proof (Qlt_floor x) as Hlt.
  rewrite inject_Z_succ in Hlt.
  destruct (Qcompare_spec (x - inject_Z (Qfloor x)) (1 # 2)) as [Heq | Hless | Hmore].
  - destruct (Z.even (Qfloor x)); rewrite ?inject_Z_succ; split; lra.
  - split; lra.
  - rewrite inject_Z_succ. split; lra.
Qed.

Lemma round_near (x : Q) (n : Z) :
  (inject_Z n - (1 # 2) < x)%Q -> (x < inject_Z n + (1 # 2))%Q -> round x = n.
Proof.
  intros Hlow Hhigh. destruct (round_error x) as [H1 H2].
  assert (Hlt : (inject_Z n - 1 < inject_Z (round x))%Q) by lra.
  assert (Hgt : (inject_Z (round x) < inject_Z n + 1)%Q) by lra.
  rewrite <- inject_Z_succ in Hgt.
  assert (Hlt' : (inject_Z (n - 1) < inject_Z (round x))%Q).
  { unfold Z.sub. rewrite inject_Z_plus. exact Hlt. }
  rewrite <- Zlt_Qlt in Hgt, Hlt'. lia.
Qed.

Lemma round_mono (x y : Q) : (x <= y)%Q -> round x <= round y.
Proof.
  intros Hxy. unfold round.
  pose proof (Qfloor_resp_le _ _ Hxy) as Hfloor.
  pose proof (Qfloor_le x) as Hx1. pose proof (Qlt_floor x) as Hx2.
  pose proof (Qfloor_le y) as Hy1. pose proof (Qlt_floor y) as Hy2.
  rewrite inject_Z_succ in Hx2, Hy2.
  destruct (Z.eq_dec (Qfloor x) (Qfloor y)) as [Heq | Hne].
  - rewrite <- Heq in *.
    destruct (Qcompare_spec (x - inject_Z (Qfloor x)) (1 # 2)) as [Hx | Hx | Hx];
    destruct (Qcompare_spec (y - inject_Z (Qfloor x)) (1 # 2)) as [Hy | Hy | Hy];
      try destruct (Z.even (Qfloor x)); try lia; exfalso; lra.
  - assert (Hstep : Qfloor x + 1 <= Qfloor y) by lia.
    destruct (Qcompare_spec (x - inject_Z (Qfloor x)) (1 # 2)) as [Hx | Hx | Hx];
    destruct (Qcompare_spec (y - inject_Z (Qfloor y)) (1 # 2)) as [Hy | Hy | Hy];
      try destruct (Z.even (Qfloor x)); try destruct (Z.even (Qfloor y)); lia.
Qed.

Lemma round_integer (x : Q) (z : Z) : (x == inject_Z z)%Q -> round x = z.
Proof.
  intros Hx. apply round_near; rewrite Hx; lra.
Qed.

(** ** Powers of two *)

Lemma Qpow2_positive (e : Z) : (0 < 2 ^ e)%Q.
Proof. apply Qpower_0_lt. reflexivity. Qed.

Lemma Qpow2_succ (e : Z) : (2 ^ (e + 1) == 2 * 2 ^ e)%Q.
Proof. rewrite Qpower_plus by discriminate. rewrite Qpower_1_r. ring. Qed.

Lemma Qpow2_le (e e' : Z) : e <= e' -> (2 ^ e <= 2 ^ e')%Q.
Proof. intros H. apply Qpower_le_compat_l; [ exact H | discriminate ]. Qed.

Lemma Qpow2_lt (e e' : Z) : e < e' -> (2 ^ e < 2 ^ e')%Q.
Proof. intros H. apply Qpower_lt_compat_l; [ exact H | reflexivity ]. Qed.

Lemma Qpow2_Z (e : Z) : 0 <= e -> (2 ^ e == inject_Z (2 ^ e))%Q.
Proof. intros H. rewrite (Zpower_Qpower 2 e H). reflexivity. Qed.

(** ** The exponent of a rational *)

Lemma aspect_le (a b c d : Z) :
  0 < b -> 0 < d ->
  (inject_Z a / inject_Z b <= inject_Z c / inject_Z d)%Q <-> a * d <= c * b.
Proof.
  intros Hb Hd.
  destruct b as [ | b | b ]; try lia. destruct d as [ | d | d ]; try lia.
  rewrite <- !Qmake_Qdiv. unfold Qle. simpl. reflexivity.
Qed.

Lemma aspect_lt (a b c d : Z) :
  0 < b -> 0 < d ->
  (inject_Z a / inject_Z b < inject_Z c / inject_Z d)%Q <-> a * d < c * b.
Proof.
  intros Hb Hd.
  destruct b as [ | b | b ]; try lia. destruct d as [ | d | d ]; try lia.
  rewrite <- !Qmake_Qdiv. unfold Qlt. simpl. reflexivity.
Qed.

Lemma Qpow2_minus (n m : Z) :
  0 <= n -> 0 <= m -> (2 ^ (n - m) == inject_Z (2 ^ n) / inject_Z (2 ^ m))%Q.
Proof.
  intros Hn Hm. rewrite Qpower_minus by discriminate.
  rewrite (Qpow2_Z n Hn), (Qpow2_Z m Hm). reflexivity.
Qed.

Lemma ilog2_spec (x : Q) :
  (0 < x)%Q -> (2 ^ ilog2 x <= x)%Q /\ (x < 2 ^ (ilog2 x + 1))%Q.
Proof.
  intros Hx. destruct x as [a b]. unfold ilog2. cbn [Qnum Qden].
  assert (Ha : 0 < a) by (unfold Qlt in Hx; simpl in Hx; lia).
  destruct (Z.log2_spec a Ha) as [Ha1 Ha2].
  destruct (Z.log2_spec (Z.pos b) (Pos2Z.is_pos b)) as [Hb1 Hb2].
  pose proof (Z.log2_nonneg a) as Hla. pose proof (Z.log2_nonneg (Z.pos b)) as Hlb.
  set (la := Z.log2 a) in *. set (lb := Z.log2 (Z.pos b)) in *.
  replace (Z.succ la) with (la + 1) in Ha2 by lia.
  replace (Z.succ lb) with (lb + 1) in Hb2 by lia.
  assert (Hab : (a # b == inject_Z a / inject_Z (Z.pos b))%Q) by (apply Qmake_Qdiv).
  assert (Hpa : 0 < 2 ^ la) by (apply Z.pow_pos_nonneg; lia).
  assert (Hpb : 0 < 2 ^ lb) by (apply Z.pow_pos_nonneg; lia).
  assert (Hpa' : 2 ^ (la + 1) = 2 * 2 ^ la) by (rewrite Z.pow_add_r by lia; lia).
  assert (Hpb' : 2 ^ (lb + 1) = 2 * 2 ^ lb) by (rewrite Z.pow_add_r by lia; lia).
  assert (Hupper : (a # b < 2 ^ (la - lb + 1))%Q).
  { rewrite Hab. replace (la - lb + 1) with ((la + 1) - lb) by lia.
    rewrite Qpow2_minus by lia. apply aspect_lt; [ lia | lia | nia ]. }
  assert (Hlower : (2 ^ (la - lb - 1) <= a # b)%Q).
  { rewrite Hab. replace (la - lb - 1) with (la - (lb + 1)) by lia.
    rewrite Qpow2_minus by lia. apply aspect_le; [ lia | lia | nia ]. }
  destruct (Qle_bool (2 ^ (la - lb)) (a # b)) eqn:Hle.
  - apply Qle_bool_iff in Hle. split; assumption.
  - assert (Hnle : ~ (2 ^ (la - lb) <= a # b)%Q).
    { intros H. apply Qle_bool_iff in H. congruence. }
    apply Qnot_le_lt in Hnle. split; [ exact Hlower | ].
    replace (la - lb - 1 + 1) with (la - lb) by lia. exact Hnle.
Qed.

Lemma ilog2_unique (x : Q) (e : Z) :
  (2 ^ e <= x)%Q -> (x < 2 ^ (e + 1))%Q -> ilog2 x = e.
Proof.
  intros Hlow Hhigh.
  assert (Hx : (0 < x)%Q) by (pose proof (Qpow2_positive e); lra).
  destruct (ilog2_spec x Hx) as [Hlow' Hhigh'].
  assert (H1 : (2 ^ e < 2 ^ (ilog2 x + 1))%Q) by lra.
  assert (H2 : (2 ^ ilog2 x < 2 ^ (e + 1))%Q) by lra.
  apply Qpower_lt_compat_l_inv in H1, H2; try reflexivity. lia.
Qed.

Lemma ilog2_comp (x y : Q) : (0 < x)%Q -> (x == y)%Q -> ilog2 x = ilog2 y.
Proof.
  intros Hx Hxy. symmetry. destruct (ilog2_spec x Hx) as [H1 H2].
  apply ilog2_unique; rewrite <- Hxy; assumption.
Qed.

(** ** Rounding to a double *)

Lemma double_0 : double 0 = 0%Q.
Proof. reflexivity. Qed.

Lemma double_unfold (x : Q) :
  (0 < x)%Q ->
  (double x == inject_Z (round (x / 2 ^ (ilog2 x - 52))) * 2 ^ (ilog2 x - 52))%Q.
Proof.
  intros Hx. unfold double.
  destruct (Qeq_bool x 0) eqn:Hzero.
  { apply Qeq_bool_iff in Hzero. lra. }
  rewrite Qred_correct.
  assert (Habs : (Qabs x == x)%Q) by (apply Qabs_pos; lra).
  assert (Hlog : ilog2 (Qabs x) = ilog2 x).
  { apply ilog2_comp; [ rewrite Habs; exact Hx | exact Habs ]. }
  rewrite Hlog. reflexivity.
Qed.

Lemma double_comp (x y : Q) : (0 < x)%Q -> (x == y)%Q -> (double x == double y)%Q.
Proof.
  intros Hx Hxy. assert (Hy : (0 < y)%Q) by (rewrite <- Hxy; exact Hx).
  rewrite (double_unfold x Hx), (double_unfold y Hy).
  rewrite <- (ilog2_comp x y Hx Hxy).
  assert (Hround : round (x / 2 ^ (ilog2 x - 52)) = round (y / 2 ^ (ilog2 x - 52))).
  { apply round_comp. apply Qdiv_comp; [ exact Hxy | reflexivity ]. }
  rewrite Hround. reflexivity.
Qed.

(** The scaled value [x / ulp] lies between [2 ^ 52] and [2 ^ 53]. *)
Lemma scaled_range (x : Q) :
  (0 < x)%Q ->
  (inject_Z (2 ^ 52) <= x / 2 ^ (ilog2 x - 52))%Q
  /\ (x / 2 ^ (ilog2 x - 52) < inject_Z (2 ^ 53))%Q.
Proof.
  intros Hx. destruct (ilog2_spec x Hx) as [Hlow Hhigh].
  pose proof (Qpow2_positive (ilog2 x - 52)) as Hulp.
  assert (H52 : (2 ^ ilog2 x == inject_Z (2 ^ 52) * 2 ^ (ilog2 x - 52))%Q).
  { rewrite <- (Qpow2_Z 52) by lia. rewrite <- Qpower_plus by discriminate.
    replace (52 + (ilog2 x - 52)) with (ilog2 x) by lia. reflexivity. }
  assert (H53 : (2 ^ (ilog2 x + 1) == inject_Z (2 ^ 53) * 2 ^ (ilog2 x - 52))%Q).
  { rewrite <- (Qpow2_Z 53) by lia. rewrite <- Qpower_plus by discriminate.
    replace (53 + (ilog2 x - 52)) with (ilog2 x + 1) by lia. reflexivity. }
  split.
  - apply Qle_shift_div_l; [ exact Hulp | ]. rewrite <- H52. exact Hlow.
  - apply Qlt_shift_div_r; [ exact Hulp | ]. rewrite <- H53. exact Hhigh.
Qed.

Lemma mantissa_range (x : Q) :
  (0 < x)%Q ->
  2 ^ 52 <= round (x / 2 ^ (ilog2 x - 52)) <= 2 ^ 53.
Proof.
  intros Hx. destruct (scaled_range x Hx) as [Hlow Hhigh].
  split.
  - apply Z.le_trans with (round (inject_Z (2 ^ 52))).
    + rewrite (round_integer (inject_Z (2 ^ 52)) (2 ^ 52)) by reflexivity. lia.
    + apply round_mono. exact Hlow.
  - apply Z.le_trans with (round (inject_Z (2 ^ 53))).
    + apply round_mono. apply Qlt_le_weak. exact Hhigh.
    + rewrite (round_integer (inject_Z (2 ^ 53)) (2 ^ 53)) by reflexivity. lia.
Qed.

(** A double lies in the binade of the number it rounds, closed above. *)
Lemma double_range (x : Q) :
  (0 < x)%Q ->
  (2 ^ ilog2 x <= double x)%Q /\ (double x <= 2 ^ (ilog2 x + 1))%Q.
Proof.
  intros Hx. rewrite (double_unfold x Hx).
  destruct (mantissa_range x Hx) as [Hlow Hhigh].
  pose proof (Qpow2_positive (ilog2 x - 52)) as Hulp.
  assert (H52 : (2 ^ ilog2 x == inject_Z (2 ^ 52) * 2 ^ (ilog2 x - 52))%Q).
  { rewrite <- (Qpow2_Z 52) by lia. rewrite <- Qpower_plus by discriminate.
    replace (52 + (ilog2 x - 52)) with (ilog2 x) by lia. reflexivity. }
  assert (H53 : (2 ^ (ilog2 x + 1) == inject_Z (2 ^ 53) * 2 ^ (ilog2 x - 52))%Q).
  { rewrite <- (Qpow2_Z 53) by lia. rewrite <- Qpower_plus by discriminate.
    replace (53 + (ilog2 x - 52)) with (ilog2 x + 1) by lia. reflexivity. }
  rewrite H52, H53. split.
  - apply Qmult_le_compat_r; [ rewrite <- Zle_Qle; exact Hlow | lra ].
  - apply Qmult_le_compat_r; [ rewrite <- Zle_Qle; exact Hhigh | lra ].
Qed.

Lemma double_positive (x : Q) : (0 < x)%Q -> (0 < double x)%Q.
Proof.
  intros Hx. destruct (double_range x Hx) as [Hlow _].
  pose proof (Qpow2_positive (ilog2 x)). lra.
Qed.

(** Rounding to a double moves a number by at most half a unit in the
    last place, which is at most [2 ^ -53] of the number. *)
Lemma double_error (x : Q) :
  (0 < x)%Q ->
  (x - x * (1 # 9007199254740992) <= double x)%Q /\ (double x <= x + x * (1 # 9007199254740992))%Q.
Proof.
  intros Hx. rewrite (double_unfold x Hx).
  destruct (ilog2_spec x Hx) as [Hlow _].
  set (ulp := (2 ^ (ilog2 x - 52))%Q) in *.
  assert (Hulp : (0 < ulp)%Q) by apply Qpow2_positive.
  destruct (round_error (x / ulp)) as [H1 H2].
  assert (Hx' : (x == x / ulp * ulp)%Q) by (field; lra).
  assert (H52 : (2 ^ ilog2 x == inject_Z (2 ^ 52) * ulp)%Q).
  { unfold ulp. rewrite <- (Qpow2_Z 52) by lia. rewrite <- Qpower_plus by discriminate.
    replace (52 + (ilog2 x - 52)) with (ilog2 x) by lia. reflexivity. }
  assert (Hhalf : (ulp * (1 # 2) <= x * (1 # 9007199254740992))%Q).
  { assert (Hu : (ulp == inject_Z (2 ^ 52) * ulp * (1 # 2 ^ 52))%Q).
    { change (inject_Z (2 ^ 52)) with (4503599627370496 # 1)%Q.
      change (1 # 2 ^ 52)%Q with (1 # 4503599627370496)%Q. field. }
    rewrite <- H52 in Hu.
    assert (Hc : ((1 # 2 ^ 52) * (1 # 2) == 1 # 9007199254740992)%Q) by reflexivity.
    rewrite Hu at 1. rewrite <- Qmult_assoc, Hc.
    apply Qmult_le_compat_r; [ exact Hlow | discriminate ]. }
  assert (Hm1 : ((x / ulp - (1 # 2)) * ulp <= inject_Z (round (x / ulp)) * ulp)%Q)
    by (apply Qmult_le_compat_r; lra).
  assert (Hm2 : (inject_Z (round (x / ulp)) * ulp <= (x / ulp + (1 # 2)) * ulp)%Q)
    by (apply Qmult_le_compat_r; lra).
  assert (He1 : ((x / ulp - (1 # 2)) * ulp == x - ulp * (1 # 2))%Q) by (field; lra).
  assert (He2 : ((x / ulp + (1 # 2)) * ulp == x + ulp * (1 # 2))%Q) by (field; lra).
  rewrite He1 in Hm1. rewrite He2 in Hm2. split; lra.
Qed.

Lemma double_mono (x y : Q) : (0 < x)%Q -> (x <= y)%Q -> (double x <= double y)%Q.
Proof.
  intros Hx Hxy. assert (Hy : (0 < y)%Q) by lra.
  destruct (ilog2_spec x Hx) as [Hx1 Hx2]. destruct (ilog2_spec y Hy) as [Hy1 Hy2].
  assert (Hlog : ilog2 x <= ilog2 y).
  { assert (H : (2 ^ ilog2 x < 2 ^ (ilog2 y + 1))%Q) by lra.
    apply Qpower_lt_compat_l_inv in H; [ lia | reflexivity ]. }
  destruct (Z.eq_dec (ilog2 x) (ilog2 y)) as [Heq | Hne].
  - rewrite (double_unfold x Hx), (double_unfold y Hy). rewrite <- Heq.
    pose proof (Qpow2_positive (ilog2 x - 52)) as Hulp.
    apply Qmult_le_compat_r; [ | lra ].
    rewrite <- Zle_Qle. apply round_mono.
    apply Qmult_le_compat_r; [ exact Hxy | ].
    apply Qlt_le_weak, Qinv_lt_0_compat. exact Hulp.
  - destruct (double_range x Hx) as [_ Hxr]. destruct (double_range y Hy) as [Hyr _].
    assert (Hstep : (2 ^ (ilog2 x + 1) <= 2 ^ ilog2 y)%Q) by (apply Qpow2_le; lia).
    lra.
Qed.

(** Integers of up to 53 bits are doubles. *)
Lemma double_int (n : Z) : 0 < n <= 2 ^ 53 -> (double (inject_Z n) == inject_Z n)%Q.
Proof.
  intros [Hpos Hmax].
  assert (Hx : (0 < inject_Z n)%Q) by (rewrite <- (Zlt_Qlt 0); exact Hpos).
  rewrite (double_unfold _ Hx).
  destruct (Z.log2_spec n Hpos) as [H1 H2].
  pose proof (Z.log2_nonneg n) as Hnonneg.
  replace (Z.succ (Z.log2 n)) with (Z.log2 n + 1) in H2 by lia.
  assert (Hlog : ilog2 (inject_Z n) = Z.log2 n).
  { apply ilog2_unique.
    - rewrite Qpow2_Z by lia. rewrite <- Zle_Qle. exact H1.
    - rewrite Qpow2_Z by lia. rewrite <- Zlt_Qlt. exact H2. }
  rewrite Hlog.
  assert (Hle : Z.log2 n <= 53).
  { apply (Z.pow_le_mono_r_iff 2); lia. }
  destruct (Z.eq_dec (Z.log2 n) 53) as [H53 | Hlt].
  - assert (Hn : n = 2 ^ 53).
    { rewrite H53 in H1. lia. }
    rewrite H53, Hn. vm_compute. reflexivity.
  - assert (Hulp : (2 ^ (Z.log2 n - 52) == 1 / inject_Z (2 ^ (52 - Z.log2 n)))%Q).
    { replace (Z.log2 n - 52) with (0 - (52 - Z.log2 n)) by lia.
      rewrite Qpow2_minus by lia. reflexivity. }
    assert (Hp : 0 < 2 ^ (52 - Z.log2 n)) by (apply Z.pow_pos_nonneg; lia).
    assert (Hp' : (0 < inject_Z (2 ^ (52 - Z.log2 n)))%Q) by (rewrite <- (Zlt_Qlt 0); exact Hp).
    assert (Hround : round (inject_Z n / 2 ^ (Z.log2 n - 52)) = n * 2 ^ (52 - Z.log2 n)).
    { apply round_integer. rewrite Hulp, inject_Z_mult. field. lra. }
    rewrite Hround, Hulp, inject_Z_mult. field. lra.
Qed.

(** Doubling commutes with rounding: the exponent has no bound here. *)
Lemma double_twice (x : Q) : (0 < x)%Q -> (double (2 * x) == 2 * double x)%Q.
Proof.
  intros Hx. assert (Hx2 : (0 < 2 * x)%Q) by lra.
  rewrite (double_unfold x Hx), (double_unfold _ Hx2).
  destruct (ilog2_spec x Hx) as [H1 H2].
  assert (Hlog : ilog2 (2 * x) = ilog2 x + 1).
  { apply ilog2_unique; rewrite !Qpow2_succ; rewrite ?Qpow2_succ in H2; lra. }
  rewrite Hlog. replace (ilog2 x + 1 - 52) with ((ilog2 x - 52) + 1) by lia.
  pose proof (Qpow2_positive (ilog2 x - 52)) as Hulp.
  assert (Hround : round (2 * x / 2 ^ (ilog2 x - 52 + 1)) = round (x / 2 ^ (ilog2 x - 52))).
  { apply round_comp. rewrite Qpow2_succ. field. lra. }
  rewrite Hround, Qpow2_succ. ring.
Qed.

(** ** [fit_tensor] *)

Lemma aspect_eq (a b c d : Z) :
  0 < b -> 0 < d ->
  (inject_Z a / inject_Z b == inject_Z c / inject_Z d)%Q <-> a * d = c * b.
Proof.
  intros Hb Hd.
  destruct b as [ | b | b ]; try lia. destruct d as [ | d | d ]; try lia.
  rewrite <- !Qmake_Qdiv. unfold Qeq. simpl. reflexivity.
Qed.

Lemma aspect_positive (a b : Z) : 0 < a -> 0 < b -> (0 < inject_Z a / inject_Z b)%Q.
Proof.
  intros Ha Hb. apply Qlt_shift_div_l.
  - rewrite <- (Zlt_Qlt 0). exact Hb.
  - rewrite Qmult_0_l. rewrite <- (Zlt_Qlt 0). exact Ha.
Qed.

Lemma inject_Z_positive (n : Z) : 0 < n -> (0 < inject_Z n)%Q.
Proof. intros H. rewrite <- (Zlt_Qlt 0). exact H. Qed.

(** The two aspect ratios are ordered as the quotients they round. *)
Lemma double_aspect_le (a b c d : Z) :
  0 < a -> 0 < b -> 0 < d -> a * d <= c * b ->
  (double (inject_Z a / inject_Z b) <= double (inject_Z c / inject_Z d))%Q.
Proof.
  intros Ha Hb Hd Hle. apply double_mono.
  - apply aspect_positive; assumption.
  - apply aspect_le; assumption.
Qed.

(** Two quotients of integers whose cross product is at most [2 ^ 52] are
    too far apart to round to the same double. *)
Lemma double_aspect_lt (a b c d : Z) :
  0 < b -> 0 < c -> 0 < d -> c * b < a * d -> a * d <= 2 ^ 52 ->
  (double (inject_Z c / inject_Z d) < double (inject_Z a / inject_Z b))%Q.
Proof.
  intros Hb Hc Hd Hlt Hbound.
  assert (Ha : 0 < a) by nia.
  pose proof (aspect_positive a b Ha Hb) as Hx.
  pose proof (aspect_positive c d Hc Hd) as Hy.
  destruct (double_error _ Hx) as [Hdx _]. destruct (double_error _ Hy) as [_ Hdy].
  set (x := (inject_Z a / inject_Z b)%Q) in *. set (y := (inject_Z c / inject_Z d)%Q) in *.
  pose proof (inject_Z_positive b Hb) as Hb'. pose proof (inject_Z_positive d Hd) as Hd'.
  assert (Hbd : 0 < b * d) by nia.
  assert (Hgap : (inject_Z 1 / inject_Z (b * d) <= x - y)%Q).
  { assert (Hdiff : (x - y == inject_Z (a * d - c * b) / inject_Z (b * d))%Q).
    { unfold x, y, Z.sub. rewrite inject_Z_plus, inject_Z_opp, !inject_Z_mult. field.
      split; lra. }
    rewrite Hdiff. apply aspect_le; [ exact Hbd | exact Hbd | nia ]. }
  assert (Hsmall : (x * (1 # 4503599627370496) <= inject_Z 1 / inject_Z (b * d))%Q).
  { assert (Hscaled : (x * (1 # 4503599627370496)
                       == inject_Z a / inject_Z (4503599627370496 * b))%Q).
    { unfold x. rewrite inject_Z_mult. change (inject_Z 4503599627370496)
        with (4503599627370496 # 1)%Q. field. lra. }
    rewrite Hscaled. apply aspect_le; [ lia | exact Hbd | ].
    change (2 ^ 52) with 4503599627370496 in Hbound. nia. }
  assert (Hxy : (y < x)%Q) by (apply aspect_lt; assumption).
  lra.
Qed.

(** Lines 85 to 93 on a source and a container that are not empty. *)
Lemma placed_size_cases (channels source_height source_width width height : Z) :
  0 < source_height -> 0 < source_width -> 0 < height ->
  placed_size [channels; source_height; source_width] width height
  = if Qle_bool (double (inject_Z source_width / inject_Z source_height))
                (double (inject_Z width / inject_Z height))
    then Return (round (double (double (inject_Z height)
                                * double (inject_Z source_width / inject_Z source_height))),
                 height)
    else Return (width,
                 round (double (double (inject_Z width)
                                / double (inject_Z source_width / inject_Z source_height)))).
Proof.
  intros Hsh Hsw Hh. unfold placed_size, int_truediv.
  assert (Hh0 : (height =? 0) = false) by (apply Z.eqb_neq; lia).
  assert (Hsh0 : (source_height =? 0) = false) by (apply Z.eqb_neq; lia).
  rewrite Hh0. cbn [bind].
  change (index [channels; source_height; source_width] 2) with (Return source_width).
  change (index [channels; source_height; source_width] 1) with (Return source_height).
  cbn [bind]. rewrite Hsh0. cbn [bind].
  destruct (Qle_bool _ _); cbn [negb]; [ reflexivity | ].
  unfold float_truediv, float_of_int.
  destruct (Qeq_bool (double (inject_Z source_width / inject_Z source_height)) 0) eqn:Hzero;
    [ | reflexivity ].
  apply Qeq_bool_iff in Hzero.
  pose proof (double_positive _ (aspect_positive source_width source_height Hsw Hsh)). lra.
Qed.

(** A width scaled by its own aspect ratio and back: the two roundings move
    it by far less than half a pixel. *)
Lemma fits_width (width height : Z) :
  0 < width <= 2 ^ 26 -> 0 < height <= 2 ^ 26 ->
  round (double (double (inject_Z height) * double (inject_Z width / inject_Z height)))
  = width.
Proof.
  intros [Hw Hwmax] [Hh Hhmax].
  pose proof (inject_Z_positive width Hw) as Hw'.
  pose proof (inject_Z_positive height Hh) as Hh'.
  pose proof (aspect_positive width height Hw Hh) as Hq.
  destruct (double_error _ Hq) as [Hc1 Hc2].
  pose proof (double_positive _ Hq) as Hc.
  set (c := double (inject_Z width / inject_Z height)) in *.
  assert (Hproduct : (0 < inject_Z height * c)%Q) by (apply Qmult_lt_0_compat; assumption).
  assert (Hint : (double (inject_Z height) * c == inject_Z height * c)%Q).
  { rewrite (double_int height) by (change (2 ^ 26) with 67108864 in Hhmax;
                                    change (2 ^ 53) with 9007199254740992; lia).
    reflexivity. }
  assert (Hp1 : (inject_Z width - inject_Z width * (1 # 9007199254740992)
                 <= inject_Z height * c)%Q).
  { assert (He : (inject_Z width - inject_Z width * (1 # 9007199254740992)
                  == inject_Z height * (inject_Z width / inject_Z height
                       - inject_Z width / inject_Z height * (1 # 9007199254740992)))%Q)
      by (field; lra).
    rewrite He. apply Qmult_le_l; assumption. }
  assert (Hp2 : (inject_Z height * c
                 <= inject_Z width + inject_Z width * (1 # 9007199254740992))%Q).
  { assert (He : (inject_Z width + inject_Z width * (1 # 9007199254740992)
                  == inject_Z height * (inject_Z width / inject_Z height
                       + inject_Z width / inject_Z height * (1 # 9007199254740992)))%Q)
      by (field; lra).
    rewrite He. apply Qmult_le_l; assumption. }
  destruct (double_error _ Hproduct) as [Hr1 Hr2].
  assert (Hbound : (inject_Z width <= 67108864)%Q).
  { change (67108864)%Q with (inject_Z (2 ^ 26)). rewrite <- Zle_Qle. exact Hwmax. }
  assert (Hround : round (double (double (inject_Z height) * c))
                   = round (double (inject_Z height * c))).
  { apply round_comp. apply double_comp; [ rewrite Hint; exact Hproduct | exact Hint ]. }
  rewrite Hround. apply round_near; lra.
Qed.

(** A width divided by its own aspect ratio is the height, as closely. *)
Lemma fits_height (width height : Z) :
  0 < width <= 2 ^ 26 -> 0 < height <= 2 ^ 26 ->
  round (double (double (inject_Z width) / double (inject_Z width / inject_Z height)))
  = height.
Proof.
  intros [Hw Hwmax] [Hh Hhmax].
  pose proof (inject_Z_positive width Hw) as Hw'.
  pose proof (inject_Z_positive height Hh) as Hh'.
  pose proof (aspect_positive width height Hw Hh) as Hq.
  destruct (double_error _ Hq) as [Hc1 Hc2].
  pose proof (double_positive _ Hq) as Hc.
  set (c := double (inject_Z width / inject_Z height)) in *.
  assert (Hp1 : (inject_Z width - inject_Z width * (1 # 9007199254740992)
                 <= inject_Z height * c)%Q).
  { assert (He : (inject_Z width - inject_Z width * (1 # 9007199254740992)
                  == inject_Z height * (inject_Z width / inject_Z height
                       - inject_Z width / inject_Z height * (1 # 9007199254740992)))%Q)
      by (field; lra).
    rewrite He. apply Qmult_le_l; assumption. }
  assert (Hp2 : (inject_Z height * c
                 <= inject_Z width + inject_Z width * (1 # 9007199254740992))%Q).
  { assert (He : (inject_Z width + inject_Z width * (1 # 9007199254740992)
                  == inject_Z height * (inject_Z width / inject_Z height
                       + inject_Z width / inject_Z height * (1 # 9007199254740992)))%Q)
      by (field; lra).
    rewrite He. apply Qmult_le_l; assumption. }
  assert (Hquotient : (0 < inject_Z width / c)%Q).
  { apply Qlt_shift_div_l; [ exact Hc | lra ]. }
  assert (Hint : (double (inject_Z width) / c == inject_Z width / c)%Q).
  { rewrite (double_int width) by (change (2 ^ 26) with 67108864 in Hwmax;
                                   change (2 ^ 53) with 9007199254740992; lia).
    reflexivity. }
  assert (Hq1 : (inject_Z height * (1 - (1 # 9007199254740992)) <= inject_Z width / c)%Q).
  { apply Qle_shift_div_l; [ exact Hc | ].
    assert (He : (inject_Z height * (1 - (1 # 9007199254740992)) * c
                  == (1 - (1 # 9007199254740992)) * (inject_Z height * c))%Q) by ring.
    rewrite He. lra. }
  assert (Hq2 : (inject_Z width / c <= inject_Z height * (1 + (2 # 9007199254740992)))%Q).
  { apply Qle_shift_div_r; [ exact Hc | ].
    assert (He : (inject_Z height * (1 + (2 # 9007199254740992)) * c
                  == (1 + (2 # 9007199254740992)) * (inject_Z height * c))%Q) by ring.
    rewrite He. lra. }
  destruct (double_error _ Hquotient) as [Hr1 Hr2].
  assert (Hbound : (inject_Z height <= 67108864)%Q).
  { change (67108864)%Q with (inject_Z (2 ^ 26)). rewrite <- Zle_Qle. exact Hhmax. }
  assert (Hround : round (double (double (inject_Z width) / c))
                   = round (double (inject_Z width / c))).
  { apply round_comp. apply double_comp; [ rewrite Hint; exact Hquotient | exact Hint ]. }
  rewrite Hround. apply round_near; lra.
Qed.

Lemma int64_bounds (n : Z) : - 2 ^ 63 <= n < 2 ^ 63 -> int64 n = true.
Proof.
  intros [Hlow Hhigh]. unfold int64.
  apply andb_true_intro. split; [ apply Z.leb_le | apply Z.ltb_lt ]; assumption.
Qed.

Lemma int64_true (n : Z) : int64 n = true -> - 2 ^ 63 <= n < 2 ^ 63.
Proof.
  unfold int64. intros H. apply andb_prop in H as [Hlow Hhigh].
  apply Z.leb_le in Hlow. apply Z.ltb_lt in Hhigh. split; assumption.
Qed.

(** Once the content has a size that is not empty, [fit_tensor] returns a
    tensor of the container's size together with the placement. *)
Lemma fit_tensor_returns (channels source_height source_width width height : Z)
    (new_width new_height : Z) :
  placed_size [channels; source_height; source_width] width height
    = Return (new_width, new_height) ->
  channels <> 0 -> 0 < source_height -> 0 < source_width ->
  0 < new_width < 2 ^ 63 -> 0 < new_height < 2 ^ 63 ->
  0 <= width < 2 ^ 63 -> 0 <= height < 2 ^ 63 ->
  fit_tensor [channels; source_height; source_width] width height
    = Return ([channels; height; width],
              ((width - new_width) / 2, (height - new_height) / 2, new_width, new_height)).
Proof.
  intros Hsize Hc Hsh Hsw [Hnw Hnw'] [Hnh Hnh'] [Hw Hw'] [Hh Hh']. unfold fit_tensor.
  change (len [channels; source_height; source_width] =? 3) with true.
  cbn [negb]. rewrite Hsize. cbn [bind].
  unfold unsqueeze0, interpolate.
  rewrite (int64_bounds new_height), (int64_bounds new_width) by lia.
  apply Z.ltb_lt in Hsh, Hsw, Hnw, Hnh. rewrite Hsh, Hsw, Hnw, Hnh.
  apply Z.eqb_neq in Hc. rewrite Hc.
  cbn [andb negb bind squeeze0]. unfold pad. cbn [rev app].
  replace (new_width + (width - new_width) / 2
             + (width - new_width - (width - new_width) / 2)) with width by lia.
  replace (new_height + (height - new_height) / 2
             + (height - new_height - (height - new_height) / 2)) with height by lia.
  apply Z.ltb_lt in Hnw, Hnh.
  pose proof (Z.div_mod (width - new_width) 2 ltac:(lia)) as Hdw.
  pose proof (Z.mod_pos_bound (width - new_width) 2 ltac:(lia)) as Hmw.
  pose proof (Z.div_mod (height - new_height) 2 ltac:(lia)) as Hdh.
  pose proof (Z.mod_pos_bound (height - new_height) 2 ltac:(lia)) as Hmh.
  rewrite !int64_bounds by lia. cbn [andb negb].
  apply Z.ltb_ge in Hw, Hh. rewrite Hw, Hh. reflexivity.
Qed.

(** What a call of [fit_tensor] that returns went through. *)
Lemma fit_tensor_inversion (tensor padded : Tensor) (width height : Z)
    (offset_x offset_y new_width new_height : Z) :
  fit_tensor tensor width height
    = Return (padded, (offset_x, offset_y, new_width, new_height)) ->
  exists channels source_height source_width,
    tensor = [channels; source_height; source_width]
    /\ placed_size tensor width height = Return (new_width, new_height)
    /\ channels <> 0 /\ 0 < source_height /\ 0 < source_width
    /\ 0 < new_width < 2 ^ 63 /\ 0 < new_height < 2 ^ 63
    /\ 0 <= width < 2 ^ 63 /\ 0 <= height < 2 ^ 63
    /\ padded = [channels; height; width]
    /\ offset_x = (width - new_width) / 2 /\ offset_y = (height - new_height) / 2.
Proof.
  unfold fit_tensor. intros H.
  destruct tensor as [ | c [ | sh [ | sw [ | x rest ] ] ] ]; try discriminate H.
  2:{ exfalso. unfold len in H. cbn [length] in H.
      destruct (Z.of_nat (S (S (S (S (length rest))))) =? 3) eqn:Hlen.
      - apply Z.eqb_eq in Hlen. lia.
      - discriminate H. }
  change (len [c; sh; sw] =? 3) with true in H. cbn [negb] in H.
  destruct (placed_size [c; sh; sw] width height) as [ [nw nh] | ]; [ | discriminate H ].
  cbn [bind unsqueeze0 interpolate] in H.
  destruct (int64 nh) eqn:Hnh64; [ | discriminate H ].
  destruct (int64 nw) eqn:Hnw64; [ | discriminate H ].
  cbn [andb negb] in H.
  destruct (0 <? sh) eqn:Hsh; [ | discriminate H ].
  destruct (0 <? sw) eqn:Hsw; [ | discriminate H ].
  destruct (0 <? nh) eqn:Hnh; [ | discriminate H ].
  destruct (0 <? nw) eqn:Hnw; [ | discriminate H ].
  cbn [andb] in H.
  destruct (c =? 0) eqn:Hc; [ discriminate H | ].
  cbn [bind squeeze0 pad rev app] in H.
  replace (nw + (width - nw) / 2 + (width - nw - (width - nw) / 2)) with width in H by lia.
  replace (nh + (height - nh) / 2 + (height - nh - (height - nh) / 2)) with height in H by lia.
  destruct (int64 ((width - nw) / 2) && int64 (width - nw - (width - nw) / 2)
            && int64 ((height - nh) / 2) && int64 (height - nh - (height - nh) / 2)
            && int64 width && int64 height) eqn:H64; [ | discriminate H ].
  cbn [negb] in H.
  destruct (width <? 0) eqn:Hw; [ discriminate H | ].
  destruct (height <? 0) eqn:Hh; [ discriminate H | ].
  cbn [orb bind rev app] in H. injection H as <- <- <- <- <-.
  apply andb_prop in H64 as [H64 Hh64]. apply andb_prop in H64 as [_ Hw64].
  apply int64_true in Hnh64, Hnw64, Hh64, Hw64.
  apply Z.ltb_lt in Hsh, Hsw, Hnh, Hnw. apply Z.ltb_ge in Hw, Hh. apply Z.eqb_neq in Hc.
  exists c, sh, sw. repeat split; try assumption; try reflexivity; lia.
Qed.

(** The side that is scaled does not outgrow the container: scaling by an
    aspect ratio that is at most the container's gives at most what the
    container's own gives, its width; and likewise for the height. *)
Lemma scaled_width_le (source_height source_width width height : Z) :
  0 < source_height -> 0 < source_width ->
  0 < width <= 2 ^ 26 -> 0 < height <= 2 ^ 26 ->
  (double (inject_Z source_width / inject_Z source_height)
   <= double (inject_Z width / inject_Z height))%Q ->
  round (double (double (inject_Z height)
                 * double (inject_Z source_width / inject_Z source_height)))
  <= width.
Proof.
  intros Hsh Hsw Hw Hh Hle.
  rewrite <- (fits_width width height Hw Hh).
  pose proof (double_positive _ (aspect_positive source_width source_height Hsw Hsh)) as Ht.
  assert (Hheight : (0 < double (inject_Z height))%Q).
  { apply double_positive, inject_Z_positive. lia. }
  apply round_mono, double_mono.
  - apply Qmult_lt_0_compat; assumption.
  - apply Qmult_le_l; assumption.
Qed.

Lemma scaled_height_le (source_height source_width width height : Z) :
  0 < source_height -> 0 < source_width ->
  0 < width <= 2 ^ 26 -> 0 < height <= 2 ^ 26 ->
  (double (inject_Z width / inject_Z height)
   <= double (inject_Z source_width / inject_Z source_height))%Q ->
  round (double (double (inject_Z width)
                 / double (inject_Z source_width / inject_Z source_height)))
  <= height.
Proof.
  intros Hsh Hsw Hw Hh Hle.
  rewrite <- (fits_height width height Hw Hh).
  pose proof (double_positive _ (aspect_positive source_width source_height Hsw Hsh)) as Ht.
  pose proof (double_positive _ (aspect_positive width height (proj1 Hw) (proj1 Hh))) as Hc.
  assert (Hwidth : (0 < double (inject_Z width))%Q).
  { apply double_positive, inject_Z_positive. lia. }
  set (t := double (inject_Z source_width / inject_Z source_height)) in *.
  set (c := double (inject_Z width / inject_Z height)) in *.
  set (w := double (inject_Z width)) in *.
  apply round_mono, double_mono.
  - apply Qlt_shift_div_l; [ exact Ht | lra ].
  - apply Qle_shift_div_l; [ exact Hc | ].
    assert (He : (w / t * c == w * (c / t))%Q) by (field; lra).
    rewrite He.
    assert (Hratio : (c / t <= 1)%Q) by (apply Qle_shift_div_r; lra).
    assert (Hone : (w * (c / t) <= w * 1)%Q) by (apply Qmult_le_l; assumption).
    lra.
Qed.




(* ===================================================================== *)
(** * Properties of [marker/unet.py]                                      *)
(* ===================================================================== *)

Import Closed_form.

(** ** Indexing *)

Lemma index_nat {A : Type} (l : list A) (i : nat) (a : A) :
  nth_error l i = Some a -> index l (Z.of_nat i) = Return a.
Proof.
  intros H. unfold index.
  assert (Hneg : (Z.of_nat i <? 0) = false) by (apply Z.ltb_ge; lia).
  rewrite !Hneg, Nat2Z.id, H. reflexivity.
Qed.

Lemma index_last {A : Type} (l : list A) (a : A) : index (l ++ [a]) (-1) = Return a.
Proof.
  unfold index, len. change (-1 <? 0) with true. cbn iota.
  rewrite length_app. cbn [length].
  replace (-1 + Z.of_nat (length l + 1)) with (Z.of_nat (length l)) by lia.
  assert (Hneg : (Z.of_nat (length l) <? 0) = false) by (apply Z.ltb_ge; lia).
  rewrite Hneg, Nat2Z.id, nth_error_app2, Nat.sub_diag by lia. reflexivity.
Qed.

Lemma index_app_head {A : Type} (pre suf : list A) (a : A) :
  index (pre ++ a :: suf) (len pre) = Return a.
Proof.
  apply index_nat. rewrite nth_error_app2, Nat.sub_diag by lia. reflexivity.
Qed.

(** ** The modules [__init__] registers *)

Lemma feature_0 : feature 0 = 64.
Proof. reflexivity. Qed.

Lemma feature_S (i : nat) : feature (S i) = feature i * 2.
Proof. unfold feature. rewrite Nat2Z.inj_succ, Z.pow_succ_r by lia. lia. Qed.

Lemma feature_positive (i : nat) : 0 < feature i.
Proof. unfold feature. pose proof (Z.pow_pos_nonneg 2 (Z.of_nat i)). lia. Qed.

Lemma features_S (k : nat) : features (S k) = features k ++ [feature k].
Proof. unfold features. rewrite seq_S, map_app. reflexivity. Qed.

Lemma append_features_spec (n k : nat) :
  append_features n (features k) = Return (features (k + n)).
Proof.
  revert k. induction n as [ | n IH ]; intros k; simpl.
  - rewrite Nat.add_0_r. reflexivity.
  - destruct k as [ | k ].
    + simpl. rewrite <- feature_0. exact (IH 1%nat).
    + assert (Hlen : (len (features (S k)) =? 0) = false).
      { unfold features, len. rewrite length_map, length_seq. apply Z.eqb_neq. lia. }
      rewrite Hlen, features_S, index_last. cbn [bind].
      rewrite <- feature_S, <- !features_S.
      replace (S k + S n)%nat with (S (S k) + n)%nat by lia. apply IH.
Qed.

Lemma append_downs_spec (i k : nat) (in_channels : Z) (acc : list module) :
  append_downs (map feature (seq i k)) in_channels acc = acc ++ downs_from i k in_channels.
Proof.
  revert i in_channels acc. induction k as [ | k IH ]; intros i in_channels acc; simpl.
  - rewrite app_nil_r. reflexivity.
  - rewrite IH, <- app_assoc. reflexivity.
Qed.

Lemma append_ups_spec (k : nat) (acc : list module) :
  append_ups (rev (features k)) acc = acc ++ ups_of k.
Proof.
  revert acc. induction k as [ | k IH ]; intros acc.
  - simpl. rewrite app_nil_r. reflexivity.
  - rewrite features_S, rev_app_distr. simpl.
    rewrite IH, <- !app_assoc. reflexivity.
Qed.

Lemma length_downs_from (i k : nat) (c : Z) : length (downs_from i k c) = k.
Proof. revert i c. induction k as [ | k IH ]; intros i c; simpl; [ | rewrite IH ]; reflexivity. Qed.

Lemma length_ups_of (k : nat) : length (ups_of k) = (2 * k)%nat.
Proof. induction k as [ | k IH ]; simpl; [ reflexivity | rewrite IH; lia ]. Qed.

(** [UNet(in_channels, out_channels, depth)] is constructed for every
    [depth >= 1], and is the network of the closed form, in training mode. *)
Lemma UNet_init_spec (in_channels out_channels depth : Z) :
  1 <= depth ->
  UNet_init in_channels out_channels depth
    = Return (network in_channels out_channels (Z.to_nat depth) true).
Proof.
  intros Hdepth. unfold UNet_init.
  change (@nil Z) with (features 0) at 1. rewrite append_features_spec. cbn [bind].
  destruct (Z.to_nat depth) as [ | d ] eqn:Hd; [ lia | ].
  rewrite Nat.add_0_l, features_S, index_last. cbn [bind].
  rewrite <- features_S.
  assert (Hfirst : index (features (S d)) 0 = Return 64).
  { apply (index_nat _ 0). reflexivity. }
  rewrite Hfirst. cbn [bind]. unfold network.
  rewrite append_ups_spec. unfold features at 1. rewrite append_downs_spec.
  rewrite Nat.sub_succ, Nat.sub_0_r. reflexivity.
Qed.

(** A network is constructed in training mode. *)
Lemma UNet_init_training (in_channels out_channels depth : Z) (net : UNet) :
  UNet_init in_channels out_channels depth = Return net -> UNet_train net true = net.
Proof.
  unfold UNet_init. intros H.
  destruct (append_features (Z.to_nat depth) []) as [ features | ]; [ | discriminate ].
  cbn [bind] in H.
  destruct (index features (-1)) as [ last | ]; [ | discriminate ].
  cbn [bind] in H.
  destruct (index features 0) as [ first | ]; [ | discriminate ].
  cbn [bind] in H. injection H as <-. reflexivity.
Qed.

(** Without a level there is no last feature to build the bottleneck from. *)
Lemma UNet_init_no_level (in_channels out_channels depth : Z) :
  depth <= 0 -> raises (UNet_init in_channels out_channels depth).
Proof.
  intros Hdepth. unfold UNet_init.
  replace (Z.to_nat depth) with 0%nat by lia. simpl. eexists. reflexivity.
Qed.

(** ** The guard of [forward] *)

Lemma factor_network (in_channels out_channels depth : Z) (mode : bool) :
  1 <= depth ->
  2 ^ len (downs (network in_channels out_channels (Z.to_nat depth) mode)) = 2 ^ depth.
Proof.
  intros Hdepth. unfold len. cbn [downs network].
  rewrite length_downs_from, Z2Nat.id by lia. reflexivity.
Qed.

(** C4. For every depth of at least one and every batched input whose
    height or width is not a multiple of [2 ^ depth], the network is
    constructed and [forward] raises the [ValueError] that names the two
    sizes and the factor, with no layer called. *)
Theorem forward_rejects_indivisible
    (in_channels out_channels depth batch channels h w : Z) :
  1 <= depth ->
  h mod 2 ^ depth <> 0 \/ w mod 2 ^ depth <> 0 ->
  exists net,
    UNet_init in_channels out_channels depth = Return net
    /\ forward net [batch; channels; h; w] []
       = ([], Raise (ValueError (invalid_input_size w h (2 ^ depth)))).
Proof.
  intros Hdepth Hindivisible.
  exists (network in_channels out_channels (Z.to_nat depth) true).
  split; [ apply UNet_init_spec; exact Hdepth | ].
  unfold forward. rewrite factor_network by exact Hdepth.
  change (index [batch; channels; h; w] 3) with (Return w).
  change (index [batch; channels; h; w] 2) with (Return h).
  unfold then_, lift, ret, raise.
  destruct (w mod 2 ^ depth =? 0) eqn:Hw; cbn [negb]; [ | reflexivity ].
  destruct (h mod 2 ^ depth =? 0) eqn:Hh; cbn [negb]; [ | reflexivity ].
  apply Z.eqb_eq in Hw, Hh. lia.
Qed.

(** The guard at depth 2: a width of 10 is not a multiple of 4. *)
Lemma forward_rejects_indivisible_witness :
  exists net,
    UNet_init 3 1 2 = Return net
    /\ forward net [5; 3; 8; 10] []
       = ([], Raise (ValueError (invalid_input_size 10 8 (2 ^ 2)))).
Proof.
  apply (forward_rejects_indivisible 3 1 2 5 3 8 10).
  - lia.
  - right. vm_compute. discriminate.
Defined.

(** An input of fewer than four dimensions does not reach the guard:
    reading [input.shape[3]] raises, and no layer is called either. *)
Lemma forward_three_dimensions (net : UNet) (channels h w : Z) :
  forward net [channels; h; w] [] = ([], Raise (IndexError "index out of range")).
Proof. reflexivity. Qed.

(** ** Forward passes that return *)

Lemma yields_ret {A : Type} (a : A) : yields (ret a) a.
Proof. intros log. exists log. reflexivity. Qed.

Lemma yields_lift {A : Type} (r : result A) (a : A) : r = Return a -> yields (lift r) a.
Proof. intros -> log. exists log. reflexivity. Qed.

Lemma yields_then {A B : Type} (m : traced A) (k : A -> traced B) (a : A) (b : B) :
  yields m a -> yields (k a) b -> yields (then_ m k) b.
Proof.
  intros Hm Hk log. unfold then_.
  destruct (Hm log) as [log' ->]. apply Hk.
Qed.

Lemma yields_call_layers (mode : bool) (l : layer) (rest : list layer)
    (input output final : Tensor) :
  apply_layer mode l input = Return output ->
  yields (call_layers mode rest output) final ->
  yields (call_layers mode (l :: rest) input) final.
Proof.
  intros Hl Hrest. cbn [call_layers].
  apply (yields_then _ _ output); [ | exact Hrest ].
  intros log. exists (log ++ [l]). rewrite Hl. reflexivity.
Qed.

(** The layers on inputs of positive size. *)
Lemma apply_Conv2d_3 (mode : bool) (n c cin cout h w : Z) :
  c = cin -> 0 < h -> 0 < w ->
  apply_layer mode (Conv2d cin cout 3 1) [n; c; h; w] = Return [n; cout; h; w].
Proof.
  intros -> Hh Hw. cbn [apply_layer]. rewrite Z.eqb_refl. cbn [negb].
  assert (Hfit : ((h + 2 * 1 <? 3) || (w + 2 * 1 <? 3)) = false).
  { apply orb_false_iff. split; apply Z.ltb_ge; lia. }
  rewrite Hfit. unfold window_out. rewrite !Z.div_1_r.
  repeat f_equal; lia.
Qed.

Lemma apply_Conv2d_1 (mode : bool) (n c cin cout h w : Z) :
  c = cin -> 0 < h -> 0 < w ->
  apply_layer mode (Conv2d cin cout 1 0) [n; c; h; w] = Return [n; cout; h; w].
Proof.
  intros -> Hh Hw. cbn [apply_layer]. rewrite Z.eqb_refl. cbn [negb].
  assert (Hfit : ((h + 2 * 0 <? 1) || (w + 2 * 0 <? 1)) = false).
  { apply orb_false_iff. split; apply Z.ltb_ge; lia. }
  rewrite Hfit. unfold window_out. rewrite !Z.div_1_r.
  repeat f_equal; lia.
Qed.

Lemma apply_BatchNorm2d (mode : bool) (n c h w : Z) :
  normalisable mode n h w ->
  apply_layer mode (BatchNorm2d c) [n; c; h; w] = Return [n; c; h; w].
Proof.
  intros Hvalues. cbn [apply_layer].
  assert (Hguard : mode && (n * h * w =? 1) = false).
  { destruct Hvalues as [-> | Hvalues]; [ reflexivity | ].
    apply Z.eqb_neq in Hvalues. rewrite Hvalues. apply andb_false_r. }
  rewrite Hguard, Z.eqb_refl. reflexivity.
Qed.

Lemma normalisable_even_height (mode : bool) (n h w : Z) : normalisable mode n (h * 2) w.
Proof.
  right. intros H.
  assert (Heven : 2 * (n * h * w) = 1) by (rewrite <- H; ring). lia.
Qed.

Lemma apply_MaxPool2d (mode : bool) (n c h w : Z) :
  0 < h -> 0 < w ->
  apply_layer mode (MaxPool2d 2 2) [n; c; h * 2; w * 2] = Return [n; c; h; w].
Proof.
  intros Hh Hw. cbn [apply_layer].
  assert (Hfit : ((h * 2 <? 2) || (w * 2 <? 2)) = false).
  { apply orb_false_iff. split; apply Z.ltb_ge; lia. }
  rewrite Hfit. unfold window_out.
  replace (h * 2 + 2 * 0 - 2) with ((h - 1) * 2) by lia.
  replace (w * 2 + 2 * 0 - 2) with ((w - 1) * 2) by lia.
  rewrite !Z.div_mul by lia. repeat f_equal; lia.
Qed.

Lemma apply_ConvTranspose2d (mode : bool) (n c cin cout h w : Z) :
  c = cin -> 0 < h -> 0 < w ->
  apply_layer mode (ConvTranspose2d cin cout 2 2) [n; c; h; w]
  = Return [n; cout; h * 2; w * 2].
Proof.
  intros -> Hh Hw. cbn [apply_layer]. rewrite Z.eqb_refl. cbn [negb].
  assert (Hfit : ((h <=? 0) || (w <=? 0)) = false).
  { apply orb_false_iff. split; apply Z.leb_gt; lia. }
  rewrite Hfit. repeat f_equal; lia.
Qed.

(** The modules. *)
Lemma yields_DoubleConvolutionalBlock (mode : bool) (n c cin cout h w : Z) :
  c = cin -> 0 < h -> 0 < w -> normalisable mode n h w ->
  yields (call mode (DoubleConvolutionalBlock cin cout) [n; c; h; w]) [n; cout; h; w].
Proof.
  intros Hc Hh Hw Hvalues. unfold call, DoubleConvolutionalBlock. cbn [module_layers].
  eapply yields_call_layers; [ apply apply_Conv2d_3; assumption | ].
  eapply yields_call_layers; [ apply apply_BatchNorm2d; exact Hvalues | ].
  eapply yields_call_layers; [ reflexivity | ].
  eapply yields_call_layers; [ apply apply_Conv2d_3; [ reflexivity | assumption .. ] | ].
  eapply yields_call_layers; [ apply apply_BatchNorm2d; exact Hvalues | ].
  eapply yields_call_layers; [ reflexivity | ].
  apply yields_ret.
Qed.

Lemma yields_pool (mode : bool) (n c h w : Z) :
  0 < h -> 0 < w ->
  yields (call mode (Single (MaxPool2d 2 2)) [n; c; h * 2; w * 2]) [n; c; h; w].
Proof.
  intros Hh Hw. unfold call. cbn [module_layers].
  eapply yields_call_layers; [ apply apply_MaxPool2d; assumption | apply yields_ret ].
Qed.

Lemma yields_up (mode : bool) (n c cin cout h w : Z) :
  c = cin -> 0 < h -> 0 < w ->
  yields (call mode (Single (ConvTranspose2d cin cout 2 2)) [n; c; h; w])
         [n; cout; h * 2; w * 2].
Proof.
  intros Hc Hh Hw. unfold call. cbn [module_layers].
  eapply yields_call_layers; [ apply apply_ConvTranspose2d; assumption | apply yields_ret ].
Qed.

Lemma yields_final (mode : bool) (n c cin cout h w : Z) :
  c = cin -> 0 < h -> 0 < w ->
  yields (call mode (Single (Conv2d cin cout 1 0)) [n; c; h; w]) [n; cout; h; w].
Proof.
  intros Hc Hh Hw. unfold call. cbn [module_layers].
  eapply yields_call_layers; [ apply apply_Conv2d_1; assumption | apply yields_ret ].
Qed.

(** ** The two loops of [forward] *)

Lemma index_app_second {A : Type} (pre suf : list A) (a b : A) :
  index (pre ++ a :: b :: suf) (len pre + 1) = Return b.
Proof.
  unfold len. replace (Z.of_nat (length pre) + 1) with (Z.of_nat (S (length pre))) by lia.
  apply index_nat. rewrite nth_error_app2 by lia.
  replace (S (length pre) - length pre)%nat with 1%nat by lia. reflexivity.
Qed.

Lemma pow2_S (k : nat) : 2 ^ Z.of_nat (S k) = 2 ^ Z.of_nat k * 2.
Proof. rewrite Nat2Z.inj_succ, Z.pow_succ_r by lia. lia. Qed.

Lemma pow2_positive (k : nat) : 0 < 2 ^ Z.of_nat k.
Proof. apply Z.pow_pos_nonneg; lia. Qed.

Lemma forward_downs_spec (mode : bool) (n : Z) (k : nat) :
  forall (i : nat) (c h w : Z) (skips : list Tensor),
    0 < h -> 0 < w ->
    yields (forward_downs mode (Single (MaxPool2d 2 2)) (downs_from i k c)
              [n; c; h * 2 ^ Z.of_nat k; w * 2 ^ Z.of_nat k] skips)
           ([n; channels_after i k c; h; w], skips ++ skips_from n i k h w).
Proof.
  induction k as [ | k IH ]; intros i c h w skips Hh Hw.
  - cbn [downs_from forward_downs skips_from channels_after].
    rewrite app_nil_r. change (2 ^ Z.of_nat 0) with 1. rewrite !Z.mul_1_r.
    apply yields_ret.
  - cbn [downs_from forward_downs].
    pose proof (pow2_positive k) as Hpow.
    rewrite pow2_S, !Z.mul_assoc.
    eapply yields_then.
    { apply yields_DoubleConvolutionalBlock;
        [ reflexivity | nia | nia | apply normalisable_even_height ]. }
    eapply yields_then.
    { apply yields_pool; nia. }
    replace (channels_after i (S k) c) with (channels_after (S i) k (feature i)).
    2:{ destruct k as [ | k' ]; cbn [channels_after].
        - rewrite Nat.add_0_r. reflexivity.
        - f_equal. lia. }
    replace (skips ++ skips_from n i (S k) h w)
      with ((skips ++ [[n; feature i; h * 2 ^ Z.of_nat k * 2; w * 2 ^ Z.of_nat k * 2]])
              ++ skips_from n (S i) k h w).
    2:{ rewrite <- app_assoc. cbn [skips_from app].
        rewrite pow2_S, !Z.mul_assoc. reflexivity. }
    apply IH; assumption.
Qed.

Lemma skips_from_snoc (n : Z) (k : nat) :
  forall (i : nat) (h w : Z),
    skips_from n i (S k) h w
    = skips_from n i k (h * 2) (w * 2) ++ [[n; feature (i + k); h * 2; w * 2]].
Proof.
  induction k as [ | k IH ]; intros i h w.
  - cbn [skips_from app]. rewrite Nat.add_0_r.
    change (2 ^ Z.of_nat 1) with 2. reflexivity.
  - change (skips_from n i (S (S k)) h w)
      with ([n; feature i; h * 2 ^ Z.of_nat (S (S k)); w * 2 ^ Z.of_nat (S (S k))]
              :: skips_from n (S i) (S k) h w).
    rewrite (IH (S i)). cbn [skips_from app].
    rewrite (pow2_S (S k)).
    replace (S i + k)%nat with (i + S k)%nat by lia.
    replace (h * (2 ^ Z.of_nat (S k) * 2)) with (h * 2 * 2 ^ Z.of_nat (S k)) by ring.
    replace (w * (2 ^ Z.of_nat (S k) * 2)) with (w * 2 * 2 ^ Z.of_nat (S k)) by ring.
    reflexivity.
Qed.

Lemma rev_skips_from (n : Z) (k : nat) (h w : Z) :
  rev (skips_from n 0 (S k) h w)
  = [n; feature k; h * 2; w * 2] :: rev (skips_from n 0 k (h * 2) (w * 2)).
Proof. rewrite skips_from_snoc, rev_app_distr. reflexivity. Qed.

Lemma forward_ups_spec (mode : bool) (n : Z) (k : nat) :
  forall (pre : list module) (spre : list Tensor) (h w : Z),
    length pre = (2 * length spre)%nat ->
    0 < h -> 0 < w ->
    yields (forward_ups mode (pre ++ ups_of k) (spre ++ rev (skips_from n 0 k h w))
              (range_from k (len pre) 2) [n; feature k; h; w])
           [n; 64; h * 2 ^ Z.of_nat k; w * 2 ^ Z.of_nat k].
Proof.
  induction k as [ | k IH ]; intros pre spre h w Hpre Hh Hw.
  - cbn [range_from forward_ups]. change (2 ^ Z.of_nat 0) with 1.
    rewrite !Z.mul_1_r. apply yields_ret.
  - cbn [range_from forward_ups ups_of]. rewrite rev_skips_from.
    eapply yields_then; [ apply yields_lift, index_app_head | ].
    eapply yields_then.
    { apply yields_up; [ apply feature_S | assumption .. ]. }
    eapply yields_then.
    { apply yields_lift.
      replace (len pre / 2) with (len spre).
      - apply index_app_head.
      - unfold len. rewrite Hpre, Nat2Z.inj_mul, Z.mul_comm, Z.div_mul by lia. reflexivity. }
    eapply yields_then.
    { apply yields_lift. cbn [cat1]. rewrite Z.eqb_refl, bool_decide_eq_true_2 by reflexivity.
      reflexivity. }
    eapply yields_then; [ apply yields_lift, index_app_second | ].
    eapply yields_then.
    { apply yields_DoubleConvolutionalBlock;
        [ lia | lia | lia | apply normalisable_even_height ]. }
    replace (pre ++ Single (ConvTranspose2d (feature k * 2) (feature k) 2 2)
                 :: DoubleConvolutionalBlock (feature k * 2) (feature k) :: ups_of k)
      with ((pre ++ [Single (ConvTranspose2d (feature k * 2) (feature k) 2 2);
                     DoubleConvolutionalBlock (feature k * 2) (feature k)]) ++ ups_of k)
      by (rewrite <- app_assoc; reflexivity).
    replace (spre ++ [n; feature k; h * 2; w * 2] :: rev (skips_from n 0 k (h * 2) (w * 2)))
      with ((spre ++ [[n; feature k; h * 2; w * 2]]) ++ rev (skips_from n 0 k (h * 2) (w * 2)))
      by (rewrite <- app_assoc; reflexivity).
    replace (len pre + 2)
      with (len (pre ++ [Single (ConvTranspose2d (feature k * 2) (feature k) 2 2);
                         DoubleConvolutionalBlock (feature k * 2) (feature k)]))
      by (unfold len; rewrite length_app; cbn [length]; lia).
    rewrite pow2_S.
    replace (h * (2 ^ Z.of_nat k * 2)) with (h * 2 * 2 ^ Z.of_nat k) by lia.
    replace (w * (2 ^ Z.of_nat k * 2)) with (w * 2 * 2 ^ Z.of_nat k) by lia.
    apply IH; [ | lia | lia ].
    rewrite !length_app. cbn [length]. lia.
Qed.

(** ** The shape [forward] returns *)

Lemma range_ups (k : nat) : range 0 (len (ups_of (S k))) 2 = range_from (S k) 0 2.
Proof.
  unfold range, len. rewrite length_ups_of.
  assert (Hguard : ((2 <=? 0) || (Z.of_nat (2 * S k) <=? 0)) = false).
  { apply orb_false_iff. split; apply Z.leb_gt; lia. }
  rewrite Hguard. f_equal.
  replace (Z.of_nat (2 * S k) - 0 + 2 - 1) with (1 + Z.of_nat (S k) * 2) by lia.
  rewrite Z.div_add, Z.div_small by lia. lia.
Qed.

(** The bottleneck is where the image is smallest: [h] by [w].  When its
    normalisation layers accept their input, the whole pass returns. *)
Lemma forward_network_yields (in_channels out_channels n : Z) (d : nat) (mode : bool)
    (h w : Z) :
  0 < h -> 0 < w -> normalisable mode n h w ->
  yields (forward (network in_channels out_channels (S d) mode)
            [n; in_channels; h * 2 ^ Z.of_nat (S d); w * 2 ^ Z.of_nat (S d)])
         [n; out_channels; h * 2 ^ Z.of_nat (S d); w * 2 ^ Z.of_nat (S d)].
Proof.
  intros Hh Hw Hvalues. pose proof (pow2_positive (S d)) as Hpow.
  unfold forward. cbn [downs ups pool bottleneck final_convolution training network].
  assert (Hlen : len (downs_from 0 (S d) in_channels) = Z.of_nat (S d))
    by (unfold len; rewrite length_downs_from; reflexivity).
  rewrite !Hlen.
  eapply yields_then; [ apply yields_lift; reflexivity | ].
  rewrite Z_mod_mult. cbn [Z.eqb negb].
  eapply yields_then.
  { eapply yields_then; [ apply yields_lift; reflexivity | ].
    rewrite Z_mod_mult. apply yields_ret. }
  cbn [Z.eqb negb].
  eapply yields_then.
  { apply (forward_downs_spec mode n (S d) 0 in_channels h w []); assumption. }
  cbn [app channels_after Nat.add]. rewrite Nat.sub_succ, Nat.sub_0_r.
  eapply yields_then.
  { apply yields_DoubleConvolutionalBlock; [ reflexivity | assumption .. ]. }
  rewrite <- feature_S, range_ups.
  eapply yields_then.
  { exact (forward_ups_spec mode n (S d) [] [] h w eq_refl Hh Hw). }
  apply yields_final; [ reflexivity | nia .. ].
Qed.

(** C5, with the mode of the network.  For every depth of at least one and
    every positive height and width that are multiples of [2 ^ depth],
    [UNet(3, 1, depth)] is constructed, and maps an input of shape
    [(batch, 3, height, width)] to an output of shape
    [(batch, 1, height, width)] once it is in evaluation mode; in training
    mode, the mode it is constructed in, it does so when the bottleneck
    holds more than one value per channel. *)
Theorem forward_shape (depth batch h w : Z) :
  1 <= depth -> 0 < h -> 0 < w ->
  h mod 2 ^ depth = 0 -> w mod 2 ^ depth = 0 ->
  exists net,
    UNet_init 3 1 depth = Return net
    /\ (exists trace,
          forward (UNet_train net false) [batch; 3; h; w] []
          = (trace, Return [batch; 1; h; w]))
    /\ (batch * (h / 2 ^ depth) * (w / 2 ^ depth) <> 1 ->
        exists trace,
          forward net [batch; 3; h; w] [] = (trace, Return [batch; 1; h; w])).
Proof.
  intros Hdepth Hh Hw Hhdiv Hwdiv.
  exists (network 3 1 (Z.to_nat depth) true).
  split; [ apply UNet_init_spec; exact Hdepth | ].
  assert (Hpow : 0 < 2 ^ depth) by (apply Z.pow_pos_nonneg; lia).
  destruct (Z.to_nat depth) as [ | d ] eqn:Hd; [ lia | ].
  assert (Hfactor : 2 ^ Z.of_nat (S d) = 2 ^ depth)
    by (rewrite <- Hd, Z2Nat.id; [ reflexivity | lia ]).
  assert (Hh' : h = h / 2 ^ depth * 2 ^ Z.of_nat (S d)).
  { rewrite Hfactor, Z.mul_comm. apply Z.div_exact; lia. }
  assert (Hw' : w = w / 2 ^ depth * 2 ^ Z.of_nat (S d)).
  { rewrite Hfactor, Z.mul_comm. apply Z.div_exact; lia. }
  assert (Hhb : 0 < h / 2 ^ depth) by nia.
  assert (Hwb : 0 < w / 2 ^ depth) by nia.
  split.
  - destruct (forward_network_yields 3 1 batch d false (h / 2 ^ depth) (w / 2 ^ depth)
                Hhb Hwb (or_introl eq_refl) []) as [trace Htrace].
    rewrite <- Hh', <- Hw' in Htrace. exists trace. exact Htrace.
  - intros Hvalues.
    destruct (forward_network_yields 3 1 batch d true (h / 2 ^ depth) (w / 2 ^ depth)
                Hhb Hwb (or_intror Hvalues) []) as [trace Htrace].
    rewrite <- Hh', <- Hw' in Htrace. exists trace. exact Htrace.
Qed.

(** The shape at depth 2, for a batch of five images of 8 by 12. *)
Lemma forward_shape_witness :
  exists net,
    UNet_init 3 1 2 = Return net
    /\ (exists trace,
          forward (UNet_train net false) [5; 3; 8; 12] [] = (trace, Return [5; 1; 8; 12]))
    /\ (5 * (8 / 2 ^ 2) * (12 / 2 ^ 2) <> 1 ->
        exists trace, forward net [5; 3; 8; 12] [] = (trace, Return [5; 1; 8; 12])).
Proof.
  apply (forward_shape 2 5 8 12); [ lia | lia | lia | reflexivity | reflexivity ].
Defined.

(** One image of 2 by 2 on [UNet(3, 1, 1)] as constructed: the bottleneck
    sees one value per channel, its first normalisation layer refuses it,
    and no output of shape [(1, 1, 2, 2)] is produced. *)
Lemma forward_shape_single_value :
  exists net,
    UNet_init 3 1 1 = Return net
    /\ snd (forward net [1; 3; 2; 2] [])
       = Raise (ValueError "Expected more than 1 value per channel when training").
Proof. eexists. split; reflexivity. Qed.

(* ===================================================================== *)
(** * Properties of [marker/model.py]                                     *)
(* ===================================================================== *)

Section Lifecycle_properties.

Context `{runtime : Runtime}.

(** ** [train] *)

(** The body of the loop writes the weights and the optimiser, and nothing
    else. *)
Lemma train_on_batch_frame (self : Marker) (batch : Batch) :
  let self' := fst (train_on_batch self batch) in
  loss self' = loss self /\ iterations self' = iterations self
  /\ device self' = device self /\ model self' = model self
  /\ width self' = width self /\ height self' = height self /\ depth self' = depth self.
Proof.
  unfold train_on_batch.
  destruct (forward (model self) (images batch) []) as [log [ predictions | e ]]; simpl.
  - destruct (bool_decide (masks batch = predictions)); simpl.
    + destruct (backward_step _ _ _) as [[weights' moments'] l]. simpl. tauto.
    + tauto.
  - tauto.
Qed.

Lemma train_loop_frame (loader : list Batch) :
  forall (self : Marker) (average : list Float),
    let self' := fst (train_loop self loader average) in
    loss self' = loss self /\ iterations self' = iterations self
    /\ device self' = device self /\ model self' = model self
    /\ width self' = width self /\ height self' = height self /\ depth self' = depth self.
Proof.
  induction loader as [ | batch rest IH ]; intros self average; simpl.
  - tauto.
  - pose proof (train_on_batch_frame self batch) as Hbody.
    destruct (train_on_batch self batch) as [self1 [ l | e ]]; simpl in *.
    + specialize (IH self1 (average ++ [l])). simpl in IH.
      destruct IH as (-> & -> & -> & -> & -> & -> & ->). exact Hbody.
    + exact Hbody.
Qed.

(** When every batch goes through, the loop records the per-batch losses
    after what it was given, one for each batch. *)
Lemma train_loop_returns (loader : list Batch) :
  forall (self : Marker) (average losses : list Float),
    batch_losses self loader = Some losses ->
    snd (train_loop self loader average) = Return (average ++ losses)
    /\ length losses = length loader.
Proof.
  induction loader as [ | batch rest IH ]; intros self average losses H; simpl in *.
  - injection H as <-. rewrite app_nil_r. split; reflexivity.
  - destruct (train_on_batch self batch) as [self1 [ l | e ]]; [ | discriminate ].
    destruct (batch_losses self1 rest) as [ losses' | ] eqn:Hrest; [ | discriminate ].
    injection H as <-.
    destruct (IH self1 (average ++ [l]) losses' Hrest) as [Hloop Hlength].
    rewrite Hloop, <- app_assoc. simpl. split; [ reflexivity | congruence ].
Qed.

(** C2. For every loader of [N >= 1] batches that all go through, [train]
    returns: it has set [loss] to the sum of the [N] per-batch losses
    divided by [N], has incremented [iterations] by exactly one, and the
    record it returns carries that loss and that count. *)
Theorem train_mean_loss (self : Marker) (start stop : Q) (loader : list Batch)
    (losses : list Float) :
  loader <> [] ->
  batch_losses (set_training self true) loader = Some losses ->
  exists self' record,
    Marker_train self start stop loader = (self', Return record)
    /\ len losses = len loader
    /\ loss self' = py_truediv (py_sum losses) (len loader)
    /\ iterations self' = iterations self + 1
    /\ telemetry_loss record = loss self'
    /\ telemetry_iterations record = iterations self'.
Proof.
  intros Hloader Hlosses. unfold Marker_train.
  destruct (train_loop_returns loader _ [] losses Hlosses) as [Hloop Hlength].
  pose proof (train_loop_frame loader (set_training self true) []) as Hframe.
  destruct (train_loop (set_training self true) loader []) as [self1 r].
  simpl in Hloop, Hframe. subst r.
  assert (Hlen : len losses = len loader) by (unfold len; congruence).
  assert (Hnonzero : (len losses =? 0) = false).
  { apply Z.eqb_neq. rewrite Hlen. unfold len. destruct loader; [ congruence | simpl; lia ]. }
  rewrite Hnonzero. eexists. eexists. split; [ reflexivity | ].
  simpl. rewrite Hlen. destruct Hframe as (_ & -> & _). repeat split; reflexivity || exact Hlen.
Qed.

(** C9. With a loader of no batch, [train] fails on the division by zero
    and leaves [loss] and [iterations] as they were; more generally, however
    [train] fails, both are as they were, since they are written after the
    loop only. *)
Theorem train_failure_keeps_progress (self : Marker) (start stop : Q) :
  (exists self',
     Marker_train self start stop [] = (self', Raise (ZeroDivisionError "division by zero"))
     /\ loss self' = loss self /\ iterations self' = iterations self)
  /\ (forall (loader : list Batch) (self' : Marker) (e : exn),
        Marker_train self start stop loader = (self', Raise e) ->
        loss self' = loss self /\ iterations self' = iterations self).
Proof.
  split.
  - eexists. split; [ reflexivity | split; reflexivity ].
  - intros loader self' e H. unfold Marker_train in H.
    pose proof (train_loop_frame loader (set_training self true) []) as Hframe.
    destruct (train_loop (set_training self true) loader []) as [self1 [ average | e1 ]];
      simpl in Hframe.
    + destruct (len average =? 0); [ | discriminate ].
      injection H as <- _. tauto.
    + injection H as <- _. tauto.
Qed.

(** ** [mark] *)

(** What [fit_tensor] returns has three dimensions, as its argument. *)
Lemma fit_tensor_three_dimensions (tensor fitted : Tensor) (width height : Z)
    (transform : Z * Z * Z * Z) :
  fit_tensor tensor width height = Return (fitted, transform) ->
  exists channels h w, fitted = [channels; h; w].
Proof.
  destruct transform as [[[offset_x offset_y] new_width] new_height]. intros H.
  destruct (fit_tensor_inversion _ _ _ _ _ _ _ _ H)
    as (channels & _ & _ & _ & _ & _ & _ & _ & _ & _ & _ & _ & -> & _).
  eauto.
Qed.

(** [mark] never returns a mask: an image of three dimensions is fitted to a
    tensor of three dimensions, on which [forward] fails to read
    [input.shape[3]]; any other image is refused by [fit_tensor]. *)
Lemma Marker_mark_raises (self : Marker) (image : Tensor) :
  raises (snd (Marker_mark self image)).
Proof.
  unfold Marker_mark. cbn [snd].
  destruct (fit_tensor image (width (set_training self false))
              (height (set_training self false)))
    as [ [fitted [[[offset_x offset_y] new_width] new_height]] | e ] eqn:Hfit.
  - apply fit_tensor_three_dimensions in Hfit as (channels & h & w & ->).
    cbn [bind]. rewrite forward_three_dimensions. cbn [snd bind].
    eexists. reflexivity.
  - eexists. reflexivity.
Qed.

(** [mark] reads the marker's size and network only, and switches the
    network to evaluation: [loss], [iterations] and the values are kept. *)
Lemma Marker_mark_frame (self : Marker) (image : Tensor) :
  fst (Marker_mark self image) = set_training self false.
Proof. reflexivity. Qed.

Lemma Marker_mark_keeps_progress (self : Marker) (image : Tensor) :
  let self' := fst (Marker_mark self image) in
  loss self' = loss self /\ iterations self' = iterations self
  /\ weights self' = weights self /\ optimizer self' = optimizer self.
Proof. repeat split. Qed.

Lemma Marker_mark_reads (self other : Marker) (image : Tensor) :
  width other = width self -> height other = height self -> model other = model self ->
  snd (Marker_mark other image) = snd (Marker_mark self image).
Proof.
  intros Hw Hh Hm. unfold Marker_mark. cbn [snd set_training width height model].
  rewrite Hw, Hh, Hm. reflexivity.
Qed.

(** ** [__init__], [save] and [load] *)

Lemma Marker_init_returns (device : string) (width height depth : Z) :
  device_valid device = true -> device_available device = true -> 1 <= depth ->
  exists self,
    Marker_init device width height depth = Return self
    /\ Ready self
    /\ Model.width self = width /\ Model.height self = height /\ Model.depth self = depth
    /\ loss self = float_one /\ iterations self = 0.
Proof.
  intros Hvalid Havailable Hdepth. unfold Marker_init. rewrite Hvalid.
  rewrite (UNet_init_spec 3 1 depth Hdepth). cbn [bind]. rewrite Havailable.
  eexists. split; [ reflexivity | ].
  split; [ | repeat split ].
  split; [ exact Hvalid | split; [ exact Havailable | apply UNet_init_spec; exact Hdepth ] ].
Qed.

(** [Ready] is kept by every operation on a marker. *)
Lemma Marker_train_Ready (self : Marker) (start stop : Q) (loader : list Batch) :
  Ready self -> Ready (fst (Marker_train self start stop loader)).
Proof.
  unfold Ready, Marker_train. intros (Hvalid & Havailable & Hmodel).
  pose proof (train_loop_frame loader (set_training self true) []) as Hframe.
  destruct (train_loop (set_training self true) loader []) as [self1 [ average | e ]];
    simpl in Hframe; destruct Hframe as (_ & _ & Hd & Hm & _ & _ & Hdepth).
  - destruct (len average =? 0); simpl; rewrite Hd, Hm, Hdepth; auto.
  - simpl. rewrite Hd, Hm, Hdepth. auto.
Qed.

Lemma Marker_mark_Ready (self : Marker) (image : Tensor) :
  Ready self -> Ready (fst (Marker_mark self image)).
Proof. intros H. exact H. Qed.

(** A marker in the state [Ready] has at least one level, and its network
    is, but for its mode, the one of the closed form. *)
Lemma Ready_network (self : Marker) :
  Ready self ->
  1 <= depth self
  /\ UNet_train (model self) true = network 3 1 (Z.to_nat (depth self)) true.
Proof.
  intros (_ & _ & Hmodel).
  destruct (Z_lt_le_dec (depth self) 1) as [Hsmall | Hdepth].
  - destruct (UNet_init_no_level 3 1 (depth self)) as [e He]; [ lia | congruence ].
  - split; [ exact Hdepth | ].
    rewrite (UNet_init_spec 3 1 (depth self) Hdepth) in Hmodel. congruence.
Qed.

(** What a call of [save] that returns has written: the fields of the
    marker, under the file the path names. *)
Lemma Marker_save_returns (self : Marker) (files files' : Files) (path : string) :
  Marker_save self files path = (files', Return tt) ->
  locate files' = locate files
  /\ exists file,
       locate files path = Return file
       /\ stored files' !! file
          = Some {| saved_width := width self;
                    saved_height := height self;
                    saved_depth := depth self;
                    saved_loss := loss self;
                    saved_iterations := iterations self;
                    saved_model_state := model_state_dict self;
                    saved_optimizer_state := optimizer_state self |}.
Proof.
  unfold Marker_save. intros H.
  destruct (locate files path) as [ file | e ]; [ | discriminate H ].
  injection H as <-. cbn [locate stored]. split; [ reflexivity | ].
  exists file. split; [ reflexivity | ]. apply lookup_insert_eq.
Qed.

(** What [load] returns for a file that a [Ready] marker has saved, read
    through any spelling of it: the marker itself, on the device asked for
    and with its network in training mode. *)
Lemma Marker_load_saved (self : Marker) (files files' : Files)
    (device path other : string) :
  Ready self -> device_valid device = true -> device_available device = true ->
  Marker_save self files path = (files', Return tt) ->
  locate files other = locate files path ->
  Marker_load files' device other
  = Return {| Model.device := device; model := UNet_train (model self) true;
              weights := weights self; width := width self; height := height self;
              depth := depth self; loss := loss self; iterations := iterations self;
              optimizer := optimizer self |}.
Proof.
  intros (_ & _ & Hmodel) Hvalid Havailable Hsave Hother.
  destruct (Marker_save_returns self files files' path Hsave) as (Hlocate & file & Hfile & Hdata).
  unfold Marker_load.
  assert (Hlookup : files' !! other
                    = Some {| saved_width := width self;
                              saved_height := height self;
                              saved_depth := depth self;
                              saved_loss := loss self;
                              saved_iterations := iterations self;
                              saved_model_state := model_state_dict self;
                              saved_optimizer_state := optimizer_state self |}).
  { unfold lookup, Files_lookup. rewrite Hlocate, Hother, Hfile. exact Hdata. }
  rewrite Hlookup.
  cbn [saved_width saved_height saved_depth saved_loss saved_iterations
       saved_model_state saved_optimizer_state].
  unfold Marker_init. rewrite Hvalid, Havailable, Hmodel. cbn [andb negb bind].
  unfold model_load_state_dict. cbn [model entries model_state_dict].
  rewrite bool_decide_eq_true_2 by reflexivity. cbn [bind].
  unfold optimizer_load_state_dict. cbn [model set_weights group_size optimizer_state].
  rewrite Z.eqb_refl. reflexivity.
Qed.

(** C1.  For every marker in the state [Ready] with [iterations = k] and
    every call of [save] that returns, [load] of the file, through the same
    path or another spelling of it and on an available device, returns a
    marker with the same [width], [height], [depth] and [loss], with
    [iterations = k], that holds the very values and optimiser state of the
    original, in a network of the same modules.  Its [mark] produces no
    output to compare: on every image it raises, the exception the original
    raises. *)
Theorem save_load_round_trip (self : Marker) (files files' : Files)
    (device path other : string) (k : Z) :
  Ready self ->
  device_valid device = true -> device_available device = true ->
  iterations self = k ->
  Marker_save self files path = (files', Return tt) ->
  locate files other = locate files path ->
  exists loaded,
    Marker_load files' device other = Return loaded
    /\ width loaded = width self /\ height loaded = height self
    /\ depth loaded = depth self
    /\ loss loaded = loss self /\ iterations loaded = k
    /\ weights loaded = weights self
    /\ optimizer loaded = optimizer self
    /\ model loaded = UNet_train (model self) true
    /\ model_state_dict loaded = model_state_dict self
    /\ optimizer_state loaded = optimizer_state self
    /\ Ready loaded
    /\ forall image, exists e,
         snd (Marker_mark loaded image) = Raise e
         /\ snd (Marker_mark self image) = Raise e.
Proof.
  intros Hready Hvalid Havailable Hk Hsave Hother.
  eexists. split.
  { exact (Marker_load_saved self files files' device path other
             Hready Hvalid Havailable Hsave Hother). }
  destruct Hready as (_ & _ & Hmodel).
  repeat split; try reflexivity; try assumption.
  intros image. destruct (Marker_mark_raises self image) as [e He].
  exists e. split; exact He.
Qed.

(** ** The host process *)

(** [save_marker] before any marker was initialised or loaded. *)
Lemma save_marker_uninitialised (files : Files) (path : string) :
  Main.save_marker None files path = (files, Raise (Exception "No marker model loaded.")).
Proof. reflexivity. Qed.

(** Once [init_marker] has returned, the host holds a marker that is [Ready]. *)
Lemma init_marker_Ready (host : Main.Host) (device : string) (width height depth : Z) :
  snd (Main.init_marker host device width height depth) = Return tt ->
  exists self, fst (Main.init_marker host device width height depth) = Some self /\ Ready self.
Proof.
  unfold Main.init_marker, Marker_init.
  destruct (device_valid device) eqn:Hvalid; [ | discriminate ].
  destruct (UNet_init 3 1 depth) as [ net | e ] eqn:Hnet; [ | discriminate ].
  cbn [bind]. destruct (device_available device) eqn:Havailable; [ | discriminate ].
  intros _. eexists. split; [ reflexivity | ].
  split; [ exact Hvalid | split; [ exact Havailable | ] ].
  cbn [Model.depth Model.model]. rewrite (UNet_init_training 3 1 depth net Hnet). exact Hnet.
Qed.

End Lifecycle_properties.

(** The epoch of [two_batches] on [trained_marker]: the mean of 1/2 and 1/4. *)
Lemma train_mean_loss_witness :
  exists self' record,
    @Marker_train Examples.counting_runtime Examples.trained_marker 0 7 Examples.two_batches
      = (self', Return record)
    /\ len [(1 # 2)%Q; (1 # 4)%Q] = len Examples.two_batches
    /\ loss self' = @py_truediv Examples.counting_runtime
                      (@py_sum Examples.counting_runtime [(1 # 2)%Q; (1 # 4)%Q])
                      (len Examples.two_batches)
    /\ iterations self' = iterations Examples.trained_marker + 1
    /\ telemetry_loss record = loss self'
    /\ telemetry_iterations record = iterations self'.
Proof.
  apply (@train_mean_loss Examples.counting_runtime Examples.trained_marker 0 7
           Examples.two_batches [(1 # 2)%Q; (1 # 4)%Q]).
  - discriminate.
  - reflexivity.
Defined.

(** [trained_marker] saved as ["marker.pt"] and loaded again as
    ["./marker.pt"]. *)
Lemma save_load_round_trip_witness :
  exists loaded,
    @Marker_load Examples.counting_runtime
      (fst (Marker_save Examples.trained_marker Examples.empty_disk "marker.pt"))
      "cpu" "./marker.pt" = Return loaded
    /\ width loaded = width Examples.trained_marker
    /\ height loaded = height Examples.trained_marker
    /\ depth loaded = depth Examples.trained_marker
    /\ loss loaded = loss Examples.trained_marker /\ iterations loaded = 3
    /\ weights loaded = weights Examples.trained_marker
    /\ optimizer loaded = optimizer Examples.trained_marker
    /\ model loaded = UNet_train (model Examples.trained_marker) true
    /\ model_state_dict loaded = model_state_dict Examples.trained_marker
    /\ optimizer_state loaded = optimizer_state Examples.trained_marker
    /\ Ready loaded
    /\ forall image, exists e,
         snd (Marker_mark loaded image) = Raise e
         /\ snd (Marker_mark Examples.trained_marker image) = Raise e.
Proof.
  apply (@save_load_round_trip Examples.counting_runtime Examples.trained_marker
           Examples.empty_disk _ "cpu" "marker.pt" "./marker.pt" 3).
  - repeat split; reflexivity.
  - reflexivity.
  - reflexivity.
  - reflexivity.
  - reflexivity.
  - reflexivity.
Defined.

(** C3. [mark] is evaluated on an image of three channels and 64 by 64, the
    size of the marker itself: the image is fitted to [(3, 64, 64)], and the
    forward pass fails to read [input.shape[3]] of it, where a mask of 64 by
    64 is expected. *)
Theorem Marker_mark_three_dimensions :
  snd (Marker_mark Examples.trained_marker [3; 64; 64])
  = Raise (IndexError "index out of range").
Proof. reflexivity. Qed.

(* ===================================================================== *)
(** * Properties of [marker/loader.py]                                    *)
(* ===================================================================== *)

(** [Entry] has no attribute [exists], whatever its two paths are. *)
Lemma Entry_exists_raises (entry : Entry) :
  Entry_exists entry = Raise (AttributeError "'Entry' object has no attribute 'exists'").
Proof. reflexivity. Qed.

(** A loader is constructed over a dataset that lists nothing, and over no
    other: the first listed name either is missing from the map or reaches
    the call of [exists]. *)
Lemma MarkerLoader_init_empty (dataset : Dataset) (width height : Z) :
  Dataset_list dataset = [] ->
  MarkerLoader_init dataset width height
  = Return {| loader_entries := []; loader_width := width; loader_height := height |}.
Proof. intros H. unfold MarkerLoader_init. rewrite H. reflexivity. Qed.

Lemma MarkerLoader_init_raises (dataset : Dataset) (width height : Z) :
  Dataset_list dataset <> [] -> raises (MarkerLoader_init dataset width height).
Proof.
  intros H. unfold MarkerLoader_init.
  destruct (Dataset_list dataset) as [ | name rest ]; [ congruence | ].
  cbn [append_entries].
  destruct (Dataset_get dataset name) as [ entry | e ]; cbn [bind].
  - rewrite Entry_exists_raises. eexists. reflexivity.
  - eexists. reflexivity.
Qed.

(** C8. A loader is evaluated over the dataset built from two names of six
    segments, which lists one complete entry: the constructor raises at
    [entry.exists()], where a loader holding that entry is expected. *)
Theorem MarkerLoader_init_complete_entry :
  Dataset_init Examples.six_segment_files "." "name"
    = Return Examples.six_segment_dataset
  /\ MarkerLoader_init Examples.six_segment_dataset 64 64
     = Raise (AttributeError "'Entry' object has no attribute 'exists'").
Proof. split; reflexivity. Qed.

(* ===================================================================== *)
(** * Further properties of [utilities.py]                                *)
(* ===================================================================== *)

(** ** [Dataset.__init__] *)

(** Whatever the order, an empty list of ids is left as it is. *)
Lemma sort_entries_nil (sort : string) : sort_entries sort [] = Return [].
Proof.
  unfold sort_entries.
  destruct (String.eqb sort "name"); [ reflexivity | ].
  destruct (String.eqb sort "date" || String.eqb sort "size"); reflexivity.
Qed.

Lemma scan_files_five_segments (fs : filesystem) (directory : string)
    (filenames : list string) (entry_map : dict Entry) :
  Forall (fun filename => exists c rest, filename = String c rest /\ c <> "."%char
                          /\ len (split "-" filename) = 5) filenames ->
  scan_files fs directory filenames entry_map = Return entry_map.
Proof.
  induction 1 as [ | filename filenames (c & rest & -> & Hdot & Hlen) _ IH ]; simpl.
  - reflexivity.
  - rewrite (scan_file_five_segments fs directory c rest entry_map Hdot Hlen).
    cbn [bind]. exact IH.
Qed.

(** X1. When every name in the working directory has exactly five segments
    and does not start with a dot, which is the documented layout of a
    dataset, [Dataset] is constructed with no entry, whatever the files are
    and whatever the order asked for. *)
Theorem Dataset_init_documented_layout (fs : filesystem) (directory sort : string) :
  Forall (fun filename => exists c rest, filename = String c rest /\ c <> "."%char
                          /\ len (split "-" filename) = 5) (listdir_cwd fs) ->
  Dataset_init fs directory sort
  = Return {| Utilities.directory := directory; Utilities.sort := sort;
              entry_map := []; entry_list := [] |}.
Proof.
  intros Hnames. unfold Dataset_init.
  rewrite (scan_files_five_segments fs directory _ [] Hnames). cbn [bind collect_entries].
  rewrite sort_entries_nil. reflexivity.
Qed.

Lemma Dataset_init_documented_layout_witness :
  Dataset_init Examples.paired_files "." "size"
  = Return {| Utilities.directory := "."; Utilities.sort := "size";
              entry_map := []; entry_list := [] |}.
Proof.
  apply (Dataset_init_documented_layout Examples.paired_files "." "size").
  repeat constructor.
  - exists "a"%char, "-b-c-d-image.png". repeat split; [ discriminate ].
  - exists "a"%char, "-b-c-d-mask.png". repeat split; [ discriminate ].
Defined.

Lemma index_raises {A : Type} (l : list A) (i : Z) (e : exn) :
  index l i = Raise e -> e = IndexError "index out of range".
Proof.
  unfold index. intros H.
  destruct ((if i <? 0 then i + len l else i) <? 0); [ congruence | ].
  destruct (nth_error l _); congruence.
Qed.

Lemma index_beyond {A : Type} (l : list A) (i : Z) :
  len l <= i -> index l i = Raise (IndexError "index out of range").
Proof.
  intros Hi. unfold index, len in *.
  assert (Hneg : (i <? 0) = false) by (apply Z.ltb_ge; lia).
  rewrite !Hneg.
  destruct (nth_error l (Z.to_nat i)) eqn:Hnth; [ | reflexivity ].
  assert (Hsome : nth_error l (Z.to_nat i) <> None) by congruence.
  apply nth_error_Some in Hsome. lia.
Qed.

(** The only exception the first loop raises is an [IndexError]. *)
Lemma scan_file_raises (fs : filesystem) (directory filename : string)
    (entry_map : dict Entry) (e : exn) :
  scan_file fs directory filename entry_map = Raise e -> exists msg, e = IndexError msg.
Proof.
  unfold scan_file. intros H.
  destruct (isfile fs _); [ | discriminate ].
  destruct filename as [ | c rest ]; [ injection H as <-; eauto | ].
  cbn [bind] in H.
  destruct (Ascii.eqb c "." || negb (len (split "-" (String c rest)) =? 5));
    [ | discriminate ].
  destruct (index (split "-" (String c rest)) 4) as [ role | e' ] eqn:Hrole.
  - cbn [bind] in H.
    destruct (String.eqb role "image");
      [ destruct (dict_contains _ _); discriminate | ].
    destruct (String.eqb role "mask");
      [ destruct (dict_contains _ _); discriminate | discriminate ].
  - cbn [bind] in H. injection H as <-. apply index_raises in Hrole. eauto.
Qed.

Lemma scan_file_short_name (fs : filesystem) (directory filename : string)
    (entry_map : dict Entry) :
  isfile fs (os_path_join directory filename) = true ->
  len (split "-" filename) < 5 ->
  exists msg, scan_file fs directory filename entry_map = Raise (IndexError msg).
Proof.
  intros Hfile Hlen. unfold scan_file. rewrite Hfile.
  destruct filename as [ | c rest ]; [ eexists; reflexivity | ].
  cbn [bind].
  assert (Hfive : (len (split "-" (String c rest)) =? 5) = false)
    by (apply Z.eqb_neq; lia).
  rewrite Hfive, orb_true_r, index_beyond by lia.
  eexists. reflexivity.
Qed.

Lemma scan_files_short_name (fs : filesystem) (directory filename : string)
    (filenames : list string) :
  In filename filenames ->
  isfile fs (os_path_join directory filename) = true ->
  len (split "-" filename) < 5 ->
  forall entry_map,
    exists msg, scan_files fs directory filenames entry_map = Raise (IndexError msg).
Proof.
  intros Hin Hfile Hlen.
  induction filenames as [ | first rest IH ]; [ contradiction | ].
  intros entry_map. cbn [scan_files].
  destruct (scan_file fs directory first entry_map) as [ entry_map' | e ] eqn:Hfirst.
  - cbn [bind]. destruct Hin as [-> | Hin]; [ | apply IH; exact Hin ].
    destruct (scan_file_short_name fs directory filename entry_map Hfile Hlen) as [msg H].
    congruence.
  - cbn [bind]. apply scan_file_raises in Hfirst as [msg ->]. eauto.
Qed.

(** X2. A regular file in the working directory whose name has fewer than
    five segments (a name without hyphens, for one) makes the construction
    of a [Dataset] fail with an [IndexError], whatever else is there. *)
Theorem Dataset_init_short_name (fs : filesystem) (directory sort filename : string) :
  In filename (listdir_cwd fs) ->
  isfile fs (os_path_join directory filename) = true ->
  len (split "-" filename) < 5 ->
  exists msg, Dataset_init fs directory sort = Raise (IndexError msg).
Proof.
  intros Hin Hfile Hlen. unfold Dataset_init.
  destruct (scan_files_short_name fs directory filename _ Hin Hfile Hlen []) as [msg ->].
  exists msg. reflexivity.
Qed.

Lemma Dataset_init_short_name_witness :
  exists msg,
    Dataset_init {| listdir_cwd := ["a-b-c-d-image-x"; "notes.txt"]; isfile := fun _ => true |}
      "." "name"
    = Raise (IndexError msg).
Proof.
  apply (Dataset_init_short_name
           {| listdir_cwd := ["a-b-c-d-image-x"; "notes.txt"]; isfile := fun _ => true |}
           "." "name" "notes.txt").
  - right. left. reflexivity.
  - reflexivity.
  - vm_compute. reflexivity.
Defined.

(** Keys of the dictionary: an update keeps them, an assignment adds a key
    that is new at the end. *)
Lemma dict_contains_In {V : Type} (d : dict V) (key : string) :
  dict_contains d key = true <-> In key (map fst d).
Proof.
  unfold dict_contains. induction d as [ | [k v] d IH ]; simpl.
  - split; [ discriminate | contradiction ].
  - destruct (String.eqb_spec k key) as [-> | Hne].
    + split; [ intros _; left; reflexivity | reflexivity ].
    + rewrite IH. split; [ intros H; right; exact H | intros [H | H]; [ congruence | exact H ] ].
Qed.

Lemma dict_update_keys {V : Type} (d : dict V) (key : string) (f : V -> V) :
  map fst (dict_update d key f) = map fst d.
Proof.
  induction d as [ | [k v] d IH ]; simpl; [ reflexivity | ].
  destruct (String.eqb k key); simpl; [ reflexivity | rewrite IH; reflexivity ].
Qed.

Lemma dict_set_keys {V : Type} (d : dict V) (key : string) (v : V) :
  dict_contains d key = false -> map fst (dict_set d key v) = map fst d ++ [key].
Proof.
  unfold dict_contains. induction d as [ | [k v'] d IH ]; simpl; [ reflexivity | ].
  destruct (String.eqb k key); [ discriminate | ].
  intros H. simpl. rewrite IH by exact H. reflexivity.
Qed.

Lemma dict_get_In {V : Type} (d : dict V) (key : string) :
  In key (map fst d) -> exists v, dict_get d key = Some v /\ In (key, v) d.
Proof.
  induction d as [ | [k v] d IH ]; simpl; [ contradiction | ].
  destruct (String.eqb_spec k key) as [-> | Hne].
  - intros _. exists v. split; [ reflexivity | left; reflexivity ].
  - intros [H | H]; [ congruence | ].
    destruct (IH H) as (v' & Hget & Hin). exists v'. split; [ exact Hget | right; exact Hin ].
Qed.

Lemma NoDup_snoc (l : list string) (key : string) :
  List.NoDup l -> ~ In key l -> List.NoDup (l ++ [key]).
Proof.
  induction 1 as [ | x l Hx Hl IH ]; intros Hkey; simpl.
  - constructor; [ intros [] | constructor ].
  - constructor.
    + rewrite in_app_iff. intros [H | [-> | []]]; [ exact (Hx H) | ].
      apply Hkey. left. reflexivity.
    + apply IH. intros H. apply Hkey. right. exact H.
Qed.

(** The first loop never stores an id twice. *)
Lemma scan_file_keys (fs : filesystem) (directory filename : string)
    (entry_map entry_map' : dict Entry) :
  scan_file fs directory filename entry_map = Return entry_map' ->
  List.NoDup (map fst entry_map) -> List.NoDup (map fst entry_map').
Proof.
  unfold scan_file. intros H Hkeys.
  destruct (isfile fs _); [ | injection H as <-; exact Hkeys ].
  destruct filename as [ | c rest ]; [ discriminate | ].
  cbn [bind] in H.
  destruct (Ascii.eqb c "." || negb (len (split "-" (String c rest)) =? 5));
    [ | injection H as <-; exact Hkeys ].
  destruct (index (split "-" (String c rest)) 4) as [ role | e ]; [ | discriminate ].
  cbn [bind] in H.
  set (id := join "-" (slice (split "-" (String c rest)) 0 4)) in *.
  assert (Hset : forall entry, dict_contains entry_map id = false ->
                   List.NoDup (map fst (dict_set entry_map id entry))).
  { intros entry Hnew. rewrite dict_set_keys by exact Hnew.
    apply NoDup_snoc; [ exact Hkeys | ].
    intros Hin. apply dict_contains_In in Hin. congruence. }
  destruct (String.eqb role "image").
  { destruct (dict_contains entry_map id) eqn:Hid; injection H as <-.
    - rewrite dict_update_keys. exact Hkeys.
    - apply Hset. reflexivity. }
  destruct (String.eqb role "mask").
  { destruct (dict_contains entry_map id) eqn:Hid; injection H as <-.
    - rewrite dict_update_keys. exact Hkeys.
    - apply Hset. reflexivity. }
  injection H as <-. exact Hkeys.
Qed.

Lemma scan_files_keys (fs : filesystem) (directory : string) (filenames : list string) :
  forall entry_map entry_map',
    scan_files fs directory filenames entry_map = Return entry_map' ->
    List.NoDup (map fst entry_map) -> List.NoDup (map fst entry_map').
Proof.
  induction filenames as [ | filename rest IH ]; intros entry_map entry_map' H Hkeys.
  - injection H as <-. exact Hkeys.
  - cbn [scan_files] in H.
    destruct (scan_file fs directory filename entry_map) as [ entry_map1 | ] eqn:Hfirst;
      [ | discriminate ].
    cbn [bind] in H. apply (IH entry_map1 entry_map' H).
    exact (scan_file_keys fs directory filename entry_map entry_map1 Hfirst Hkeys).
Qed.

(** The order asked for rearranges the ids, if it returns. *)
Lemma sort_entries_Permutation (sort : string) (entry_list sorted_list : list string) :
  sort_entries sort entry_list = Return sorted_list -> Permutation entry_list sorted_list.
Proof.
  unfold sort_entries.
  destruct (String.eqb sort "name").
  { intros H. injection H as <-. apply sorted_Permutation. }
  destruct (String.eqb sort "date" || String.eqb sort "size").
  { destruct entry_list; [ | discriminate ]. intros H. injection H as <-. constructor. }
  intros H. injection H as <-. reflexivity.
Qed.

(** What a constructed dataset holds: the map, the list it was collected
    into before sorting, and the facts about both. *)
Lemma Dataset_init_returns (fs : filesystem) (directory sort : string) (self : Dataset) :
  Dataset_init fs directory sort = Return self ->
  scan_files fs directory (listdir_cwd fs) [] = Return (entry_map self)
  /\ Forall (fun kv => incomplete (snd kv) = false) (entry_map self)
  /\ sort_entries sort (map fst (entry_map self)) = Return (entry_list self).
Proof.
  unfold Dataset_init. intros H.
  destruct (scan_files fs directory (listdir_cwd fs) []) as [ items | ]; [ | discriminate ].
  cbn [bind] in H.
  destruct (collect_entries items []) as [ collected | ] eqn:Hcollect; [ | discriminate ].
  cbn [bind] in H.
  destruct (sort_entries sort collected) as [ sorted_list | ] eqn:Hsort; [ | discriminate ].
  cbn [bind] in H. injection H as <-. cbn [entry_map entry_list].
  apply collect_entries_returns in Hcollect as [-> Hcomplete].
  split; [ reflexivity | split; [ exact Hcomplete | exact Hsort ] ].
Qed.

(** X3. A [Dataset] that is constructed lists every id of its map exactly
    once, and every listed id is the key of an entry that has both its
    image path and its mask path; [size] counts these entries. *)
Theorem Dataset_init_complete_entries (fs : filesystem) (directory sort : string)
    (self : Dataset) :
  Dataset_init fs directory sort = Return self ->
  List.NoDup (Dataset_list self)
  /\ Permutation (map fst (entry_map self)) (Dataset_list self)
  /\ Dataset_size self = len (entry_map self)
  /\ forall name, In name (Dataset_list self) ->
       exists image mask,
         Dataset_get self name
         = Return {| image_path := Some image; mask_path := Some mask |}.
Proof.
  intros H.
  destruct (Dataset_init_returns fs directory sort self H) as (Hscan & Hcomplete & Hsort).
  unfold Dataset_list, Dataset_size, Dataset_get.
  pose proof (sort_entries_Permutation _ _ _ Hsort) as Hperm.
  assert (Hkeys : List.NoDup (map fst (entry_map self))).
  { apply (scan_files_keys fs directory _ [] _ Hscan). constructor. }
  split; [ exact (Permutation_NoDup Hperm Hkeys) | ].
  split; [ exact Hperm | ].
  split.
  - unfold len. rewrite <- (Permutation_length Hperm), length_map. reflexivity.
  - intros name Hname.
    apply (Permutation_in _ (Permutation_sym Hperm)) in Hname.
    destruct (dict_get_In _ _ Hname) as (entry & -> & Hin).
    pose proof (proj1 (List.Forall_forall _ _) Hcomplete _ Hin) as Hentry.
    simpl in Hentry.
    destruct entry as [[image | ] [mask | ]]; try discriminate Hentry.
    exists image, mask. reflexivity.
Qed.

Lemma Dataset_init_complete_entries_witness :
  List.NoDup (Dataset_list Examples.six_segment_dataset)
  /\ Permutation (map fst (entry_map Examples.six_segment_dataset))
       (Dataset_list Examples.six_segment_dataset)
  /\ Dataset_size Examples.six_segment_dataset = len (entry_map Examples.six_segment_dataset)
  /\ forall name, In name (Dataset_list Examples.six_segment_dataset) ->
       exists image mask,
         Dataset_get Examples.six_segment_dataset name
         = Return {| image_path := Some image; mask_path := Some mask |}.
Proof.
  apply (Dataset_init_complete_entries Examples.six_segment_files "." "name").
  reflexivity.
Defined.

(** X4. When the scan leaves an id with only one of its two paths, the
    construction of the [Dataset] fails with the [RuntimeError] of a
    dictionary that changed size during iteration: the incomplete pair is
    not dropped. *)
Theorem Dataset_init_incomplete_pair (fs : filesystem) (directory sort : string)
    (scanned : dict Entry) :
  scan_files fs directory (listdir_cwd fs) [] = Return scanned ->
  Exists (fun kv => incomplete (snd kv) = true) scanned ->
  Dataset_init fs directory sort
  = Raise (RuntimeError "dictionary changed size during iteration").
Proof.
  intros Hscan Hincomplete. unfold Dataset_init. rewrite Hscan. cbn [bind].
  rewrite (collect_entries_raises scanned [] Hincomplete). reflexivity.
Qed.

Lemma Dataset_init_incomplete_pair_witness :
  Dataset_init {| listdir_cwd := ["a-b-c-d-image-x"; "e-f-g-h-image-x"; "e-f-g-h-mask-x"];
                  isfile := fun _ => true |} "." "name"
  = Raise (RuntimeError "dictionary changed size during iteration").
Proof.
  eapply (Dataset_init_incomplete_pair
            {| listdir_cwd := ["a-b-c-d-image-x"; "e-f-g-h-image-x"; "e-f-g-h-mask-x"];
               isfile := fun _ => true |} "." "name").
  - reflexivity.
  - left. reflexivity.
Defined.

Lemma collect_entries_complete (items : dict Entry) :
  Forall (fun kv => incomplete (snd kv) = false) items ->
  forall acc, collect_entries items acc = Return (acc ++ map fst items).
Proof.
  induction 1 as [ | [id entry] items Hentry _ IH ]; intros acc; simpl.
  - rewrite app_nil_r. reflexivity.
  - simpl in Hentry. rewrite Hentry, IH, <- app_assoc. reflexivity.
Qed.

(** X5. The orders ["date"] and ["size"] work on an empty dataset only: over
    the same files, whenever the order ["name"] gives a dataset that lists
    an entry, each of them fails with an [AttributeError], the paths being
    strings; and whenever it gives an empty one, so do they. *)
Theorem Dataset_init_date_size (fs : filesystem) (directory sort : string) (self : Dataset) :
  sort = "date" \/ sort = "size" ->
  Dataset_init fs directory "name" = Return self ->
  Dataset_init fs directory sort
  = match Dataset_list self with
    | [] => Return {| Utilities.directory := directory; Utilities.sort := sort;
                      entry_map := entry_map self; entry_list := [] |}
    | _ :: _ => Raise (AttributeError "'str' object has no attribute 'stat'")
    end.
Proof.
  intros Hsort H.
  destruct (Dataset_init_returns fs directory "name" self H) as (Hscan & Hcomplete & Hname).
  pose proof (sort_entries_Permutation _ _ _ Hname) as Hperm.
  unfold Dataset_init, Dataset_list. rewrite Hscan. cbn [bind].
  rewrite (collect_entries_complete _ Hcomplete []). cbn [app bind].
  assert (Horder : sort_entries sort (map fst (entry_map self))
                   = match map fst (entry_map self) with
                     | [] => Return []
                     | _ :: _ => Raise (AttributeError "'str' object has no attribute 'stat'")
                     end).
  { unfold sort_entries. destruct Hsort as [-> | ->]; reflexivity. }
  rewrite Horder.
  destruct (map fst (entry_map self)) as [ | id ids ].
  - apply Permutation_nil in Hperm. rewrite Hperm. reflexivity.
  - destruct (entry_list self) as [ | name names ]; [ | reflexivity ].
    apply Permutation_sym, Permutation_nil in Hperm. discriminate.
Qed.

Lemma Dataset_init_date_size_witness :
  Dataset_init Examples.six_segment_files "." "date"
  = match Dataset_list Examples.six_segment_dataset with
    | [] => Return {| Utilities.directory := "."; Utilities.sort := "date";
                      entry_map := entry_map Examples.six_segment_dataset;
                      entry_list := [] |}
    | _ :: _ => Raise (AttributeError "'str' object has no attribute 'stat'")
    end.
Proof.
  apply (Dataset_init_date_size Examples.six_segment_files "." "date").
  - left. reflexivity.
  - reflexivity.
Defined.

(** X6. Under the order ["name"] a [Dataset] that is constructed lists its
    ids in ascending order of their characters. *)
Theorem Dataset_init_name_order (fs : filesystem) (directory : string) (self : Dataset) :
  Dataset_init fs directory "name" = Return self ->
  ascending (Dataset_list self)
  /\ Dataset_list self = sorted (map fst (entry_map self)).
Proof.
  intros H.
  destruct (Dataset_init_returns fs directory "name" self H) as (_ & _ & Hname).
  unfold sort_entries in Hname. cbn in Hname. injection Hname as Hname.
  unfold Dataset_list. rewrite <- Hname. split; [ apply sorted_ascending | reflexivity ].
Qed.

Lemma Dataset_init_name_order_witness :
  ascending
    (Dataset_list
       {| Utilities.directory := "."; Utilities.sort := "name";
          entry_map := [("e-f-g-h", {| image_path := Some "./e-f-g-h-image-x";
                                       mask_path := Some "./e-f-g-h-mask-x" |});
                        ("a-b-c-d", {| image_path := Some "./a-b-c-d-image-x";
                                       mask_path := Some "./a-b-c-d-mask-x" |})];
          entry_list := ["a-b-c-d"; "e-f-g-h"] |})
  /\ Dataset_list
       {| Utilities.directory := "."; Utilities.sort := "name";
          entry_map := [("e-f-g-h", {| image_path := Some "./e-f-g-h-image-x";
                                       mask_path := Some "./e-f-g-h-mask-x" |});
                        ("a-b-c-d", {| image_path := Some "./a-b-c-d-image-x";
                                       mask_path := Some "./a-b-c-d-mask-x" |})];
          entry_list := ["a-b-c-d"; "e-f-g-h"] |}
     = sorted ["e-f-g-h"; "a-b-c-d"].
Proof.
  apply (Dataset_init_name_order
           {| listdir_cwd := ["e-f-g-h-image-x"; "a-b-c-d-mask-x";
                              "e-f-g-h-mask-x"; "a-b-c-d-image-x"];
              isfile := fun _ => true |} ".").
  reflexivity.
Defined.

(** ** [fit_tensor] *)


(** X8. Whenever [fit_tensor] returns for a container of at most [2 ^ 26]
    by [2 ^ 26], the tensor it returns has the size of the container, and
    the placement lies inside it: the content is not empty, fits in both
    directions and fills at least one of them, and the offsets are the left
    and top halves of what is left over.  The source has channels. *)
Theorem fit_tensor_placement (tensor padded : Tensor) (width height : Z)
    (offset_x offset_y new_width new_height : Z) :
  width <= 2 ^ 26 -> height <= 2 ^ 26 ->
  fit_tensor tensor width height
    = Return (padded, (offset_x, offset_y, new_width, new_height)) ->
  exists channels source_height source_width,
    tensor = [channels; source_height; source_width]
    /\ channels <> 0
    /\ padded = [channels; height; width]
    /\ 0 < new_width <= width /\ 0 < new_height <= height
    /\ (new_width = width \/ new_height = height)
    /\ offset_x = (width - new_width) / 2 /\ offset_y = (height - new_height) / 2
    /\ 0 <= offset_x /\ offset_x + new_width <= width
    /\ 0 <= offset_y /\ offset_y + new_height <= height.
Proof.
  intros Hwmax Hhmax H.
  destruct (fit_tensor_inversion _ _ _ _ _ _ _ _ H)
    as (c & sh & sw & -> & Hsize & Hc & Hsh & Hsw & Hnw & Hnh & Hw & Hh & -> & -> & ->).
  assert (Hheight : 0 < height).
  { destruct (Z.eq_dec height 0) as [-> | Hne]; [ | lia ]. discriminate Hsize. }
  rewrite (placed_size_cases c sh sw width height Hsh Hsw Hheight) in Hsize.
  assert (Hfit : (new_width = width /\ new_height <= height)
                 \/ (new_height = height /\ new_width <= width)).
  { destruct (Qle_bool (double (inject_Z sw / inject_Z sh))
                       (double (inject_Z width / inject_Z height))) eqn:Hle;
      injection Hsize as <- <-.
    - right. split; [ reflexivity | ]. apply Qle_bool_iff in Hle.
      assert (Hwidth : 0 < width).
      { destruct (Z_lt_le_dec 0 width) as [Hpos | Hneg]; [ exact Hpos | exfalso ].
        assert (Hzero : width = 0) by lia. rewrite Hzero in Hle.
        pose proof (double_positive _ (aspect_positive sw sh Hsw Hsh)) as Ht.
        assert (Hq : (inject_Z 0 / inject_Z height == 0)%Q) by (field; apply Qnot_eq_sym, Qlt_not_eq, inject_Z_positive; exact Hheight).
        assert (Hd : double (inject_Z 0 / inject_Z height) = 0%Q).
        { unfold double. destruct (Qeq_bool (inject_Z 0 / inject_Z height) 0) eqn:Hz;
            [ reflexivity | ].
          apply Qeq_bool_neq in Hz. contradiction. }
        rewrite Hd in Hle. lra. }
      apply scaled_width_le; try assumption; split; assumption.
    - left. split; [ reflexivity | ].
      assert (Hgt : ~ (double (inject_Z sw / inject_Z sh)
                       <= double (inject_Z width / inject_Z height))%Q).
      { intros Hq. apply Qle_bool_iff in Hq. congruence. }
      apply scaled_height_le; try assumption; try (split; [ lia | assumption ]).
      lra. }
  exists c, sh, sw.
  assert (Hbounds : new_width <= width /\ new_height <= height) by lia.
  destruct Hbounds as [Hbw Hbh].
  split; [ reflexivity | ]. split; [ exact Hc | ]. split; [ reflexivity | ].
  split; [ lia | ]. split; [ lia | ]. split; [ lia | ].
  split; [ reflexivity | ]. split; [ reflexivity | ].
  pose proof (Z.div_mod (width - new_width) 2 ltac:(lia)) as Hdw.
  pose proof (Z.mod_pos_bound (width - new_width) 2 ltac:(lia)) as Hmw.
  pose proof (Z.div_mod (height - new_height) 2 ltac:(lia)) as Hdh.
  pose proof (Z.mod_pos_bound (height - new_height) 2 ltac:(lia)) as Hmh.
  repeat split; lia.
Qed.

(** A source of 7 rows and 18 columns in a container of 9 by 4: the height
    is [round(9 / 2.5714285714285716)], that is [round(3.4999999999999996)],
    where the exact quotient is [3.5]. *)
Lemma fit_tensor_placement_witness :
  exists channels source_height source_width,
    [3; 7; 18] = [channels; source_height; source_width]
    /\ channels <> 0
    /\ [3; 4; 9] = [channels; 4; 9]
    /\ 0 < 9 <= 9 /\ 0 < 3 <= 4
    /\ (9 = 9 \/ 3 = 4)
    /\ 0 = (9 - 9) / 2 /\ 0 = (4 - 3) / 2
    /\ 0 <= 0 /\ 0 + 9 <= 9
    /\ 0 <= 0 /\ 0 + 3 <= 4.
Proof.
  apply (fit_tensor_placement [3; 7; 18] [3; 4; 9] 9 4 0 0 9 3).
  - vm_compute. congruence.
  - vm_compute. congruence.
  - vm_compute. reflexivity.
Defined.

(** X9. A source with channels that has exactly the aspect ratio of the
    container fills it, for sizes of at most [2 ^ 26]: the content is scaled
    to the whole container, with no padding and offsets [(0, 0)]. *)
Theorem fit_tensor_same_aspect (channels source_height source_width width height : Z) :
  0 < channels ->
  0 < source_height <= 2 ^ 26 -> 0 < source_width <= 2 ^ 26 ->
  0 < width <= 2 ^ 26 -> 0 < height <= 2 ^ 26 ->
  source_width * height = width * source_height ->
  fit_tensor [channels; source_height; source_width] width height
  = Return ([channels; height; width], (0, 0, width, height)).
Proof.
  intros Hc Hsh Hsw Hw Hh Haspect.
  assert (Hsize : placed_size [channels; source_height; source_width] width height
                  = Return (width, height)).
  { rewrite (placed_size_cases channels source_height source_width width height)
      by lia.
    assert (Hequal : (inject_Z source_width / inject_Z source_height
                      == inject_Z width / inject_Z height)%Q)
      by (apply aspect_eq; lia).
    pose proof (aspect_positive source_width source_height (proj1 Hsw) (proj1 Hsh))
      as Hpositive.
    pose proof (double_comp _ _ Hpositive Hequal) as Hdouble.
    assert (Hle : Qle_bool (double (inject_Z source_width / inject_Z source_height))
                           (double (inject_Z width / inject_Z height)) = true)
      by (apply Qle_bool_iff; rewrite Hdouble; apply Qle_refl).
    rewrite Hle. f_equal. f_equal.
    rewrite <- (fits_width width height Hw Hh).
    assert (Hheight : (0 < double (inject_Z height))%Q).
    { apply double_positive, inject_Z_positive. lia. }
    pose proof (double_positive _ Hpositive) as Ht.
    apply round_comp, double_comp.
    - apply Qmult_lt_0_compat; assumption.
    - rewrite Hdouble. reflexivity. }
  change (2 ^ 26) with 67108864 in *.
  rewrite (fit_tensor_returns channels source_height source_width width height
             width height Hsize) by (change (2 ^ 63) with 9223372036854775808; lia).
  rewrite !Z.sub_diag. reflexivity.
Qed.

Lemma fit_tensor_same_aspect_witness :
  fit_tensor [3; 300; 450] 96 64 = Return ([3; 64; 96], (0, 0, 96, 64)).
Proof.
  apply (fit_tensor_same_aspect 3 300 450 96 64);
    try (vm_compute; split; congruence); reflexivity.
Defined.

(** What rounds to no pixel at all: a side that is scaled to half a pixel
    or less.  The product of a height and an aspect ratio of at most
    [1 / (2 * height)] can exceed a half, by the rounding of the ratio, but
    not by enough to be rounded away from it. *)
Lemma round_at_most_half (x : Q) : (0 <= x)%Q -> (x <= 1 # 2)%Q -> round x = 0.
Proof.
  intros Hlow Hhigh.
  pose proof (round_mono _ _ Hlow) as H0. pose proof (round_mono _ _ Hhigh) as H1.
  change (round 0) with 0 in H0. change (round (1 # 2)) with 0 in H1. lia.
Qed.

Lemma double_at_most_half (x : Q) :
  (0 < x)%Q -> (x <= (1 # 2) + (1 # 18014398509481984))%Q -> (double x <= 1 # 2)%Q.
Proof.
  intros Hlow Hhigh. pose proof (double_mono _ _ Hlow Hhigh) as H.
  assert (Hhalf : (double ((1 # 2) + (1 # 18014398509481984)) == 1 # 2)%Q)
    by (vm_compute; reflexivity).
  lra.
Qed.

Lemma double_even_int (n : Z) :
  0 < n <= 2 ^ 53 -> (double (inject_Z (2 * n) / inject_Z 1) == 2 * inject_Z n)%Q.
Proof.
  intros Hn. pose proof (inject_Z_positive n (proj1 Hn)) as Hpositive.
  assert (He : (inject_Z (2 * n) / inject_Z 1 == 2 * inject_Z n)%Q).
  { rewrite inject_Z_mult. change (inject_Z 2) with 2%Q. change (inject_Z 1) with 1%Q.
    field. }
  assert (Hlow : (0 < inject_Z (2 * n) / inject_Z 1)%Q) by (apply aspect_positive; lia).
  apply Qeq_trans with (double (2 * inject_Z n)); [ exact (double_comp _ _ Hlow He) | ].
  apply Qeq_trans with (2 * double (inject_Z n))%Q; [ exact (double_twice _ Hpositive) | ].
  apply Qmult_comp; [ reflexivity | exact (double_int n Hn) ].
Qed.

Lemma scaled_width_zero (source_height source_width height : Z) :
  0 < source_width -> 0 < height <= 2 ^ 53 ->
  2 * height * source_width <= source_height ->
  round (double (double (inject_Z height)
                 * double (inject_Z source_width / inject_Z source_height))) = 0.
Proof.
  intros Hsw Hh Htall.
  assert (Hsh : 0 < source_height) by nia.
  pose proof (inject_Z_positive height (proj1 Hh)) as Hheight.
  pose proof (double_positive _ (aspect_positive source_width source_height Hsw Hsh)) as Ht.
  pose proof (double_aspect_le source_width source_height 1 (2 * height)
                Hsw Hsh ltac:(lia) ltac:(lia)) as Hle.
  assert (Hq : (0 < inject_Z 1 / inject_Z (2 * height))%Q)
    by (apply aspect_positive; lia).
  destruct (double_error _ Hq) as [_ Herror].
  set (t := double (inject_Z source_width / inject_Z source_height)) in *.
  set (e := double (inject_Z 1 / inject_Z (2 * height))) in *.
  assert (Hint : (double (inject_Z height) * t == inject_Z height * t)%Q).
  { rewrite (double_int height Hh). reflexivity. }
  assert (Hproduct : (0 < inject_Z height * t)%Q) by (apply Qmult_lt_0_compat; assumption).
  assert (Hbound : (inject_Z height * t <= (1 # 2) + (1 # 18014398509481984))%Q).
  { apply Qle_trans with (inject_Z height * e)%Q; [ apply Qmult_le_l; assumption | ].
    apply Qle_trans with (inject_Z height
                          * (inject_Z 1 / inject_Z (2 * height)
                             + inject_Z 1 / inject_Z (2 * height) * (1 # 9007199254740992)))%Q;
      [ apply Qmult_le_l; assumption | ].
    assert (He : (inject_Z height
                  * (inject_Z 1 / inject_Z (2 * height)
                     + inject_Z 1 / inject_Z (2 * height) * (1 # 9007199254740992))
                  == (1 # 2) + (1 # 18014398509481984))%Q).
    { rewrite inject_Z_mult. change (inject_Z 2) with 2%Q. change (inject_Z 1) with 1%Q.
      field. lra. }
    rewrite He. apply Qle_refl. }
  assert (Hround : round (double (double (inject_Z height) * t))
                   = round (double (inject_Z height * t))).
  { apply round_comp, double_comp; [ rewrite Hint; exact Hproduct | exact Hint ]. }
  rewrite Hround. apply round_at_most_half.
  - apply Qlt_le_weak, double_positive. exact Hproduct.
  - apply double_at_most_half; assumption.
Qed.

Lemma scaled_height_zero (source_height source_width width : Z) :
  0 < source_height -> 0 < width <= 2 ^ 53 ->
  2 * width * source_height <= source_width ->
  round (double (double (inject_Z width)
                 / double (inject_Z source_width / inject_Z source_height))) = 0.
Proof.
  intros Hsh Hw Hwide.
  assert (Hsw : 0 < source_width) by nia.
  pose proof (inject_Z_positive width (proj1 Hw)) as Hwidth.
  pose proof (double_aspect_le (2 * width) 1 source_width source_height
                ltac:(lia) ltac:(lia) Hsh ltac:(lia)) as Hle.
  rewrite (double_even_int width Hw) in Hle.
  set (t := double (inject_Z source_width / inject_Z source_height)) in *.
  assert (Ht : (0 < t)%Q) by lra.
  assert (Hint : (double (inject_Z width) / t == inject_Z width / t)%Q).
  { rewrite (double_int width Hw). reflexivity. }
  assert (Hquotient : (0 < inject_Z width / t)%Q)
    by (apply Qlt_shift_div_l; [ exact Ht | lra ]).
  assert (Hbound : (inject_Z width / t <= 1 # 2)%Q)
    by (apply Qle_shift_div_r; [ exact Ht | lra ]).
  assert (Hround : round (double (double (inject_Z width) / t))
                   = round (double (inject_Z width / t))).
  { apply round_comp, double_comp; [ rewrite Hint; exact Hquotient | exact Hint ]. }
  rewrite Hround. apply round_at_most_half.
  - apply Qlt_le_weak, double_positive. exact Hquotient.
  - apply double_at_most_half; [ exact Hquotient | lra ].
Qed.

(** X10. A source too elongated for the container cannot be fitted, for a
    container of at most [2 ^ 53] by [2 ^ 53], the integers a double holds
    exactly: when the source is more than [2 * width] times as wide as it is
    high, or more than [2 * height] times as high as it is wide, the content
    would be scaled to an empty size, and [fit_tensor] fails with the
    [RuntimeError] of the interpolation. *)
Theorem fit_tensor_elongated (channels source_height source_width width height : Z) :
  0 < source_height -> 0 < source_width ->
  0 < width <= 2 ^ 53 -> 0 < height <= 2 ^ 53 ->
  2 * width * source_height < source_width \/ 2 * height * source_width < source_height ->
  fit_tensor [channels; source_height; source_width] width height
  = Raise (RuntimeError "Input and output sizes should be greater than 0").
Proof.
  intros Hsh Hsw Hw Hh Hlong. unfold fit_tensor.
  change (len [channels; source_height; source_width] =? 3) with true. cbn [negb].
  rewrite (placed_size_cases channels source_height source_width width height)
    by lia.
  apply Z.ltb_lt in Hsh as Hsh', Hsw as Hsw'.
  assert (Hw64 : int64 width = true).
  { apply int64_bounds. change (2 ^ 53) with 9007199254740992 in Hw.
    change (2 ^ 63) with 9223372036854775808. lia. }
  assert (Hh64 : int64 height = true).
  { apply int64_bounds. change (2 ^ 53) with 9007199254740992 in Hh.
    change (2 ^ 63) with 9223372036854775808. lia. }
  destruct Hlong as [Hwide | Htall].
  - assert (Hgt : Qle_bool (double (inject_Z source_width / inject_Z source_height))
                           (double (inject_Z width / inject_Z height)) = false).
    { destruct (Qle_bool _ _) eqn:Hle; [ exfalso | reflexivity ].
      apply Qle_bool_iff in Hle.
      pose proof (double_aspect_le (2 * width) 1 source_width source_height
                    ltac:(lia) ltac:(lia) Hsh ltac:(lia)) as Htensor.
      rewrite (double_even_int width Hw) in Htensor.
      pose proof (double_aspect_le width height width 1
                    ltac:(lia) ltac:(lia) ltac:(lia) ltac:(nia)) as Hcontainer.
      assert (Hexact : (double (inject_Z width / inject_Z 1) == inject_Z width)%Q).
      { assert (He : (inject_Z width / inject_Z 1 == inject_Z width)%Q)
          by (change (inject_Z 1) with 1%Q; field).
        assert (Hlow : (0 < inject_Z width / inject_Z 1)%Q)
          by (apply aspect_positive; lia).
        apply Qeq_trans with (double (inject_Z width));
          [ exact (double_comp _ _ Hlow He) | apply double_int; exact Hw ]. }
      pose proof (inject_Z_positive width (proj1 Hw)). lra. }
    rewrite Hgt. cbn [bind].
    rewrite (scaled_height_zero source_height source_width width Hsh Hw) by lia.
    unfold unsqueeze0, interpolate. rewrite Hw64, Hsh', Hsw'. reflexivity.
  - assert (Hle : Qle_bool (double (inject_Z source_width / inject_Z source_height))
                           (double (inject_Z width / inject_Z height)) = true).
    { apply Qle_bool_iff.
      apply Qle_trans with (double (inject_Z 1 / inject_Z (2 * height))).
      - apply double_aspect_le; lia.
      - apply double_aspect_le; nia. }
    rewrite Hle. cbn [bind].
    rewrite (scaled_width_zero source_height source_width height Hsw Hh) by lia.
    unfold unsqueeze0, interpolate. rewrite Hh64, Hsh', Hsw'.
    assert (Hheight : (0 <? height) = true) by (apply Z.ltb_lt; lia).
    rewrite Hheight. reflexivity.
Qed.

Lemma fit_tensor_elongated_witness :
  fit_tensor [3; 1; 1000] 4 4
  = Raise (RuntimeError "Input and output sizes should be greater than 0").
Proof.
  apply (fit_tensor_elongated 3 1 1000 4 4); try lia; vm_compute; split; congruence.
Defined.

(** Beyond [2 ^ 53] the conversion of the height to a [float] and the
    rounding of the aspect ratio add up: here the source is more than
    [2 * height] times as high as it is wide, the product is the double
    after one half, and the content is a pixel wide, so that the
    interpolation is given a size it accepts. *)
Lemma fit_tensor_elongated_beyond_doubles :
  2 * 4552083738821279647 * 1 < 9104167477642559298
  /\ placed_size [1; 9104167477642559298; 1] 10 4552083738821279647
     = Return (1, 4552083738821279647)
  /\ fit_tensor [1; 9104167477642559298; 1] 10 4552083738821279647
     = Return ([1; 4552083738821279647; 10], (4, 0, 1, 4552083738821279647)).
Proof. split; [ reflexivity | split; vm_compute; reflexivity ]. Qed.

(** What rounds to a pixel at least: a side that is scaled to more than
    half a pixel.  For sizes of at most [2 ^ 26] the exact quotient is then
    far enough above a half for the two roundings to leave it there. *)
Lemma round_positive (x : Q) : (1 # 2 < x)%Q -> 0 < round x.
Proof.
  intros Hx. destruct (round_error x) as [Hlow _].
  assert (Hpositive : (inject_Z 0 < inject_Z (round x))%Q)
    by (change (inject_Z 0) with 0%Q; lra).
  rewrite <- Zlt_Qlt in Hpositive. exact Hpositive.
Qed.

Lemma double_above_half (x : Q) :
  (134217729 # 268435456 <= x)%Q -> (1 # 2 < double x)%Q.
Proof.
  intros Hx.
  assert (Hlow : (0 < 134217729 # 268435456)%Q) by reflexivity.
  pose proof (double_mono _ _ Hlow Hx) as H.
  assert (Hexact : (double (134217729 # 268435456) == 134217729 # 268435456)%Q)
    by (vm_compute; reflexivity).
  lra.
Qed.

Lemma scaled_width_positive (source_height source_width height : Z) :
  0 < source_height <= 2 ^ 26 -> 0 < source_width -> 0 < height <= 2 ^ 26 ->
  source_height < 2 * (height * source_width) ->
  0 < round (double (double (inject_Z height)
                     * double (inject_Z source_width / inject_Z source_height))).
Proof.
  intros [Hsh Hshmax] Hsw [Hh Hhmax] Hscaled.
  change (2 ^ 26) with 67108864 in *.
  pose proof (inject_Z_positive height Hh) as Hheight.
  pose proof (inject_Z_positive source_height Hsh) as Hsh'.
  pose proof (aspect_positive source_width source_height Hsw Hsh) as Hq.
  destruct (double_error _ Hq) as [Herror _].
  pose proof (double_positive _ Hq) as Ht.
  set (t := double (inject_Z source_width / inject_Z source_height)) in *.
  assert (Hint : (double (inject_Z height) * t == inject_Z height * t)%Q).
  { rewrite (double_int height) by (change (2 ^ 53) with 9007199254740992; lia).
    reflexivity. }
  assert (Hproduct : (0 < inject_Z height * t)%Q) by (apply Qmult_lt_0_compat; assumption).
  set (x := (inject_Z (height * source_width) / inject_Z source_height)%Q).
  assert (Hx : (67108865 # 134217728 <= x)%Q).
  { change (67108865 # 134217728)%Q with (inject_Z 67108865 / inject_Z 134217728)%Q.
    apply aspect_le; [ lia | exact Hsh | nia ]. }
  assert (Hlow : (x - x * (1 # 9007199254740992) <= inject_Z height * t)%Q).
  { assert (He : (x - x * (1 # 9007199254740992)
                  == inject_Z height
                     * (inject_Z source_width / inject_Z source_height
                        - inject_Z source_width / inject_Z source_height
                          * (1 # 9007199254740992)))%Q)
      by (unfold x; rewrite inject_Z_mult; field; lra).
    rewrite He. apply Qmult_le_l; assumption. }
  assert (Hround : round (double (double (inject_Z height) * t))
                   = round (double (inject_Z height * t))).
  { apply round_comp, double_comp; [ rewrite Hint; exact Hproduct | exact Hint ]. }
  rewrite Hround. apply round_positive, double_above_half. lra.
Qed.

Lemma scaled_height_positive (source_height source_width width : Z) :
  0 < source_height -> 0 < source_width <= 2 ^ 26 -> 0 < width <= 2 ^ 26 ->
  source_width < 2 * (width * source_height) ->
  0 < round (double (double (inject_Z width)
                     / double (inject_Z source_width / inject_Z source_height))).
Proof.
  intros Hsh [Hsw Hswmax] [Hw Hwmax] Hscaled.
  change (2 ^ 26) with 67108864 in *.
  pose proof (inject_Z_positive width Hw) as Hwidth.
  pose proof (inject_Z_positive source_height Hsh) as Hsh'.
  pose proof (aspect_positive source_width source_height Hsw Hsh) as Hq.
  destruct (double_error _ Hq) as [_ Herror].
  pose proof (double_positive _ Hq) as Ht.
  set (q := (inject_Z source_width / inject_Z source_height)%Q) in *.
  set (t := double q) in *.
  assert (Hint : (double (inject_Z width) / t == inject_Z width / t)%Q).
  { rewrite (double_int width) by (change (2 ^ 53) with 9007199254740992; lia).
    reflexivity. }
  assert (Hquotient : (0 < inject_Z width / t)%Q)
    by (apply Qlt_shift_div_l; [ exact Ht | lra ]).
  assert (Hx : ((67108865 # 134217728) * q <= inject_Z width)%Q).
  { assert (He : ((67108865 # 134217728) * q
                  == inject_Z (67108865 * source_width)
                     / inject_Z (134217728 * source_height))%Q).
    { unfold q. rewrite !inject_Z_mult.
      change (inject_Z 67108865) with (67108865 # 1)%Q.
      change (inject_Z 134217728) with (134217728 # 1)%Q. field. lra. }
    assert (Hone : (inject_Z width == inject_Z width / inject_Z 1)%Q)
      by (change (inject_Z 1) with 1%Q; field).
    rewrite He, Hone. apply aspect_le; [ lia | lia | nia ]. }
  assert (Hlow : (134217729 # 268435456 <= inject_Z width / t)%Q).
  { apply Qle_shift_div_l; [ exact Ht | lra ]. }
  assert (Hround : round (double (double (inject_Z width) / t))
                   = round (double (inject_Z width / t))).
  { apply round_comp, double_comp; [ rewrite Hint; exact Hquotient | exact Hint ]. }
  rewrite Hround. apply round_positive, double_above_half. exact Hlow.
Qed.

Lemma double_zero_aspect (height : Z) : double (inject_Z 0 / inject_Z height) = 0%Q.
Proof.
  unfold double.
  destruct (Qeq_bool (inject_Z 0 / inject_Z height) 0) eqn:Hzero; [ reflexivity | ].
  apply Qeq_bool_neq in Hzero. exfalso. apply Hzero.
  unfold Qdiv. change (inject_Z 0) with 0%Q. apply Qmult_0_l.
Qed.

(** X11. The domain of [fit_tensor] on a tensor of three dimensions that has
    channels, for sizes of at most [2 ^ 26]: it returns exactly when the
    source and the container have a positive height and width, and the side
    that is scaled comes out at more than half a pixel, so that it does not
    round to zero. *)
Theorem fit_tensor_returns_iff (channels source_height source_width width height : Z) :
  0 < channels ->
  source_height <= 2 ^ 26 -> source_width <= 2 ^ 26 ->
  width <= 2 ^ 26 -> height <= 2 ^ 26 ->
  (exists fitted,
     fit_tensor [channels; source_height; source_width] width height = Return fitted)
  <-> 0 < source_height /\ 0 < source_width /\ 0 < width /\ 0 < height
      /\ (if source_width * height <=? width * source_height
          then source_height < 2 * (height * source_width)
          else source_width < 2 * (width * source_height)).
Proof.
  intros Hchannels Hshmax Hswmax Hwmax Hhmax.
  assert (H53 : 2 ^ 26 <= 2 ^ 53) by (vm_compute; congruence).
  assert (H63 : 2 ^ 26 < 2 ^ 63) by reflexivity.
  assert (Hcross : forall a b, 0 < a <= 2 ^ 26 -> 0 < b <= 2 ^ 26 -> a * b <= 2 ^ 52).
  { intros a b Ha Hb. change (2 ^ 26) with 67108864 in *.
    change (2 ^ 52) with 4503599627370496. nia. }
  split.
  - intros [[fitted [[[offset_x offset_y] new_width] new_height]] H].
    destruct (fit_tensor_inversion _ _ _ _ _ _ _ _ H)
      as (c & sh & sw & Hshape & Hsize & _ & Hsh & Hsw & Hnw & Hnh & Hw & Hh & _).
    injection Hshape as -> -> ->.
    assert (Hheight : 0 < height).
    { destruct (Z.eq_dec height 0) as [-> | Hne]; [ | lia ]. discriminate Hsize. }
    rewrite (placed_size_cases c sh sw width height Hsh Hsw Hheight) in Hsize.
    destruct (Qle_bool (double (inject_Z sw / inject_Z sh))
                       (double (inject_Z width / inject_Z height))) eqn:Hle;
      injection Hsize as <- <-.
    + apply Qle_bool_iff in Hle.
      pose proof (double_positive _ (aspect_positive sw sh Hsw Hsh)) as Ht.
      assert (Hwidth : 0 < width).
      { destruct (Z_lt_le_dec 0 width) as [Hpos | Hneg]; [ exact Hpos | exfalso ].
        assert (Hzero : width = 0) by lia. rewrite Hzero, double_zero_aspect in Hle. lra. }
      assert (Hexact : sw * height <= width * sh).
      { destruct (Z_le_gt_dec (sw * height) (width * sh)) as [Hok | Hwider];
          [ exact Hok | exfalso ].
        pose proof (double_aspect_lt sw sh width height Hsh Hwidth Hheight
                      ltac:(lia) ltac:(apply Hcross; lia)) as Hlt.
        lra. }
      apply Z.leb_le in Hexact as Hexact'. rewrite Hexact'.
      repeat split; try assumption.
      destruct (Z_lt_le_dec sh (2 * (height * sw))) as [Hok | Hflat]; [ exact Hok | exfalso ].
      rewrite (scaled_width_zero sh sw height Hsw) in Hnw by lia. lia.
    + assert (Hgt : ~ (double (inject_Z sw / inject_Z sh)
                       <= double (inject_Z width / inject_Z height))%Q).
      { intros Hq. apply Qle_bool_iff in Hq. congruence. }
      assert (Hexact : width * sh < sw * height).
      { destruct (Z_lt_le_dec (width * sh) (sw * height)) as [Hok | Hnarrow];
          [ exact Hok | exfalso ].
        apply Hgt. apply double_aspect_le; assumption. }
      apply Z.leb_gt in Hexact as Hexact'. rewrite Hexact'.
      repeat split; try assumption; try lia.
      destruct (Z_lt_le_dec sw (2 * (width * sh))) as [Hok | Htall]; [ exact Hok | exfalso ].
      rewrite (scaled_height_zero sh sw width Hsh) in Hnh by lia. lia.
  - intros (Hsh & Hsw & Hw & Hh & Hscaled).
    pose proof (placed_size_cases channels source_height source_width width height
                  Hsh Hsw Hh) as Hsize.
    destruct (source_width * height <=? width * source_height) eqn:Hexact.
    + apply Z.leb_le in Hexact.
      pose proof (double_aspect_le source_width source_height width height
                    Hsw Hsh Hh Hexact) as Hle.
      apply Qle_bool_iff in Hle as Hle'. rewrite Hle' in Hsize.
      pose proof (scaled_width_positive source_height source_width height
                    ltac:(lia) Hsw ltac:(lia) Hscaled) as Hpositive.
      pose proof (scaled_width_le source_height source_width width height
                    Hsh Hsw ltac:(lia) ltac:(lia) Hle) as Hfits.
      eexists. apply (fit_tensor_returns _ _ _ _ _ _ _ Hsize); lia.
    + apply Z.leb_gt in Hexact.
      pose proof (double_aspect_lt source_width source_height width height
                    Hsh Hw Hh Hexact ltac:(apply Hcross; lia)) as Hlt.
      assert (Hgt : Qle_bool (double (inject_Z source_width / inject_Z source_height))
                             (double (inject_Z width / inject_Z height)) = false).
      { destruct (Qle_bool _ _) eqn:Hle; [ | reflexivity ].
        apply Qle_bool_iff in Hle. lra. }
      rewrite Hgt in Hsize.
      pose proof (scaled_height_positive source_height source_width width
                    Hsh ltac:(lia) ltac:(lia) Hscaled) as Hpositive.
      pose proof (scaled_height_le source_height source_width width height
                    Hsh Hsw ltac:(lia) ltac:(lia) ltac:(lra)) as Hfits.
      eexists. apply (fit_tensor_returns _ _ _ _ _ _ _ Hsize); lia.
Qed.

(** The domain at a source of 49 by 128 in a square of side 64. *)
Lemma fit_tensor_returns_iff_witness :
  (exists fitted, fit_tensor [3; 49; 128] 64 64 = Return fitted)
  <-> 0 < 49 /\ 0 < 128 /\ 0 < 64 /\ 0 < 64
      /\ (if 128 * 64 <=? 64 * 49 then 49 < 2 * (64 * 128) else 128 < 2 * (64 * 49)).
Proof.
  apply (fit_tensor_returns_iff 3 49 128 64 64); vm_compute; congruence.
Defined.
(* ===================================================================== *)
(** * More of src/python/marker/unet.py                                   *)
(* ===================================================================== *)

(** X12. A network needs a level: with a [depth] of zero or less the list
    of features stays empty, [features[-1]] raises an [IndexError], and no
    network is constructed. *)
Theorem UNet_init_no_levels (in_channels out_channels depth : Z) :
  depth <= 0 ->
  UNet_init in_channels out_channels depth = Raise (IndexError "index out of range").
Proof.
  intros Hdepth. unfold UNet_init.
  replace (Z.to_nat depth) with 0%nat by lia. reflexivity.
Qed.

Lemma UNet_init_no_levels_witness :
  UNet_init 3 1 0 = Raise (IndexError "index out of range").
Proof.
  apply (UNet_init_no_levels 3 1 0). lia.
Defined.

Lemma nth_error_downs_from (k : nat) :
  forall (i j : nat) (c : Z),
    (j < k)%nat ->
    nth_error (downs_from i k c) j
    = Some (DoubleConvolutionalBlock
              (match j with O => c | S j' => feature (i + j') end) (feature (i + j))).
Proof.
  induction k as [ | k IH ]; intros i j c Hj; [ lia | ].
  destruct j as [ | j ]; cbn [downs_from nth_error].
  - rewrite Nat.add_0_r. reflexivity.
  - rewrite IH by lia. rewrite Nat.add_succ_r. cbn [Nat.add].
    destruct j as [ | j ].
    + rewrite Nat.add_0_r. reflexivity.
    + rewrite Nat.add_succ_r. reflexivity.
Qed.

Lemma nth_error_ups_of (k : nat) :
  forall j : nat,
    (j < k)%nat ->
    nth_error (ups_of k) (2 * j)
      = Some (Single (ConvTranspose2d (feature (k - 1 - j) * 2) (feature (k - 1 - j)) 2 2))
    /\ nth_error (ups_of k) (2 * j + 1)
       = Some (DoubleConvolutionalBlock (feature (k - 1 - j) * 2) (feature (k - 1 - j))).
Proof.
  induction k as [ | k IH ]; intros j Hj; [ lia | ].
  destruct j as [ | j ].
  - cbn [ups_of Nat.mul Nat.add nth_error]. rewrite Nat.sub_succ, !Nat.sub_0_r.
    split; reflexivity.
  - replace (2 * S j)%nat with (S (S (2 * j))) by lia.
    replace (S k - 1 - S j)%nat with (k - 1 - j)%nat by lia.
    cbn [ups_of Nat.add nth_error]. apply IH. lia.
Qed.

Lemma feature_Z (i : Z) : 0 <= i -> feature (Z.to_nat i) = 64 * 2 ^ i.
Proof. intros Hi. unfold feature. rewrite Z2Nat.id by exact Hi. reflexivity. Qed.

(** X13. The modules of [UNet(in_channels, out_channels, depth)] for a
    depth of at least one: [depth] encoder blocks whose widths start at 64
    and double, the first one fed with the input channels; a bottleneck that
    doubles the last width; [2 * depth] decoder modules, a transposed
    convolution followed by a block for every level from the deepest up,
    each halving twice the width of its level; a final convolution from 64
    channels.  The network is constructed in training mode. *)
Theorem UNet_init_structure (in_channels out_channels depth : Z) :
  1 <= depth ->
  exists net,
    UNet_init in_channels out_channels depth = Return net
    /\ training net = true
    /\ len (downs net) = depth /\ len (ups net) = 2 * depth
    /\ index (downs net) 0 = Return (DoubleConvolutionalBlock in_channels 64)
    /\ (forall i, 1 <= i < depth ->
          index (downs net) i
          = Return (DoubleConvolutionalBlock (64 * 2 ^ (i - 1)) (64 * 2 ^ i)))
    /\ pool net = Single (MaxPool2d 2 2)
    /\ bottleneck net
       = DoubleConvolutionalBlock (64 * 2 ^ (depth - 1)) (64 * 2 ^ (depth - 1) * 2)
    /\ (forall i, 0 <= i < depth ->
          index (ups net) (2 * i)
            = Return (Single (ConvTranspose2d (64 * 2 ^ (depth - 1 - i) * 2)
                                (64 * 2 ^ (depth - 1 - i)) 2 2))
          /\ index (ups net) (2 * i + 1)
             = Return (DoubleConvolutionalBlock (64 * 2 ^ (depth - 1 - i) * 2)
                         (64 * 2 ^ (depth - 1 - i))))
    /\ final_convolution net = Single (Conv2d 64 out_channels 1 0).
Proof.
  intros Hdepth.
  exists (network in_channels out_channels (Z.to_nat depth) true).
  split; [ apply UNet_init_spec; exact Hdepth | ].
  cbn [training downs ups pool bottleneck final_convolution network].
  split; [ reflexivity | ].
  split; [ unfold len; rewrite length_downs_from; lia | ].
  split; [ unfold len; rewrite length_ups_of; lia | ].
  split.
  { apply (index_nat _ 0%nat). rewrite nth_error_downs_from by lia. reflexivity. }
  split.
  { intros i Hi. rewrite <- (Z2Nat.id i) at 1 by lia.
    apply index_nat. rewrite nth_error_downs_from by lia.
    destruct (Z.to_nat i) as [ | j ] eqn:Hj; [ lia | ].
    cbn [Nat.add]. rewrite <- Hj.
    replace j with (Z.to_nat (i - 1)) by lia.
    rewrite !feature_Z by lia. reflexivity. }
  split; [ reflexivity | ].
  split.
  { replace (Z.to_nat depth - 1)%nat with (Z.to_nat (depth - 1)) by lia.
    rewrite feature_Z by lia. reflexivity. }
  split; [ | reflexivity ].
  intros i Hi.
  destruct (nth_error_ups_of (Z.to_nat depth) (Z.to_nat i) ltac:(lia)) as [Hup Hblock].
  replace (Z.to_nat depth - 1 - Z.to_nat i)%nat with (Z.to_nat (depth - 1 - i)) in Hup, Hblock
    by lia.
  rewrite feature_Z in Hup, Hblock by lia.
  split.
  - replace (2 * i) with (Z.of_nat (2 * Z.to_nat i)) by lia.
    apply index_nat. exact Hup.
  - replace (2 * i + 1) with (Z.of_nat (2 * Z.to_nat i + 1)) by lia.
    apply index_nat. exact Hblock.
Qed.

Lemma UNet_init_structure_witness :
  exists net,
    UNet_init 3 1 2 = Return net
    /\ training net = true
    /\ len (downs net) = 2 /\ len (ups net) = 2 * 2
    /\ index (downs net) 0 = Return (DoubleConvolutionalBlock 3 64)
    /\ (forall i, 1 <= i < 2 ->
          index (downs net) i
          = Return (DoubleConvolutionalBlock (64 * 2 ^ (i - 1)) (64 * 2 ^ i)))
    /\ pool net = Single (MaxPool2d 2 2)
    /\ bottleneck net
       = DoubleConvolutionalBlock (64 * 2 ^ (2 - 1)) (64 * 2 ^ (2 - 1) * 2)
    /\ (forall i, 0 <= i < 2 ->
          index (ups net) (2 * i)
            = Return (Single (ConvTranspose2d (64 * 2 ^ (2 - 1 - i) * 2)
                                (64 * 2 ^ (2 - 1 - i)) 2 2))
          /\ index (ups net) (2 * i + 1)
             = Return (DoubleConvolutionalBlock (64 * 2 ^ (2 - 1 - i) * 2)
                         (64 * 2 ^ (2 - 1 - i))))
    /\ final_convolution net = Single (Conv2d 64 1 1 0).
Proof.
  apply (UNet_init_structure 3 1 2). lia.
Defined.

(** X14. [forward] reads [input.shape[3]] before anything else: on an input
    of fewer than four dimensions every network raises an [IndexError], and
    no layer is called. *)
Theorem forward_few_dimensions (self : UNet) (input : Tensor) (log : list layer) :
  len input < 4 ->
  forward self input log = (log, Raise (IndexError "index out of range")).
Proof.
  intros Hlen. unfold forward, then_ at 1, lift at 1.
  rewrite index_beyond by lia. reflexivity.
Qed.

Lemma forward_few_dimensions_witness :
  forward Examples.trained_marker.(model) [3; 64; 64] []
  = ([], Raise (IndexError "index out of range")).
Proof.
  apply (forward_few_dimensions (model Examples.trained_marker) [3; 64; 64] []).
  reflexivity.
Defined.

(** X15. An input whose number of channels is not the one the network was
    built for passes the guard on its size and is refused by the first
    convolution of the first encoder block, the only layer called. *)
Theorem forward_channel_mismatch
    (in_channels out_channels depth batch channels h w : Z) :
  1 <= depth -> channels <> in_channels ->
  0 < h -> 0 < w -> h mod 2 ^ depth = 0 -> w mod 2 ^ depth = 0 ->
  exists net,
    UNet_init in_channels out_channels depth = Return net
    /\ forward net [batch; channels; h; w] []
       = ([Conv2d in_channels 64 3 1],
          Raise (RuntimeError "Given weight expects a different number of input channels")).
Proof.
  intros Hdepth Hchannels Hh Hw Hhdiv Hwdiv.
  exists (network in_channels out_channels (Z.to_nat depth) true).
  split; [ apply UNet_init_spec; exact Hdepth | ].
  unfold forward. rewrite factor_network by exact Hdepth.
  change (index [batch; channels; h; w] 3) with (Return w).
  change (index [batch; channels; h; w] 2) with (Return h).
  unfold then_ at 1 2 3, lift, ret.
  rewrite Hwdiv, Hhdiv. cbn [Z.eqb negb].
  destruct (Z.to_nat depth) as [ | d ] eqn:Hd; [ lia | ].
  cbn [network downs pool training downs_from forward_downs].
  unfold then_ at 1 2. unfold call at 1.
  cbn [module_layers DoubleConvolutionalBlock call_layers].
  unfold then_ at 1. cbn [apply_layer].
  assert (Hneq : (channels =? in_channels) = false) by (apply Z.eqb_neq; exact Hchannels).
  rewrite Hneq. reflexivity.
Qed.

Lemma forward_channel_mismatch_witness :
  exists net,
    UNet_init 3 1 2 = Return net
    /\ forward net [5; 1; 8; 12] []
       = ([Conv2d 3 64 3 1],
          Raise (RuntimeError "Given weight expects a different number of input channels")).
Proof.
  apply (forward_channel_mismatch 3 1 2 5 1 8 12); [ lia | lia | lia | lia | | ]; reflexivity.
Defined.

Lemma then_yields {A B : Type} (m : traced A) (k : A -> traced B) (a : A)
    (log : list layer) :
  yields m a -> exists log', then_ m k log = k a log'.
Proof.
  intros Hm. destruct (Hm log) as [log' Hlog]. exists log'.
  unfold then_. rewrite Hlog. reflexivity.
Qed.

(** One image of [2 ^ (d + 1)] by [2 ^ (d + 1)] on a network of [d + 1]
    levels in training mode: the bottleneck sees one value per channel. *)
Lemma forward_network_single_value (in_channels out_channels : Z) (d : nat) :
  snd (forward (network in_channels out_channels (S d) true)
         [1; in_channels; 1 * 2 ^ Z.of_nat (S d); 1 * 2 ^ Z.of_nat (S d)] [])
  = Raise (ValueError "Expected more than 1 value per channel when training").
Proof.
  unfold forward. cbn [downs ups pool bottleneck final_convolution training network].
  assert (Hlen : len (downs_from 0 (S d) in_channels) = Z.of_nat (S d))
    by (unfold len; rewrite length_downs_from; reflexivity).
  rewrite !Hlen.
  change (index [1; in_channels; 1 * 2 ^ Z.of_nat (S d); 1 * 2 ^ Z.of_nat (S d)] 3)
    with (Return (A := Z) (1 * 2 ^ Z.of_nat (S d))).
  change (index [1; in_channels; 1 * 2 ^ Z.of_nat (S d); 1 * 2 ^ Z.of_nat (S d)] 2)
    with (Return (A := Z) (1 * 2 ^ Z.of_nat (S d))).
  unfold then_ at 1 2 3, lift, ret.
  rewrite Z_mod_mult. cbn [Z.eqb negb].
  destruct (then_yields
              (forward_downs true (Single (MaxPool2d 2 2)) (downs_from 0 (S d) in_channels)
                 [1; in_channels; 1 * 2 ^ Z.of_nat (S d); 1 * 2 ^ Z.of_nat (S d)] [])
              (fun down =>
                 let '(input1, skip_connections) := down in
                 then_ (call true
                          (DoubleConvolutionalBlock (feature (S d - 1)) (feature (S d - 1) * 2))
                          input1)
                   (fun input2 =>
                      then_ (forward_ups true (ups_of (S d)) (rev skip_connections)
                               (range 0 (len (ups_of (S d))) 2) input2)
                        (fun input3 =>
                           call true (Single (Conv2d 64 out_channels 1 0)) input3)))
              _ []
              (forward_downs_spec true 1 (S d) 0 in_channels 1 1 [] ltac:(lia) ltac:(lia)))
    as [log' Hlog].
  rewrite Hlog. cbn [channels_after Nat.add].
  rewrite Nat.sub_succ, Nat.sub_0_r.
  unfold then_ at 1. unfold call at 1.
  cbn [module_layers DoubleConvolutionalBlock call_layers].
  unfold then_ at 1. cbn [apply_layer].
  rewrite Z.eqb_refl. cbn [negb Z.add Z.mul Z.ltb Z.compare Pos.compare Pos.compare_cont
                             Pos.add Pos.mul orb].
  cbn [call_layers]. unfold then_ at 1. cbn [apply_layer]. reflexivity.
Qed.

(** X16. In training mode, the mode a network is constructed in, a single
    image whose height and width are exactly [2 ^ depth] is refused at
    every depth: the encoder halves it down to one value per channel, and
    the first normalisation layer of the bottleneck raises.  Once the
    network is in evaluation mode the same image goes through. *)
Theorem forward_single_value (in_channels out_channels depth : Z) :
  1 <= depth ->
  exists net,
    UNet_init in_channels out_channels depth = Return net
    /\ snd (forward net [1; in_channels; 2 ^ depth; 2 ^ depth] [])
       = Raise (ValueError "Expected more than 1 value per channel when training")
    /\ exists trace,
         forward (UNet_train net false) [1; in_channels; 2 ^ depth; 2 ^ depth] []
         = (trace, Return [1; out_channels; 2 ^ depth; 2 ^ depth]).
Proof.
  intros Hdepth.
  exists (network in_channels out_channels (Z.to_nat depth) true).
  split; [ apply UNet_init_spec; exact Hdepth | ].
  destruct (Z.to_nat depth) as [ | d ] eqn:Hd; [ lia | ].
  assert (Hfactor : 2 ^ depth = 1 * 2 ^ Z.of_nat (S d))
    by (rewrite <- Hd, Z2Nat.id; lia).
  rewrite Hfactor. split.
  - apply forward_network_single_value.
  - exact (forward_network_yields in_channels out_channels 1 d false 1 1
             ltac:(lia) ltac:(lia) (or_introl eq_refl) []).
Qed.

Lemma forward_single_value_witness :
  exists net,
    UNet_init 3 1 3 = Return net
    /\ snd (forward net [1; 3; 2 ^ 3; 2 ^ 3] [])
       = Raise (ValueError "Expected more than 1 value per channel when training")
    /\ exists trace,
         forward (UNet_train net false) [1; 3; 2 ^ 3; 2 ^ 3] []
         = (trace, Return [1; 1; 2 ^ 3; 2 ^ 3]).
Proof.
  apply (forward_single_value 3 1 3). lia.
Defined.

Lemma window_out_same (size : Z) : window_out size 3 1 1 = size.
Proof. unfold window_out. rewrite Z.div_1_r. lia. Qed.

(** X17. What a double convolutional block does with a batched input, and
    the layers it calls on the way.  The first convolution refuses a wrong
    number of channels and an empty image; in training mode the first
    normalisation layer refuses a single value per channel; an input that
    gets past these goes through all six layers and keeps its batch size,
    height and width, with [out_channels] channels. *)
Theorem DoubleConvolutionalBlock_forward
    (mode : bool) (in_channels out_channels n c h w : Z) (log : list layer) :
  call mode (DoubleConvolutionalBlock in_channels out_channels) [n; c; h; w] log
  = if negb (c =? in_channels)
    then (log ++ [Conv2d in_channels out_channels 3 1],
          Raise (RuntimeError "Given weight expects a different number of input channels"))
    else if (h <? 1) || (w <? 1)
    then (log ++ [Conv2d in_channels out_channels 3 1],
          Raise (RuntimeError "Kernel size can't be greater than actual input size"))
    else if mode && (n * h * w =? 1)
    then (log ++ [Conv2d in_channels out_channels 3 1; BatchNorm2d out_channels],
          Raise (ValueError "Expected more than 1 value per channel when training"))
    else (log ++ [Conv2d in_channels out_channels 3 1; BatchNorm2d out_channels; ReLU;
                  Conv2d out_channels out_channels 3 1; BatchNorm2d out_channels; ReLU],
          Return [n; out_channels; h; w]).
Proof.
  unfold call. cbn [module_layers DoubleConvolutionalBlock call_layers].
  unfold then_ at 1. cbn [apply_layer].
  destruct (c =? in_channels) eqn:Hc; cbn [negb]; [ | reflexivity ].
  assert (Hh : (h + 2 * 1 <? 3) = (h <? 1)).
  { destruct (h <? 1) eqn:H; [ apply Z.ltb_lt in H; apply Z.ltb_lt; lia
                             | apply Z.ltb_ge in H; apply Z.ltb_ge; lia ]. }
  assert (Hw : (w + 2 * 1 <? 3) = (w <? 1)).
  { destruct (w <? 1) eqn:H; [ apply Z.ltb_lt in H; apply Z.ltb_lt; lia
                             | apply Z.ltb_ge in H; apply Z.ltb_ge; lia ]. }
  rewrite !Hh, !Hw, !window_out_same.
  destruct ((h <? 1) || (w <? 1)) eqn:Hsize; [ reflexivity | ].
  unfold then_ at 1. cbn [apply_layer].
  destruct (mode && (n * h * w =? 1)) eqn:Hvalues.
  { rewrite <- app_assoc. reflexivity. }
  rewrite Z.eqb_refl. cbn [negb].
  unfold then_ at 1. cbn [apply_layer].
  unfold then_ at 1. cbn [apply_layer].
  rewrite Z.eqb_refl, !Hh, !Hw, Hsize, !window_out_same. cbn [negb].
  unfold then_ at 1. cbn [apply_layer].
  rewrite Hvalues, Z.eqb_refl. cbn [negb].
  unfold then_ at 1. cbn [apply_layer]. unfold ret.
  rewrite <- !app_assoc. reflexivity.
Qed.

(** ** The inputs [forward] accepts *)

Lemma forward_network_divisible (in_channels out_channels n c h w : Z) (d : nat)
    (mode : bool) (trace : list layer) (output : Tensor) :
  forward (network in_channels out_channels (S d) mode) [n; c; h; w] []
    = (trace, Return output) ->
  h mod 2 ^ Z.of_nat (S d) = 0 /\ w mod 2 ^ Z.of_nat (S d) = 0.
Proof.
  unfold forward. cbn [downs network].
  assert (Hlen : len (downs_from 0 (S d) in_channels) = Z.of_nat (S d))
    by (unfold len; rewrite length_downs_from; reflexivity).
  rewrite !Hlen.
  change (index [n; c; h; w] 3) with (Return w).
  change (index [n; c; h; w] 2) with (Return h).
  unfold then_ at 1 2 3, lift, ret, raise.
  destruct (w mod 2 ^ Z.of_nat (S d) =? 0) eqn:Hw; cbn [negb]; [ | discriminate ].
  destruct (h mod 2 ^ Z.of_nat (S d) =? 0) eqn:Hh; cbn [negb]; [ | discriminate ].
  intros _. apply Z.eqb_eq in Hw, Hh. split; assumption.
Qed.

Lemma forward_network_first_convolution (in_channels out_channels n c h w : Z) (d : nat)
    (mode : bool) (trace : list layer) (output : Tensor) :
  forward (network in_channels out_channels (S d) mode) [n; c; h; w] []
    = (trace, Return output) ->
  c = in_channels /\ 0 < h /\ 0 < w.
Proof.
  intros H. destruct (forward_network_divisible _ _ _ _ _ _ _ _ _ _ H) as [Hh Hw].
  revert H. unfold forward. cbn [downs pool training network].
  assert (Hlen : len (downs_from 0 (S d) in_channels) = Z.of_nat (S d))
    by (unfold len; rewrite length_downs_from; reflexivity).
  rewrite !Hlen.
  change (index [n; c; h; w] 3) with (Return w).
  change (index [n; c; h; w] 2) with (Return h).
  unfold then_ at 1 2 3, lift, ret.
  rewrite Hw, Hh. cbn [Z.eqb negb].
  cbn [downs_from forward_downs].
  unfold then_ at 1 2. unfold call at 1.
  cbn [module_layers DoubleConvolutionalBlock call_layers].
  unfold then_ at 1. cbn [apply_layer].
  destruct (c =? in_channels) eqn:Hc; cbn [negb]; [ | discriminate ].
  destruct (h + 2 * 1 <? 3) eqn:Hheight; cbn [orb]; [ discriminate | ].
  destruct (w + 2 * 1 <? 3) eqn:Hwidth; [ discriminate | ].
  intros _. apply Z.eqb_eq in Hc. apply Z.ltb_ge in Hheight, Hwidth.
  repeat split; [ exact Hc | lia | lia ].
Qed.

(** X18. The inputs of four dimensions a constructed network accepts, in
    either mode.  [forward] returns exactly when the input has the channels
    the network was built for and a positive height and width that are
    multiples of [2 ^ depth], and, in training mode, the bottleneck holds
    more than one value per channel; what it returns then has the batch
    size, the height and the width of the input, and [out_channels]
    channels. *)
Theorem forward_returns_iff (in_channels out_channels depth : Z) (mode : bool)
    (batch channels h w : Z) :
  1 <= depth ->
  exists net,
    UNet_init in_channels out_channels depth = Return net
    /\ ((exists trace output,
           forward (UNet_train net mode) [batch; channels; h; w] []
           = (trace, Return output))
        <-> channels = in_channels /\ 0 < h /\ 0 < w
            /\ h mod 2 ^ depth = 0 /\ w mod 2 ^ depth = 0
            /\ (mode = false \/ batch * (h / 2 ^ depth) * (w / 2 ^ depth) <> 1))
    /\ (forall trace output,
          forward (UNet_train net mode) [batch; channels; h; w] [] = (trace, Return output) ->
          output = [batch; out_channels; h; w]).
Proof.
  intros Hdepth.
  exists (network in_channels out_channels (Z.to_nat depth) true).
  split; [ apply UNet_init_spec; exact Hdepth | ].
  change (UNet_train (network in_channels out_channels (Z.to_nat depth) true) mode)
    with (network in_channels out_channels (Z.to_nat depth) mode).
  destruct (Z.to_nat depth) as [ | d ] eqn:Hd; [ lia | ].
  assert (Hfactor : 2 ^ depth = 2 ^ Z.of_nat (S d))
    by (rewrite <- Hd, Z2Nat.id; [ reflexivity | lia ]).
  rewrite Hfactor.
  pose proof (pow2_positive (S d)) as Hpow.
  assert (Hreturns : forall trace output,
            forward (network in_channels out_channels (S d) mode) [batch; channels; h; w] []
              = (trace, Return output) ->
            channels = in_channels /\ 0 < h /\ 0 < w
            /\ h mod 2 ^ Z.of_nat (S d) = 0 /\ w mod 2 ^ Z.of_nat (S d) = 0
            /\ (mode = false
                \/ batch * (h / 2 ^ Z.of_nat (S d)) * (w / 2 ^ Z.of_nat (S d)) <> 1)).
  { intros trace output H.
    destruct (forward_network_divisible _ _ _ _ _ _ _ _ _ _ H) as [Hh Hw].
    destruct (forward_network_first_convolution _ _ _ _ _ _ _ _ _ _ H) as (Hc & Hh0 & Hw0).
    repeat split; try assumption.
    destruct mode; [ right | left; reflexivity ].
    intros Hone.
    assert (Hh' : h = h / 2 ^ Z.of_nat (S d) * 2 ^ Z.of_nat (S d)).
    { rewrite Z.mul_comm. apply Z.div_exact; lia. }
    assert (Hw' : w = w / 2 ^ Z.of_nat (S d) * 2 ^ Z.of_nat (S d)).
    { rewrite Z.mul_comm. apply Z.div_exact; lia. }
    assert (Hhb : 0 < h / 2 ^ Z.of_nat (S d)) by nia.
    assert (Hwb : 0 < w / 2 ^ Z.of_nat (S d)) by nia.
    assert (Hw1 : w / 2 ^ Z.of_nat (S d) = 1).
    { destruct (Z.mul_eq_1 _ _ Hone) as [Hn | Hn]; [ | lia ].
      rewrite Z.mul_comm in Hone. destruct (Z.mul_eq_1 _ _ Hone); lia. }
    rewrite Hw1, Z.mul_1_r in Hone.
    assert (Hh1 : h / 2 ^ Z.of_nat (S d) = 1).
    { rewrite Z.mul_comm in Hone. destruct (Z.mul_eq_1 _ _ Hone); lia. }
    rewrite Hh1, Z.mul_1_r in Hone.
    rewrite Hh1 in Hh'. rewrite Hw1 in Hw'.
    pose proof (forward_network_single_value in_channels out_channels d) as Hraise.
    assert (Hwh : w = h) by lia.
    rewrite <- Hh' in Hraise. rewrite Hone, Hc, Hwh in H.
    rewrite H in Hraise. discriminate Hraise. }
  assert (Hyields : channels = in_channels /\ 0 < h /\ 0 < w
            /\ h mod 2 ^ Z.of_nat (S d) = 0 /\ w mod 2 ^ Z.of_nat (S d) = 0
            /\ (mode = false
                \/ batch * (h / 2 ^ Z.of_nat (S d)) * (w / 2 ^ Z.of_nat (S d)) <> 1) ->
            exists trace,
              forward (network in_channels out_channels (S d) mode) [batch; channels; h; w] []
              = (trace, Return [batch; out_channels; h; w])).
  { intros (-> & Hh0 & Hw0 & Hh & Hw & Hvalues).
    assert (Hh' : h = h / 2 ^ Z.of_nat (S d) * 2 ^ Z.of_nat (S d)).
    { rewrite Z.mul_comm. apply Z.div_exact; lia. }
    assert (Hw' : w = w / 2 ^ Z.of_nat (S d) * 2 ^ Z.of_nat (S d)).
    { rewrite Z.mul_comm. apply Z.div_exact; lia. }
    assert (Hhb : 0 < h / 2 ^ Z.of_nat (S d)) by nia.
    assert (Hwb : 0 < w / 2 ^ Z.of_nat (S d)) by nia.
    destruct (forward_network_yields in_channels out_channels batch d mode
                (h / 2 ^ Z.of_nat (S d)) (w / 2 ^ Z.of_nat (S d)) Hhb Hwb Hvalues [])
      as [trace Htrace].
    rewrite <- Hh', <- Hw' in Htrace. exists trace. exact Htrace. }
  split; [ split | ].
  - intros (trace & output & H). exact (Hreturns trace output H).
  - intros Hconditions. destruct (Hyields Hconditions) as [trace Htrace].
    exists trace, [batch; out_channels; h; w]. exact Htrace.
  - intros trace output H.
    destruct (Hyields (Hreturns trace output H)) as [trace' Htrace].
    rewrite H in Htrace. injection Htrace as _ ->. reflexivity.
Qed.

Lemma forward_returns_iff_witness :
  exists net,
    UNet_init 3 1 2 = Return net
    /\ ((exists trace output,
           forward (UNet_train net true) [1; 3; 4; 4] [] = (trace, Return output))
        <-> 3 = 3 /\ 0 < 4 /\ 0 < 4
            /\ 4 mod 2 ^ 2 = 0 /\ 4 mod 2 ^ 2 = 0
            /\ (true = false \/ 1 * (4 / 2 ^ 2) * (4 / 2 ^ 2) <> 1))
    /\ (forall trace output,
          forward (UNet_train net true) [1; 3; 4; 4] [] = (trace, Return output) ->
          output = [1; 1; 4; 4]).
Proof.
  apply (forward_returns_iff 3 1 2 true 1 3 4 4). lia.
Defined.

(* ===================================================================== *)
(** * More of src/python/marker/model.py                                  *)
(* ===================================================================== *)

(** ** The size of a network's state *)

Lemma length_state_downs (k : nat) :
  forall (i : nat) (c : Z),
    length (flat_map layer_state (flat_map module_layers (downs_from i k c))) = (14 * k)%nat
    /\ length (flat_map layer_parameters (flat_map module_layers (downs_from i k c)))
       = (8 * k)%nat.
Proof.
  induction k as [ | k IH ]; intros i c; [ split; reflexivity | ].
  destruct (IH (S i) (feature i)) as [Hstate Hparameters].
  cbn [downs_from flat_map module_layers DoubleConvolutionalBlock app layer_state
       layer_parameters length].
  rewrite Hstate, Hparameters. split; lia.
Qed.

Lemma length_state_ups (k : nat) :
  length (flat_map layer_state (flat_map module_layers (ups_of k))) = (16 * k)%nat
  /\ length (flat_map layer_parameters (flat_map module_layers (ups_of k))) = (10 * k)%nat.
Proof.
  induction k as [ | k [Hstate Hparameters] ]; [ split; reflexivity | ].
  cbn [ups_of flat_map module_layers DoubleConvolutionalBlock app layer_state
       layer_parameters length].
  rewrite Hstate, Hparameters. split; lia.
Qed.

(** A network of [d] levels registers [30 * d + 16] parameters and buffers,
    [18 * d + 10] of which are learnable. *)
Lemma len_state_network (in_channels out_channels : Z) (d : nat) (mode : bool) :
  len (flat_map layer_state (network_layers (network in_channels out_channels d mode)))
    = 30 * Z.of_nat d + 16
  /\ len (flat_map layer_parameters
            (network_layers (network in_channels out_channels d mode)))
     = 18 * Z.of_nat d + 10.
Proof.
  unfold network_layers, len. cbn [downs ups pool bottleneck final_convolution network].
  rewrite !flat_map_app, !List.length_app.
  destruct (length_state_downs d 0 in_channels) as [-> ->].
  destruct (length_state_ups d) as [-> ->].
  cbn [flat_map module_layers DoubleConvolutionalBlock app layer_state layer_parameters
       length].
  split; lia.
Qed.

Lemma network_layers_mode (net : UNet) (mode : bool) :
  network_layers (UNet_train net mode) = network_layers net.
Proof. reflexivity. Qed.

Section Lifecycle_coverage.

Context `{runtime : Runtime}.

(** X19. The four outcomes of [Marker(device, width, height, depth)], in the
    order the constructor reaches them: a string that names no device type
    is refused first; then a depth without a level, whether the device is
    available or not; then a device the network cannot be moved to;
    otherwise the marker is constructed [Ready], in training mode, with the
    given size and depth, a loss of [1.0], no iteration, and the initial
    state of its network and of its optimiser. *)
Theorem Marker_init_outcomes (device : string) (width height depth : Z) :
  (device_valid device = false ->
   Marker_init device width height depth
   = Raise (RuntimeError "Expected one of the device types at start of device string"))
  /\ (device_valid device = true -> depth <= 0 ->
      Marker_init device width height depth = Raise (IndexError "index out of range"))
  /\ (device_valid device = true -> 1 <= depth -> device_available device = false ->
      raises (Marker_init device width height depth))
  /\ (device_valid device = true -> 1 <= depth -> device_available device = true ->
      exists self,
        Marker_init device width height depth = Return self
        /\ Ready self /\ training (model self) = true
        /\ Model.device self = device
        /\ Model.width self = width /\ Model.height self = height
        /\ Model.depth self = depth
        /\ loss self = float_one /\ iterations self = 0
        /\ weights self = initial_weights (model self)
        /\ optimizer self = initial_moments).
Proof.
  unfold Marker_init. repeat split.
  - intros ->. reflexivity.
  - intros -> Hdepth. unfold UNet_init.
    replace (Z.to_nat depth) with 0%nat by lia. reflexivity.
  - intros -> Hdepth ->. rewrite (UNet_init_spec 3 1 depth Hdepth).
    eexists. reflexivity.
  - intros Hvalid Hdepth Havailable. rewrite Hvalid, Havailable.
    rewrite (UNet_init_spec 3 1 depth Hdepth). cbn [bind].
    eexists. split; [ reflexivity | ].
    repeat split; try reflexivity; try assumption.
    apply UNet_init_spec. exact Hdepth.
Qed.

(** X21. Every marker [load] returns is [Ready] on the device asked for and
    in training mode, whatever mode the saved marker was in; it carries the
    size, the depth, the loss, the iterations, the values and the optimiser
    state of the file, and a file it accepts holds [30 * depth + 16]
    entries for the network and a parameter group of [18 * depth + 10]. *)
Theorem Marker_load_returns (files : Files) (device path : string) (loaded : Marker) :
  Marker_load files device path = Return loaded ->
  exists data,
    files !! path = Some data
    /\ Ready loaded /\ Model.device loaded = device
    /\ training (model loaded) = true
    /\ width loaded = saved_width data /\ height loaded = saved_height data
    /\ depth loaded = saved_depth data
    /\ loss loaded = saved_loss data /\ iterations loaded = saved_iterations data
    /\ weights loaded = values (saved_model_state data)
    /\ optimizer loaded = state (saved_optimizer_state data)
    /\ len (entries (saved_model_state data)) = 30 * saved_depth data + 16
    /\ group_size (saved_optimizer_state data) = 18 * saved_depth data + 10.
Proof.
  unfold Marker_load. intros H.
  destruct (files !! path) as [ data | ]; [ | discriminate H ].
  exists data. split; [ reflexivity | ].
  destruct (device_valid device) eqn:Hvalid; [ | discriminate H ].
  destruct (device_available device) eqn:Havailable; [ | discriminate H ].
  cbn [andb negb] in H. unfold Marker_init in H. rewrite Hvalid in H.
  destruct (Z_lt_le_dec (saved_depth data) 1) as [Hsmall | Hdepth].
  { unfold UNet_init in H.
    replace (Z.to_nat (saved_depth data)) with 0%nat in H by lia. discriminate H. }
  rewrite (UNet_init_spec 3 1 (saved_depth data) Hdepth) in H.
  cbn [bind] in H. rewrite Havailable in H. cbn [bind] in H.
  unfold model_load_state_dict in H. cbn [model] in H.
  destruct (bool_decide _) eqn:Hentries in H; [ | discriminate H ].
  apply bool_decide_eq_true_1 in Hentries.
  cbn [bind] in H. unfold optimizer_load_state_dict in H. cbn [model set_weights] in H.
  destruct (group_size (saved_optimizer_state data) =? _) eqn:Hgroup in H;
    [ | discriminate H ].
  apply Z.eqb_eq in Hgroup. cbn [bind] in H. injection H as <-.
  destruct (len_state_network 3 1 (Z.to_nat (saved_depth data)) true) as [Hstate Hparameters].
  rewrite Z2Nat.id in Hstate, Hparameters by lia.
  repeat split; try reflexivity; try assumption.
  - apply UNet_init_spec. exact Hdepth.
  - rewrite Hentries. exact Hstate.
  - rewrite Hgroup. exact Hparameters.
Qed.

(** A file [load] accepts holds the entries of a network of its depth. *)
Lemma Marker_load_entries (files : Files) (device path : string) (loaded : Marker) :
  Marker_load files device path = Return loaded ->
  exists data,
    files !! path = Some data
    /\ len (entries (saved_model_state data)) = 30 * saved_depth data + 16.
Proof.
  unfold Marker_load. intros H.
  destruct (files !! path) as [ data | ]; [ | discriminate H ].
  exists data. split; [ reflexivity | ].
  destruct (negb (device_valid device && device_available device)); [ discriminate H | ].
  destruct (Marker_init device (saved_width data) (saved_height data) (saved_depth data))
    as [ marker | ] eqn:Hinit; [ | discriminate H ].
  cbn [bind] in H. unfold model_load_state_dict in H.
  destruct (bool_decide _) eqn:Hentries in H; [ | discriminate H ].
  apply bool_decide_eq_true_1 in Hentries. rewrite Hentries.
  unfold Marker_init in Hinit.
  destruct (device_valid device); [ | discriminate Hinit ].
  destruct (Z_lt_le_dec (saved_depth data) 1) as [Hsmall | Hdepth].
  { unfold UNet_init in Hinit.
    replace (Z.to_nat (saved_depth data)) with 0%nat in Hinit by lia. discriminate Hinit. }
  rewrite (UNet_init_spec 3 1 (saved_depth data) Hdepth) in Hinit. cbn [bind] in Hinit.
  destruct (device_available device); [ | discriminate Hinit ].
  injection Hinit as <-. cbn [model].
  destruct (len_state_network 3 1 (Z.to_nat (saved_depth data)) true) as [Hstate _].
  rewrite Z2Nat.id in Hstate by lia. exact Hstate.
Qed.

(** X22. The depth written in a file is checked against the state written
    beside it: a file that holds the network state of a [Ready] marker
    under another depth is refused by [load]. *)
Theorem Marker_load_depth_mismatch (self : Marker) (files : Files)
    (device path : string) (data : Snapshot) :
  Ready self ->
  files !! path = Some data ->
  saved_model_state data = model_state_dict self ->
  saved_depth data <> depth self ->
  raises (Marker_load files device path).
Proof.
  intros Hready Hdata Hstate Hdepth.
  destruct (Marker_load files device path) as [ loaded | e ] eqn:Hload;
    [ exfalso | exists e; reflexivity ].
  destruct (Marker_load_entries files device path loaded Hload) as (data' & Hdata' & Hlen).
  rewrite Hdata in Hdata'. injection Hdata' as <-.
  destruct (Ready_network self Hready) as [Hself Hnet].
  rewrite Hstate in Hlen. cbn [entries model_state_dict] in Hlen.
  rewrite <- (network_layers_mode (model self) true), Hnet in Hlen.
  destruct (len_state_network 3 1 (Z.to_nat (depth self)) true) as [Hentries _].
  rewrite Z2Nat.id in Hentries by lia. lia.
Qed.

(** X23. Whatever the outcome of an epoch, [train] leaves the marker on its
    device, with its size, its depth and the modules of its network, which
    it has put in training mode; the count of iterations is the old one or
    one more; a marker that was [Ready] still is. *)
Theorem Marker_train_frame (self : Marker) (start stop : Q) (loader : list Batch) :
  device (fst (Marker_train self start stop loader)) = device self
  /\ width (fst (Marker_train self start stop loader)) = width self
  /\ height (fst (Marker_train self start stop loader)) = height self
  /\ depth (fst (Marker_train self start stop loader)) = depth self
  /\ model (fst (Marker_train self start stop loader)) = UNet_train (model self) true
  /\ (iterations (fst (Marker_train self start stop loader)) = iterations self
      \/ iterations (fst (Marker_train self start stop loader)) = iterations self + 1)
  /\ (Ready self -> Ready (fst (Marker_train self start stop loader))).
Proof.
  assert (Hfields :
    device (fst (Marker_train self start stop loader)) = device self
    /\ width (fst (Marker_train self start stop loader)) = width self
    /\ height (fst (Marker_train self start stop loader)) = height self
    /\ depth (fst (Marker_train self start stop loader)) = depth self
    /\ model (fst (Marker_train self start stop loader)) = UNet_train (model self) true
    /\ (iterations (fst (Marker_train self start stop loader)) = iterations self
        \/ iterations (fst (Marker_train self start stop loader)) = iterations self + 1)).
  { unfold Marker_train.
    pose proof (train_loop_frame loader (set_training self true) []) as Hframe.
    destruct (train_loop (set_training self true) loader []) as [self1 [ average | e ]];
      simpl in Hframe; destruct Hframe as (_ & Hi & Hd & Hm & Hw & Hh & Hdepth).
    - destruct (len average =? 0); simpl; rewrite Hi, Hd, Hm, Hw, Hh, Hdepth;
        repeat split; auto.
    - simpl. rewrite Hi, Hd, Hm, Hw, Hh, Hdepth. repeat split; auto. }
  destruct Hfields as (Hd & Hw & Hh & Hdepth & Hm & Hi).
  split; [ exact Hd | ]. split; [ exact Hw | ]. split; [ exact Hh | ].
  split; [ exact Hdepth | ]. split; [ exact Hm | ]. split; [ exact Hi | ].
  apply Marker_train_Ready.
Qed.

Lemma train_loop_raise_app (loader rest : list Batch) :
  forall (self self' : Marker) (average : list Float) (e : exn),
    train_loop self loader average = (self', Raise e) ->
    train_loop self (loader ++ rest) average = (self', Raise e).
Proof.
  induction loader as [ | batch loader IH ]; intros self self' average e H.
  - discriminate H.
  - cbn [train_loop app] in *.
    destruct (train_on_batch self batch) as [self1 [ loss1 | e1 ]].
    + apply IH. exact H.
    + exact H.
Qed.

Lemma train_loop_length (loader : list Batch) :
  forall (self self' : Marker) (average average' : list Float),
    train_loop self loader average = (self', Return average') ->
    length average' = (length average + length loader)%nat.
Proof.
  induction loader as [ | batch loader IH ]; intros self self' average average' H.
  - injection H as _ <-. cbn [length]. lia.
  - cbn [train_loop] in H.
    destruct (train_on_batch self batch) as [self1 [ loss1 | e1 ]]; [ | discriminate H ].
    apply IH in H. rewrite H, List.length_app. cbn [length]. lia.
Qed.

(** X24. An epoch ends at the first batch that fails: when [train] raises
    on a loader that is not empty, it does the same, and leaves the same
    marker, on that loader followed by any further batches. *)
Theorem Marker_train_stops (self : Marker) (start stop : Q)
    (loader rest : list Batch) (e : exn) :
  loader <> [] ->
  snd (Marker_train self start stop loader) = Raise e ->
  Marker_train self start stop (loader ++ rest) = Marker_train self start stop loader.
Proof.
  intros Hloader H. unfold Marker_train in *.
  destruct (train_loop (set_training self true) loader []) as [self1 [ average | e1 ]]
    eqn:Hloop.
  - exfalso. apply train_loop_length in Hloop. cbn [length Nat.add] in Hloop.
    assert (Hlen : (len average =? 0) = false).
    { apply Z.eqb_neq. unfold len. destruct loader; [ congruence | ].
      cbn [length] in Hloop. lia. }
    rewrite Hlen in H. discriminate H.
  - rewrite (train_loop_raise_app loader rest _ _ _ _ Hloop). reflexivity.
Qed.

(** X25. [mark] never returns a mask.  It puts the network in evaluation
    mode and changes nothing else of the marker; an image that does not
    have three dimensions is refused by [fit_tensor]; an image of three
    dimensions either fails in [fit_tensor] or is fitted to a tensor of
    three dimensions, of which [forward] cannot read [input.shape[3]]. *)
Theorem Marker_mark_never_returns (self : Marker) (image : Tensor) :
  fst (Marker_mark self image) = set_training self false
  /\ (len image <> 3 ->
      snd (Marker_mark self image) = Raise (ValueError "Unsupported tensor shape"))
  /\ (len image = 3 ->
      (exists e, fit_tensor image (width self) (height self) = Raise e
                 /\ snd (Marker_mark self image) = Raise e)
      \/ snd (Marker_mark self image) = Raise (IndexError "index out of range")).
Proof.
  split; [ reflexivity | ]. unfold Marker_mark. cbn [snd set_training width height model].
  split.
  - intros Hlen. unfold fit_tensor.
    assert (Hrank : (len image =? 3) = false) by (apply Z.eqb_neq; exact Hlen).
    rewrite Hrank. reflexivity.
  - intros _.
    destruct (fit_tensor image (width self) (height self))
      as [ [fitted [[[offset_x offset_y] new_width] new_height]] | e ] eqn:Hfit.
    + right. apply fit_tensor_three_dimensions in Hfit as (channels & h & w & ->).
      cbn [bind]. rewrite forward_three_dimensions. reflexivity.
    + left. exists e. split; reflexivity.
Qed.

End Lifecycle_coverage.

Lemma Marker_load_returns_witness :
  exists data,
    fst (Marker_save Examples.trained_marker Examples.empty_disk "marker.pt") !! "marker.pt"
    = Some data
    /\ Ready Examples.trained_marker /\ Model.device Examples.trained_marker = "cpu"
    /\ training (model Examples.trained_marker) = true
    /\ width Examples.trained_marker = saved_width data
    /\ height Examples.trained_marker = saved_height data
    /\ depth Examples.trained_marker = saved_depth data
    /\ loss Examples.trained_marker = saved_loss data
    /\ iterations Examples.trained_marker = saved_iterations data
    /\ weights Examples.trained_marker = values (saved_model_state data)
    /\ optimizer Examples.trained_marker = state (saved_optimizer_state data)
    /\ len (entries (saved_model_state data)) = 30 * saved_depth data + 16
    /\ group_size (saved_optimizer_state data) = 18 * saved_depth data + 10.
Proof.
  apply (@Marker_load_returns Examples.counting_runtime
           (fst (Marker_save Examples.trained_marker Examples.empty_disk "marker.pt"))
           "cpu" "marker.pt" Examples.trained_marker).
  apply (@Marker_load_saved Examples.counting_runtime Examples.trained_marker
           Examples.empty_disk _ "cpu" "marker.pt" "marker.pt");
    [ repeat split | | | | ]; reflexivity.
Defined.

Lemma Marker_load_depth_mismatch_witness :
  raises (@Marker_load Examples.counting_runtime Examples.relabelled_disk "cpu" "marker.pt").
Proof.
  apply (@Marker_load_depth_mismatch Examples.counting_runtime Examples.trained_marker
           Examples.relabelled_disk "cpu" "marker.pt" Examples.relabelled_snapshot).
  - repeat split; reflexivity.
  - reflexivity.
  - reflexivity.
  - discriminate.
Defined.

Lemma Marker_train_stops_witness :
  @Marker_train Examples.counting_runtime Examples.trained_marker 0 7
    ([Examples.mismatched_batch] ++ Examples.two_batches)
  = @Marker_train Examples.counting_runtime Examples.trained_marker 0 7
      [Examples.mismatched_batch].
Proof.
  apply (@Marker_train_stops Examples.counting_runtime Examples.trained_marker 0 7
           [Examples.mismatched_batch] Examples.two_batches
           (ValueError "Target size must be the same as input size")).
  - discriminate.
  - vm_compute. reflexivity.
Defined.

(* ===================================================================== *)
(** * More of src/python/marker/loader.py                                 *)
(* ===================================================================== *)

Lemma Dataset_init_listed (fs : filesystem) (directory sort : string) (self : Dataset)
    (name : string) :
  Dataset_init fs directory sort = Return self ->
  In name (Dataset_list self) ->
  exists entry, Dataset_get self name = Return entry.
Proof.
  intros H Hname.
  destruct (Dataset_init_returns fs directory sort self H) as (_ & _ & Hsort).
  pose proof (sort_entries_Permutation _ _ _ Hsort) as Hperm.
  apply (Permutation_in _ (Permutation_sym Hperm)) in Hname.
  destruct (dict_get_In _ _ Hname) as (entry & Hget & _).
  exists entry. unfold Dataset_get. rewrite Hget. reflexivity.
Qed.

(** X26. A loader over a constructed [Dataset]: when the dataset lists no
    entry the loader is constructed, and is empty; when it lists one,
    the first entry is found in the map and the call of [entry.exists()]
    raises an [AttributeError], so that no loader is constructed. *)
Theorem MarkerLoader_init_of_Dataset (fs : filesystem) (directory sort : string)
    (dataset : Dataset) (width height : Z) :
  Dataset_init fs directory sort = Return dataset ->
  MarkerLoader_init dataset width height
  = if Dataset_size dataset =? 0
    then Return {| loader_entries := []; loader_width := width; loader_height := height |}
    else Raise (AttributeError "'Entry' object has no attribute 'exists'").
Proof.
  intros H. unfold Dataset_size, len.
  destruct (Dataset_list dataset) as [ | name rest ] eqn:Hlist.
  - unfold Dataset_list in Hlist. rewrite Hlist. cbn [length Z.of_nat Z.eqb].
    apply MarkerLoader_init_empty. exact Hlist.
  - destruct (Dataset_init_listed fs directory sort dataset name H) as [entry Hentry].
    { rewrite Hlist. left. reflexivity. }
    unfold Dataset_list in Hlist.
    unfold MarkerLoader_init, Dataset_list. rewrite Hlist.
    cbn [append_entries length]. rewrite Hentry. cbn [bind].
    rewrite Entry_exists_raises. reflexivity.
Qed.

Lemma MarkerLoader_init_of_Dataset_witness :
  MarkerLoader_init
    {| directory := "."; sort := "name"; entry_map := []; entry_list := [] |} 64 64
  = if Dataset_size
         {| directory := "."; sort := "name"; entry_map := []; entry_list := [] |} =? 0
    then Return {| loader_entries := []; loader_width := 64; loader_height := 64 |}
    else Raise (AttributeError "'Entry' object has no attribute 'exists'").
Proof.
  apply (MarkerLoader_init_of_Dataset Examples.paired_files "." "name").
  reflexivity.
Defined.

(** X27. Every loader that is constructed is empty, whatever the dataset
    it is given: the dataset lists nothing, [len] of the loader is zero, and
    [loader[index]] raises an [IndexError] for every index, before any
    picture is read. *)
Theorem MarkerLoader_init_always_empty (dataset : Dataset) (width height : Z)
    (loader : MarkerLoader) :
  MarkerLoader_init dataset width height = Return loader ->
  Dataset_list dataset = []
  /\ loader = {| loader_entries := []; loader_width := width; loader_height := height |}
  /\ MarkerLoader_len loader = 0
  /\ forall pictures idx,
       MarkerLoader_getitem pictures loader idx = Raise (IndexError "index out of range").
Proof.
  intros H.
  destruct (Dataset_list dataset) as [ | name rest ] eqn:Hlist.
  - rewrite (MarkerLoader_init_empty dataset width height Hlist) in H.
    injection H as <-. repeat split.
    intros pictures idx. unfold MarkerLoader_getitem. cbn [loader_entries].
    assert (Hindex : index (@nil Entry) idx = Raise (IndexError "index out of range")).
    { unfold index. destruct ((if idx <? 0 then idx + len [] else idx) <? 0);
        [ reflexivity | ].
      destruct (Z.to_nat _); reflexivity. }
    rewrite Hindex. reflexivity.
  - destruct (MarkerLoader_init_raises dataset width height) as [e He]; [ | congruence ].
    rewrite Hlist. discriminate.
Qed.

Lemma MarkerLoader_init_always_empty_witness :
  Dataset_list {| directory := "."; sort := "name"; entry_map := []; entry_list := [] |} = []
  /\ {| loader_entries := []; loader_width := 64; loader_height := 32 |}
     = {| loader_entries := []; loader_width := 64; loader_height := 32 |}
  /\ MarkerLoader_len {| loader_entries := []; loader_width := 64; loader_height := 32 |} = 0
  /\ forall pictures idx,
       MarkerLoader_getitem pictures
         {| loader_entries := []; loader_width := 64; loader_height := 32 |} idx
       = Raise (IndexError "index out of range").
Proof.
  apply (MarkerLoader_init_always_empty
           {| directory := "."; sort := "name"; entry_map := []; entry_list := [] |} 64 32).
  reflexivity.
Defined.

Lemma index_returns {A : Type} (l : list A) (i : Z) (a : A) :
  index l i = Return a -> - len l <= i < len l.
Proof.
  unfold index, len. intros H.
  destruct (i <? 0) eqn:Hneg.
  - apply Z.ltb_lt in Hneg.
    destruct (i + Z.of_nat (length l) <? 0) eqn:Hj; [ discriminate H | ].
    apply Z.ltb_ge in Hj. lia.
  - apply Z.ltb_ge in Hneg.
    destruct (i <? 0); [ discriminate H | ].
    destruct (nth_error l (Z.to_nat i)) eqn:Hnth; [ | discriminate H ].
    assert (Hsome : nth_error l (Z.to_nat i) <> None) by congruence.
    apply nth_error_Some in Hsome. lia.
Qed.

(** X28. Whatever entries a loader holds, an item it returns is a pair of
    tensors of the loader's own size: three channels for the image and one
    for the mask, [height] rows and [width] columns each.  The index is one
    Python accepts for the list of entries, and both pictures were read. *)
Theorem MarkerLoader_getitem_returns (pictures : string -> result (Z * Z))
    (self : MarkerLoader) (idx : Z) (image_tensor mask_tensor : Tensor) :
  MarkerLoader_getitem pictures self idx = Return (image_tensor, mask_tensor) ->
  image_tensor = [3; loader_height self; loader_width self]
  /\ mask_tensor = [1; loader_height self; loader_width self]
  /\ - MarkerLoader_len self <= idx < MarkerLoader_len self
  /\ exists entry image_size mask_size,
       index (loader_entries self) idx = Return entry
       /\ pictures (str_path (image_path entry)) = Return image_size
       /\ pictures (str_path (mask_path entry)) = Return mask_size.
Proof.
  unfold MarkerLoader_getitem, MarkerLoader_len. intros H.
  destruct (index (loader_entries self) idx) as [ entry | ] eqn:Hentry; [ | discriminate H ].
  cbn [bind] in H. unfold decode_image in H.
  destruct (pictures (str_path (image_path entry))) as [ image_size | ] eqn:Himage;
    [ | discriminate H ].
  cbn [bind] in H.
  destruct (fit_tensor [3; fst image_size; snd image_size] (loader_width self)
              (loader_height self))
    as [ [fitted_image [[[ix iy] iw] ih]] | ] eqn:Hfit_image; [ | discriminate H ].
  cbn [bind] in H.
  destruct (pictures (str_path (mask_path entry))) as [ mask_size | ] eqn:Hmask;
    [ | discriminate H ].
  cbn [bind] in H.
  destruct (fit_tensor [1; fst mask_size; snd mask_size] (loader_width self)
              (loader_height self))
    as [ [fitted_mask [[[mx my] mw] mh]] | ] eqn:Hfit_mask; [ | discriminate H ].
  cbn [bind fst] in H. unfold div_scalar, float in H. injection H as <- <-.
  apply fit_tensor_inversion in Hfit_image
    as (c1 & sh1 & sw1 & Hshape1 & _ & _ & _ & _ & _ & _ & _ & _ & -> & _).
  apply fit_tensor_inversion in Hfit_mask
    as (c2 & sh2 & sw2 & Hshape2 & _ & _ & _ & _ & _ & _ & _ & _ & -> & _).
  injection Hshape1 as <- _ _. injection Hshape2 as <- _ _.
  split; [ reflexivity | ]. split; [ reflexivity | ].
  split; [ exact (index_returns _ _ _ Hentry) | ].
  exists entry, image_size, mask_size.
  split; [ reflexivity | split; assumption ].
Qed.

Lemma MarkerLoader_getitem_returns_witness :
  [3; 64; 64] = [3; loader_height Examples.filled_loader; loader_width Examples.filled_loader]
  /\ [1; 64; 64] = [1; loader_height Examples.filled_loader; loader_width Examples.filled_loader]
  /\ - MarkerLoader_len Examples.filled_loader <= -1 < MarkerLoader_len Examples.filled_loader
  /\ exists entry image_size mask_size,
       index (loader_entries Examples.filled_loader) (-1) = Return entry
       /\ Examples.wide_pictures (str_path (image_path entry)) = Return image_size
       /\ Examples.wide_pictures (str_path (mask_path entry)) = Return mask_size.
Proof.
  apply (MarkerLoader_getitem_returns Examples.wide_pictures Examples.filled_loader (-1)
           [3; 64; 64] [1; 64; 64]).
  vm_compute. reflexivity.
Defined.

(* ===================================================================== *)
(** * More of src/python/main.py                                          *)
(* ===================================================================== *)

Section Host_coverage.

Context `{runtime : Runtime}.

(** X29. The two operations that replace the marker of the host either
    return, and leave in the host a marker that is [Ready] (new, with a loss
    of [1.0] and no iteration, for [init_marker]; the one [Marker.load]
    returns for [load_marker]), or raise, and leave in the host the marker it
    held before. *)
Theorem host_replaces_or_keeps (host : Main.Host) (files : Files)
    (device path : string) (width height depth : Z) :
  ((exists self,
      Main.init_marker host device width height depth = (Some self, Return tt)
      /\ Ready self /\ loss self = float_one /\ iterations self = 0)
   \/ (exists e, Main.init_marker host device width height depth = (host, Raise e)))
  /\ ((exists self,
         Main.load_marker host files device path = (Some self, Return tt)
         /\ Ready self /\ Marker_load files device path = Return self)
      \/ (exists e, Main.load_marker host files device path = (host, Raise e))).
Proof.
  split.
  - unfold Main.init_marker.
    destruct (Marker_init device width height depth) as [ self | e ] eqn:Hinit;
      [ left | right; exists e; reflexivity ].
    exists self. split; [ reflexivity | ].
    unfold Marker_init in Hinit.
    destruct (device_valid device) eqn:Hvalid; [ | discriminate Hinit ].
    destruct (UNet_init 3 1 depth) as [ net | ] eqn:Hnet; [ | discriminate Hinit ].
    cbn [bind] in Hinit.
    destruct (device_available device) eqn:Havailable; [ | discriminate Hinit ].
    injection Hinit as <-.
    split; [ | split; reflexivity ].
    split; [ exact Hvalid | split; [ exact Havailable | ] ].
    cbn [Model.depth Model.model]. rewrite (UNet_init_training 3 1 depth net Hnet). exact Hnet.
  - unfold Main.load_marker.
    destruct (Marker_load files device path) as [ self | e ] eqn:Hload;
      [ left | right; exists e; reflexivity ].
    exists self. split; [ reflexivity | ]. split; [ | reflexivity ].
    unfold Marker_load in Hload.
    destruct (files !! path) as [ data | ]; [ | discriminate Hload ].
    destruct (device_valid device) eqn:Hvalid; [ | discriminate Hload ].
    destruct (device_available device) eqn:Havailable; [ | discriminate Hload ].
    cbn [andb negb] in Hload. unfold Marker_init in Hload. rewrite Hvalid in Hload.
    destruct (UNet_init 3 1 (saved_depth data)) as [ net | ] eqn:Hnet;
      [ | discriminate Hload ].
    cbn [bind] in Hload. rewrite Havailable in Hload. cbn [bind] in Hload.
    unfold model_load_state_dict in Hload.
    destruct (bool_decide _) in Hload; [ | discriminate Hload ].
    cbn [bind] in Hload. unfold optimizer_load_state_dict in Hload.
    destruct (_ =? _) in Hload; [ | discriminate Hload ].
    cbn [bind] in Hload. injection Hload as <-.
    split; [ exact Hvalid | split; [ exact Havailable | ] ].
    cbn [Model.depth Model.model set_iterations set_loss set_optimizer set_weights].
    rewrite (UNet_init_training 3 1 _ net Hnet). exact Hnet.
Qed.

(** X30. The host operations in sequence: when the host holds a marker
    that is [Ready] and [save_marker] returns, [load_marker] on the same
    path and an available device, whatever the host holds by then, installs
    a marker of the same size, depth, loss and iterations, with the very
    values and optimiser state that were saved, in the same network put in
    training mode. *)
Theorem host_save_load (self : Marker) (later : Main.Host) (files files' : Files)
    (device path : string) :
  Ready self ->
  device_valid device = true -> device_available device = true ->
  Main.save_marker (Some self) files path = (files', Return tt) ->
  exists loaded,
    Main.load_marker later files' device path = (Some loaded, Return tt)
    /\ Model.device loaded = device
    /\ width loaded = width self /\ height loaded = height self
    /\ depth loaded = depth self
    /\ loss loaded = loss self /\ iterations loaded = iterations self
    /\ weights loaded = weights self /\ optimizer loaded = optimizer self
    /\ model loaded = UNet_train (model self) true
    /\ Ready loaded.
Proof.
  intros Hready Hvalid Havailable Hsave. unfold Main.save_marker in Hsave.
  unfold Main.load_marker.
  rewrite (Marker_load_saved self files files' device path path
             Hready Hvalid Havailable Hsave eq_refl).
  eexists. split; [ reflexivity | ].
  destruct Hready as (_ & _ & Hmodel).
  repeat split; try reflexivity; assumption.
Qed.

End Host_coverage.

(** [trained_marker] saved by a host that holds it, and loaded by a host
    that holds nothing. *)
Lemma host_save_load_witness :
  exists loaded,
    @Main.load_marker Examples.counting_runtime None
      (fst (Marker_save Examples.trained_marker Examples.empty_disk "marker.pt"))
      "cpu" "marker.pt" = (Some loaded, Return tt)
    /\ Model.device loaded = "cpu"
    /\ width loaded = width Examples.trained_marker
    /\ height loaded = height Examples.trained_marker
    /\ depth loaded = depth Examples.trained_marker
    /\ loss loaded = loss Examples.trained_marker
    /\ iterations loaded = iterations Examples.trained_marker
    /\ weights loaded = weights Examples.trained_marker
    /\ optimizer loaded = optimizer Examples.trained_marker
    /\ model loaded = UNet_train (model Examples.trained_marker) true
    /\ Ready loaded.
Proof.
  apply (@host_save_load Examples.counting_runtime Examples.trained_marker None
           Examples.empty_disk _ "cpu" "marker.pt").
  - repeat split; reflexivity.
  - reflexivity.
  - reflexivity.
  - reflexivity.
Defined.
